(** * Excel-Data-Converter: the classification-and-extraction engine

  A shallow embedding of [services/excelProcessor.ts] (merged into
  [index.tsx]): the CSV serializer [arrayToCsv], the type detector
  [detectFileType], the five per-type processors and the dispatcher
  [generateCsvsFromExcel], together with the parts of the JavaScript
  runtime they rely on; and the handlers of the component [App] that call
  the dispatcher: [handleFilesChange], [handleProcess] and
  [handleCsvOptionChange].

  Modelling conventions.
  - A JavaScript string is a [string]: a sequence of code units below 256.
  - A JavaScript number is a [number]: NaN, the two infinities, or a finite
    decimal [m * 10^e] kept in normal form.  The range of binary64 is
    modelled (overflow to infinity, underflow to zero); the rounding of the
    significand is not.
  - A [Date] is a time value in milliseconds since the epoch, or invalid.
  - The host-dependent parts of the runtime (the text of a [Date], the
    parsing of a free-form date string, the local time zone, the run date)
    and the spreadsheet reader are parameters of the development. *)

From Stdlib Require Import ZArith Ascii String Bool List Lia.
From stdpp Require Import base gmap list strings.

(** ** Strings *)

Module Str.

Definition dquote : ascii := "034"%char.
Definition comma : ascii := ","%char.
Definition dot : ascii := "."%char.
Definition newline : ascii := "010"%char.
Definition pipe : ascii := "|"%char.

Definition chr (c : ascii) : string := String c "".

(** [p] is a prefix of [s]. *)
Fixpoint startsWith (s p : string) {struct p} : bool :=
  match p with
  | "" => true
  | String a p' =>
      match s with
      | "" => false
      | String b s' => Ascii.eqb a b && startsWith s' p'
      end
  end.

(** [String.prototype.includes]. *)
Fixpoint includes (s kw : string) : bool :=
  startsWith s kw ||
  match s with
  | "" => false
  | String _ s' => includes s' kw
  end.

(** Does the character occur in the string? *)
Fixpoint mem (c : ascii) (s : string) : bool :=
  match s with
  | "" => false
  | String a s' => Ascii.eqb a c || mem c s'
  end.

(** [Array.prototype.join] on strings. *)
Fixpoint join (sep : string) (l : list string) : string :=
  match l with
  | [] => ""
  | [x] => x
  | x :: l' => x +:+ sep +:+ join sep l'
  end.

(** White space and line terminators that fit in one code unit below 256:
    TAB, LF, VT, FF, CR, SP, NBSP. *)
Definition is_space (c : ascii) : bool :=
  let n := nat_of_ascii c in
  (n =? 9)%nat || (n =? 10)%nat || (n =? 11)%nat || (n =? 12)%nat ||
  (n =? 13)%nat || (n =? 32)%nat || (n =? 160)%nat.

Fixpoint trimStart (s : string) : string :=
  match s with
  | "" => ""
  | String a s' => if is_space a then trimStart s' else s
  end.

(** Drops the trailing white space: a character survives when it is not
    white space or when something survives after it. *)
Fixpoint trimEnd (s : string) : string :=
  match s with
  | "" => ""
  | String a s' =>
      match trimEnd s' with
      | "" => if is_space a then "" else chr a
      | t => String a t
      end
  end.

(** [String.prototype.trim]. *)
Definition trim (s : string) : string := trimEnd (trimStart s).

(** [s.replace(',', '.')]: a string pattern replaces the first occurrence
    only. *)
Fixpoint replaceFirst (c d : ascii) (s : string) : string :=
  match s with
  | "" => ""
  | String a s' => if Ascii.eqb a c then String d s' else String a (replaceFirst c d s')
  end.

(** The global replacement used by the serializer: every double-quote
    character is doubled. *)
Fixpoint doubleQuotes (s : string) : string :=
  match s with
  | "" => ""
  | String a s' =>
      if Ascii.eqb a dquote then String dquote (String dquote (doubleQuotes s'))
      else String a (doubleQuotes s')
  end.

Definition is_digit (c : ascii) : bool :=
  let n := nat_of_ascii c in (48 <=? n)%nat && (n <=? 57)%nat.

Definition digit_val (c : ascii) : Z := Z.of_nat (nat_of_ascii c) - 48.

Definition digit_chr (d : Z) : ascii := ascii_of_nat (Z.to_nat (48 + d)).

(** The longest prefix of decimal digits, as (value, number of digits, rest). *)
Fixpoint digits (acc : Z) (cnt : nat) (s : string) : Z * nat * string :=
  match s with
  | "" => (acc, cnt, "")
  | String a s' =>
      if is_digit a then digits (10 * acc + digit_val a) (S cnt) s'
      else (acc, cnt, s)
  end.

(** The decimal digits of a natural number, most significant first. *)
Fixpoint showDigits (fuel : nat) (n : Z) (acc : string) : string :=
  match fuel with
  | O => acc
  | S fuel' =>
      let acc' := String (digit_chr (n mod 10)) acc in
      if (n / 10 =? 0)%Z then acc' else showDigits fuel' (n / 10) acc'
  end.

Definition showNat (n : Z) : string :=
  showDigits (S (Z.to_nat (Z.log2 n))) n "".

Fixpoint zeros (n : nat) : string :=
  match n with
  | O => ""
  | S n' => String "0" (zeros n')
  end.

Fixpoint take (n : nat) (s : string) : string :=
  match n, s with
  | S n', String a s' => String a (take n' s')
  | _, _ => ""
  end.

Fixpoint drop (n : nat) (s : string) : string :=
  match n, s with
  | S n', String _ s' => drop n' s'
  | _, _ => s
  end.

(** [String.prototype.padStart(2, '0')]. *)
Definition pad2 (s : string) : string :=
  zeros (2 - String.length s) +:+ s.

End Str.

(** ** Numbers *)

Module Num.

Local Open Scope Z_scope.

(** [Fin m e] is the finite number [m * 10^e]. *)
Inductive number :=
  | NaN
  | Inf (neg : bool)
  | Fin (m e : Z).

Definition pow10 (e : Z) : Z := 10 ^ e.

(** Strips the trailing decimal zeros of the significand. *)
Fixpoint strip (fuel : nat) (m e : Z) : Z * Z :=
  match fuel with
  | O => (m, e)
  | S fuel' => if m mod 10 =? 0 then strip fuel' (m / 10) (e + 1) else (m, e)
  end.

(** Largest magnitude that does not round to infinity, and the bound
    under which a magnitude rounds to zero, in binary64. *)
Definition overflows (m e : Z) : bool :=
  let t := 2 ^ 1024 - 2 ^ 970 in
  if 0 <=? e then t <=? Z.abs m * pow10 e else t * pow10 (- e) <=? Z.abs m.

Definition underflows (m e : Z) : bool :=
  if 0 <=? e then false else Z.abs m * 2 ^ 1075 <=? pow10 (- e).

(** The number [m * 10^e], in normal form. *)
Definition mk (m e : Z) : number :=
  if m =? 0 then Fin 0 0
  else if overflows m e then Inf (m <? 0)
  else if underflows m e then Fin 0 0
  else let '(m', e') := strip (Z.to_nat (Z.log2 (Z.abs m))) m e in Fin m' e'.

Definition ofZ (z : Z) : number := mk z 0.

Definition isNaN (n : number) : bool :=
  match n with NaN => true | _ => false end.

Definition isZero (n : number) : bool :=
  match n with Fin m _ => m =? 0 | _ => false end.

(** ToBoolean on a number: NaN and zero are falsy. *)
Definition truthy (n : number) : bool := negb (isNaN n) && negb (isZero n).

Definition sub (a b : number) : number :=
  match a, b with
  | NaN, _ | _, NaN => NaN
  | Inf s, Inf s' => if Bool.eqb s s' then NaN else Inf s
  | Inf s, Fin _ _ => Inf s
  | Fin _ _, Inf s => Inf (negb s)
  | Fin m1 e1, Fin m2 e2 =>
      let e := Z.min e1 e2 in
      mk (m1 * pow10 (e1 - e) - m2 * pow10 (e2 - e)) e
  end.

Definition negative (n : number) : bool :=
  match n with NaN => false | Inf s => s | Fin m _ => m <? 0 end.

Definition mul (a b : number) : number :=
  match a, b with
  | NaN, _ | _, NaN => NaN
  | Fin m1 e1, Fin m2 e2 => mk (m1 * m2) (e1 + e2)
  | _, _ =>
      if isZero a || isZero b then NaN
      else Inf (xorb (negative a) (negative b))
  end.

(** [a > b]; false as soon as one side is NaN. *)
Definition gt (a b : number) : bool :=
  match a, b with
  | NaN, _ | _, NaN => false
  | Inf s, Inf s' => negb s && s'
  | Inf s, Fin _ _ => negb s
  | Fin _ _, Inf s => s
  | Fin m1 e1, Fin m2 e2 =>
      let e := Z.min e1 e2 in
      m2 * pow10 (e2 - e) <? m1 * pow10 (e1 - e)
  end.

(** The integer part of a finite number (rounding toward zero). *)
Definition trunc (m e : Z) : Z :=
  if 0 <=? e then m * pow10 e else Z.quot m (pow10 (- e)).

Definition showInt (z : Z) : string :=
  if z <? 0 then String "-" (Str.showNat (- z)) else Str.showNat z.

(** Number::toString in radix 10. *)
Definition toString (x : number) : string :=
  match x with
  | NaN => "NaN"
  | Inf false => "Infinity"
  | Inf true => "-Infinity"
  | Fin m e =>
      if m =? 0 then "0" else
      let sign := if m <? 0 then "-" else "" in
      let s := Str.showNat (Z.abs m) in
      let k := Z.of_nat (String.length s) in
      let n := k + e in
      sign +:+
      (if (k <=? n) && (n <=? 21) then s +:+ Str.zeros (Z.to_nat (n - k))
       else if (0 <? n) && (n <=? 21) then
         Str.take (Z.to_nat n) s +:+ "." +:+ Str.drop (Z.to_nat n) s
       else if (-6 <? n) && (n <=? 0) then
         "0." +:+ Str.zeros (Z.to_nat (- n)) +:+ s
       else
         let ex := (if n - 1 <? 0 then "e-" else "e+") +:+ Str.showNat (Z.abs (n - 1)) in
         if k =? 1 then s +:+ ex
         else Str.take 1 s +:+ "." +:+ Str.drop 1 s +:+ ex)
  end.

(** An optional sign, as (is negative, rest). *)
Definition readSign (s : string) : bool * string :=
  match s with
  | String "-" s' => (true, s')
  | String "+" s' => (false, s')
  | _ => (false, s)
  end.

(** The exponent part [e], [E] followed by an optional sign and at least
    one digit; an incomplete exponent part is not consumed. *)
Definition readExponent (s : string) : Z :=
  match s with
  | String c s' =>
      if Ascii.eqb c "e" || Ascii.eqb c "E" then
        let '(neg, s'') := readSign s' in
        let '(v, cnt, _) := Str.digits 0 0 s'' in
        match cnt with
        | O => 0
        | S _ => if neg then - v else v
        end
      else 0
  | "" => 0
  end.

(** The global [parseFloat]: leading white space is skipped and the
    longest prefix that is a decimal literal is read; NaN when there is
    none. *)
Definition parseFloat (input : string) : number :=
  let '(neg, s) := readSign (Str.trimStart input) in
  if Str.startsWith s "Infinity" then Inf neg
  else
    let '(ip, ni, r1) := Str.digits 0 0 s in
    let '(m, nf, r2) :=
      match r1 with
      | String "." r1' => let '(v, cnt, r) := Str.digits ip 0 r1' in (v, cnt, r)
      | _ => (ip, O, r1)
      end in
    match ni, nf with
    | O, O => NaN
    | _, _ =>
        let ex := readExponent r2 in
        mk (if neg then - m else m) (ex - Z.of_nat nf)
    end.

(** [parseInt(input, 10)]. *)
Definition parseInt (input : string) : number :=
  let '(neg, s) := readSign (Str.trimStart input) in
  let '(v, cnt, _) := Str.digits 0 0 s in
  match cnt with
  | O => NaN
  | S _ => mk (if neg then - v else v) 0
  end.

(** [x || 0] and [x || null] on the result of a parse. *)
Definition orZero (n : number) : number := if truthy n then n else Fin 0 0.

End Num.

Export Num(number(..)).

(** ** Dates *)

Module JsDate.

Local Open Scope Z_scope.

(** A [Date] object: its time value, or the invalid date. *)
Inductive jsdate :=
  | Invalid
  | At (t : Z).

Definition msPerDay : Z := 86400000.

Definition timeClip (t : Z) : jsdate :=
  if Z.abs t <=? 8640000000000000 then At t else Invalid.

(** [new Date(value)] on a number: invalid when the number is not finite
  or beyond the range of time values, else cut to an integer. *)
Definition ofNumber (n : number) : jsdate :=
  match n with
  | Fin m e =>
      if Num.gt n (Fin 864 13) || Num.gt (Fin (-864) 13) n then Invalid
      else At (Num.trunc m e)
  | _ => Invalid
  end.

(** Year, month (0 to 11) and day of the month of a day number counted
    from the epoch, in the proleptic Gregorian calendar. *)
Definition civilFromDays (z : Z) : Z * Z * Z :=
  let z := z + 719468 in
  let era := z / 146097 in
  let doe := z - era * 146097 in
  let yoe := (doe - doe / 1460 + doe / 36524 - doe / 146096) / 365 in
  let doy := doe - (365 * yoe + yoe / 4 - yoe / 100) in
  let mp := (5 * doy + 2) / 153 in
  let d := doy - (153 * mp + 2) / 5 + 1 in
  let m := if mp <? 10 then mp + 3 else mp - 9 in
  let y := yoe + era * 400 + (if m <=? 2 then 1 else 0) in
  (y, m - 1, d).

(** MakeDay: the day number of a year, a month (0 based) and a day. *)
Definition makeDay (year month day : Z) : Z :=
  let y := year + month / 12 in
  let m := month mod 12 + 1 in
  let y' := if m <=? 2 then y - 1 else y in
  let era := y' / 400 in
  let yoe := y' - era * 400 in
  let mp := if 2 <? m then m - 3 else m + 9 in
  let doy := (153 * mp + 2) / 5 + day - 1 in
  let doe := yoe * 365 + yoe / 4 - yoe / 100 + doy in
  era * 146097 + doe - 719468.

(** The calendar fields of a time value; [None] stands for NaN. *)
Definition fieldsAt (t : Z) : Z * Z * Z := civilFromDays (t / msPerDay).

Definition getUTCFullYear (d : jsdate) : option Z :=
  match d with Invalid => None | At t => Some (fieldsAt t).1.1 end.

Definition getUTCMonth (d : jsdate) : option Z :=
  match d with Invalid => None | At t => Some (fieldsAt t).1.2 end.

Definition getUTCDate (d : jsdate) : option Z :=
  match d with Invalid => None | At t => Some (fieldsAt t).2 end.

Definition isValid (d : jsdate) : bool :=
  match d with Invalid => false | At _ => true end.

(** The text of a calendar field: [String(x)] of an integer or of NaN. *)
Definition showField (x : option Z) : string :=
  match x with
  | None => "NaN"
  | Some z => Num.showInt z
  end.

End JsDate.

Export JsDate(jsdate(..)).

(** ** Values *)

(** What a cell, a record field or a variable of the processors holds. *)
Inductive value :=
  | VUndef
  | VNull
  | VBool (b : bool)
  | VNum (n : number)
  | VStr (s : string)
  | VDate (d : jsdate).

Global Instance value_inhabited : Inhabited value := populate VUndef.

(** The host: what the program takes from its environment.
  - [sheet_to_json raw sheet] is the reader's grid of a sheet (array of
    rows, header 1, default value null), with typed cells when [raw] and
    formatted text otherwise;
  - [dateToString] is the text of a [Date];
  - [parseDate s] is [new Date(s)] on a string;
  - [localTime] and [utcOfLocal] convert a time value to local time and
    back;
  - [now] is the time value of the run. *)
Record Host := {
  sheetT : Type;
  sheet_to_json : bool -> sheetT -> list (list value);
  dateToString : jsdate -> string;
  parseDate : string -> jsdate;
  localTime : Z -> Z;
  utcOfLocal : Z -> Z;
  now : Z
  }.

(** A sample host: grids as sheets, ISO dates, universal time. *)
Module SampleHost.

Local Open Scope Z_scope.

Definition isoDate (t : Z) : string :=
  let '(y, m, d) := JsDate.fieldsAt t in
  Num.showInt y +:+ "-" +:+ Str.pad2 (Num.showInt (m + 1)) +:+ "-" +:+
  Str.pad2 (Num.showInt d).

Definition dateText (d : jsdate) : string :=
  match d with
  | Invalid => "Invalid Date"
  | At t => isoDate t
  end.

(** Reads [YYYY-MM-DD] and nothing else. *)
Definition readDate (s : string) : jsdate :=
  let '(y, ny, r1) := Str.digits 0 0 s in
  match r1 with
  | String "-" r1' =>
      let '(m, nm, r2) := Str.digits 0 0 r1' in
      match r2 with
      | String "-" r2' =>
          let '(d, nd, r3) := Str.digits 0 0 r2' in
          match ny, nm, nd, r3 with
          | 4%nat, 2%nat, 2%nat, "" =>
              if (1 <=? m) && (m <=? 12) && (1 <=? d) && (d <=? 31)
              then At (JsDate.makeDay y (m - 1) d * JsDate.msPerDay)
              else Invalid
          | _, _, _, _ => Invalid
          end
      | _ => Invalid
      end
  | _ => Invalid
  end.

Definition host : Host := {|
    sheetT := list (list value);
    sheet_to_json := fun _ grid => grid;
    dateToString := dateText;
    parseDate := readDate;
    localTime := fun t => t;
    utcOfLocal := fun t => t;
    now := 1700000000000
  |}.

End SampleHost.

(** A host with a forward clock change: local time is one hour ahead of
    universal time up to the instant [change] and two hours ahead from then
    on, so the local hour from midnight to one o'clock of the 15th of March
    2023 (day 19431 from the epoch) does not exist.  A local time that the
    change skips is read with the offset before the change, as
    [new Date(y, m, d)] reads it. *)
Module ForwardClockHost.

Local Open Scope Z_scope.

Definition change : Z := 19431 * 86400000 - 3600000.

Definition toLocal (t : Z) : Z :=
  if t <? change then t + 3600000 else t + 7200000.

Definition ofLocal (l : Z) : Z :=
  if l <? change + 7200000 then l - 3600000 else l - 7200000.

Definition host : Host := {|
    sheetT := list (list value);
    sheet_to_json := fun _ grid => grid;
    dateToString := SampleHost.dateText;
    parseDate := SampleHost.readDate;
    localTime := toLocal;
    utcOfLocal := ofLocal;
    now := 1700000000000
  |}.

End ForwardClockHost.

(** ** Types of the program (types.ts) *)

Inductive FileType :=
  | ITEM_MASTER | ITEM_MASTER_V2 | FACTS | STORE_ITEMS | STORE | STOCK | PRICE | UNKNOWN.

Global Instance FileType_eq_dec : EqDecision FileType.
Proof. solve_decision. Defined.

Inductive Status := processing | success | error.

Record StatusUpdate := { message : string; status : Status }.

Record CsvFile := { name : string; content : string }.

(** An object used as a record: property name to value. *)
Abbreviation obj := (gmap string value).

(** Property read: [undefined] when the property is absent. *)
Definition prop (o : obj) (k : string) : value := default VUndef (o !! k).

(** An object literal. *)
Definition literal (fields : list (string * value)) : obj := list_to_map fields.

(** A [Map] with string keys: the entries in insertion order. *)
Module JsMap.

Section JsMap.
Context {V : Type}.

Fixpoint get (m : list (string * V)) (k : string) : option V :=
  match m with
  | [] => None
  | (k', v) :: m' => if decide (k' = k) then Some v else get m' k
  end.

Definition has (m : list (string * V)) (k : string) : bool := bool_decide (is_Some (get m k)).

(** [set] keeps the position of a key that is already present. *)
Fixpoint set (m : list (string * V)) (k : string) (v : V) : list (string * V) :=
  match m with
  | [] => [(k, v)]
  | (k', v') :: m' =>
      if decide (k' = k) then (k, v) :: m' else (k', v') :: set m' k v
  end.

Definition values (m : list (string * V)) : list V := m.*2.

Definition keys (m : list (string * V)) : list string := m.*1.
End JsMap.

End JsMap.

(** A [Set] of strings, in insertion order. *)
Definition setAdd (s : list string) (x : string) : list string :=
  if bool_decide (x ∈ s) then s else s ++ [x].

(** ** The canonical entities

  Each record is the object literal the processors build; [toObj] is that
  literal as an object, the form [arrayToCsv] reads. *)

Inductive result (A : Type) :=
  | Ok (a : A)
  | Throw (msg : string).

Arguments Ok {A} a.
Arguments Throw {A} msg.

Module StoreRecord.
Record t := {
    store_uid : value; name : value; region : value; group_name : value;
    floor_space : number; in_shelf : number; licence_start_date : string;
    is_deleted : number
  }.
Definition toObj (r : t) : obj := literal [
    ("store_uid", store_uid r); ("name", name r); ("region", region r);
    ("group_name", group_name r); ("floor_space", VNum (floor_space r));
    ("in_shelf", VNum (in_shelf r));
    ("licence_start_date", VStr (licence_start_date r));
    ("is_deleted", VNum (is_deleted r))].
End StoreRecord.

Module StoreItem.
Record t := {
    store_uid : value; item_uid : value; is_active_planogram : number;
    purchase_price : value; retail_price : value; external_supplier_uid : value
  }.
Definition toObj (r : t) : obj := literal [
    ("store_uid", store_uid r); ("item_uid", item_uid r);
    ("is_active_planogram", VNum (is_active_planogram r));
    ("purchase_price", purchase_price r); ("retail_price", retail_price r);
    ("external_supplier_uid", external_supplier_uid r)].
End StoreItem.

Module Supplier.
Record t := { supplier_uid : value; name : value; is_deleted : number }.
Definition toObj (r : t) : obj := literal [
  ("supplier_uid", supplier_uid r); ("name", name r);
  ("is_deleted", VNum (is_deleted r))].
End Supplier.

Module Fact.
Record t := {
    item_uid : value; store_uid : value; date : value;
    stock : value; sold_qty : value; revenue : value; cogs : value
  }.
Definition toObj (r : t) : obj := literal [
    ("item_uid", item_uid r); ("store_uid", store_uid r); ("date", date r);
    ("stock", stock r); ("sold_qty", sold_qty r); ("revenue", revenue r);
    ("cogs", cogs r)].
End Fact.

Module MasterItem.
Record t := {
    item_uid : string; name : value; manufacturer_uid : value; brand_uid : value;
    is_fractional : number;
    additional_1 : value; additional_2 : value; additional_3 : value;
    additional_4 : value;
    main_unit_uid : value; erp_category_uid : value
  }.
Definition toObj (r : t) : obj := literal [
    ("item_uid", VStr (item_uid r)); ("name", name r);
    ("manufacturer_uid", manufacturer_uid r); ("brand_uid", brand_uid r);
    ("is_fractional", VNum (is_fractional r));
    ("additional_1", additional_1 r); ("additional_2", additional_2 r);
    ("additional_3", additional_3 r); ("additional_4", additional_4 r);
    ("main_unit_uid", main_unit_uid r); ("erp_category_uid", erp_category_uid r)].
End MasterItem.

Module Barcode.
Record t := { item_uid : string; barcode : value; is_main : number }.
Definition toObj (r : t) : obj := literal [
  ("item_uid", VStr (item_uid r)); ("barcode", barcode r);
  ("is_main", VNum (is_main r))].
End Barcode.

Module Dimension.
Record t := {
    item_uid : string; unit_name : value; width : number; height : number;
    depth : number; netweight : value; volume : value; dimension_uid : value;
    coef : number; is_deleted : number
  }.
Definition toObj (r : t) : obj := literal [
    ("item_uid", VStr (item_uid r)); ("unit_name", unit_name r);
    ("width", VNum (width r)); ("height", VNum (height r));
    ("depth", VNum (depth r)); ("netweight", netweight r);
    ("volume", volume r); ("dimension_uid", dimension_uid r);
    ("coef", VNum (coef r)); ("is_deleted", VNum (is_deleted r))].
End Dimension.

Module Category.
Record t := { erp_category_uid : value; name : value; parent_category_uid : value }.
Definition toObj (r : t) : obj := literal [
  ("erp_category_uid", erp_category_uid r); ("name", name r);
  ("parent_category_uid", parent_category_uid r)].
End Category.

(** Brand and manufacturer records have the same shape; [kind] is the
  name of the identity field. *)
Module Party.
Record t := { uid : value; name : value; is_deleted : number }.
Definition toObj (kind : string) (r : t) : obj := literal [
  (kind, uid r); ("name", name r); ("is_deleted", VNum (is_deleted r))].
End Party.

Module MasterItemV2.
  (** [additional] holds additional_1 to additional_20, in order. *)
Record t := {
    item_uid : string; name : value; manufacturer_uid : value; brand_uid : value;
    is_fractional : number; main_unit_uid : value; is_deleted : number;
    additional : list value;
    erp_category_uid : value
  }.
Definition additionalFields (l : list value) : list (string * value) :=
    imap (λ i v, ("additional_" +:+ Num.showInt (Z.of_nat (S i)), v)) l.
Definition toObj (r : t) : obj := literal (
    [("item_uid", VStr (item_uid r)); ("name", name r);
     ("manufacturer_uid", manufacturer_uid r); ("brand_uid", brand_uid r);
     ("is_fractional", VNum (is_fractional r));
     ("main_unit_uid", main_unit_uid r); ("is_deleted", VNum (is_deleted r))]
    ++ additionalFields (additional r)
    ++ [("erp_category_uid", erp_category_uid r)]).
End MasterItemV2.

Module DimensionV2.
Record t := {
    item_uid : string; unit_name : value; width : value; height : value;
    depth : value; coef : number; is_deleted : number; dimension_uid : value
  }.
Definition toObj (r : t) : obj := literal [
    ("item_uid", VStr (item_uid r)); ("unit_name", unit_name r);
    ("width", width r); ("height", height r); ("depth", depth r);
    ("coef", VNum (coef r)); ("is_deleted", VNum (is_deleted r));
    ("dimension_uid", dimension_uid r)].
End DimensionV2.

(** ** A reader for the serialized tables *)

Module CsvReader.

(** [s] without its prefix [p], when it starts with [p]. *)
Fixpoint stripPrefix (p s : string) {struct p} : option string :=
  match p with
  | "" => Some s
  | String a p' =>
      match s with
      | "" => None
      | String b s' => if Ascii.eqb a b then stripPrefix p' s' else None
      end
  end.

Inductive mode :=
  | FieldStart   (* nothing of the field read yet *)
  | Bare         (* inside a field without quotes *)
  | Quoted       (* inside a quoted field *)
  | QuoteSeen.   (* a quote read inside a quoted field *)

Definition addChar (cur : string) (c : ascii) : string := cur +:+ Str.chr c.

(** The character [c] read outside quotes: a comma ends the field, a
    line feed ends the record, any other character joins the field. *)
Definition outside (c : ascii) (cur : string) (fields : list string)
    (recs : list (list string)) : mode * string * list string * list (list string) :=
  if Ascii.eqb c Str.comma then (FieldStart, "", fields ++ [cur], recs)
  else if Ascii.eqb c Str.newline then (FieldStart, "", [], recs ++ [fields ++ [cur]])
  else (Bare, addChar cur c, fields, recs).

Definition step (m : mode) (c : ascii) (cur : string) (fields : list string)
    (recs : list (list string)) : mode * string * list string * list (list string) :=
  match m with
  | FieldStart =>
      if Ascii.eqb c Str.dquote then (Quoted, cur, fields, recs)
      else outside c cur fields recs
  | Bare => outside c cur fields recs
  | Quoted =>
      if Ascii.eqb c Str.dquote then (QuoteSeen, cur, fields, recs)
      else (Quoted, addChar cur c, fields, recs)
  | QuoteSeen =>
      if Ascii.eqb c Str.dquote then (Quoted, addChar cur c, fields, recs)
      else outside c cur fields recs
  end.

(** The records of a text; the end of the text ends the last record. *)
Fixpoint scan (m : mode) (cur : string) (fields : list string)
    (recs : list (list string)) (s : string) : list (list string) :=
  match s with
  | "" => recs ++ [fields ++ [cur]]
  | String c s' =>
      let '(m', cur', fields', recs') := step m c cur fields recs in
      scan m' cur' fields' recs' s'
  end.

(** The modes in which a field may end. *)
Definition closing (m : mode) : bool :=
  match m with Quoted => false | _ => true end.

(** Modelled from the spec: the reader of the round-trip property, which
    the repository does not contain.  It re-parses a generated table
    under the declared column order: the first line must be the header
    of these columns; fields are separated by commas and records by line
    feeds; a field that starts with a quote runs to its closing quote,
    a doubled quote inside it standing for one quote.  A table with
    nothing after the header line has no records. *)
Definition parseCsv (columns : list string) (text : string) : option (list (list string)) :=
  match stripPrefix (Str.join "," columns +:+ Str.chr Str.newline) text with
  | None => None
  | Some "" => Some []
  | Some body => Some (scan FieldStart "" [] [] body)
  end.

End CsvReader.

(** ** Sample data *)

Module Samples.

(** A text with a line feed between two parts. *)
Definition twoLines (a b : string) : string := a +:+ String Str.newline b.

(** Two tables of two columns with the same serialized text. *)
Definition lineFeedTable : list obj :=
  [literal [("a", VStr "1"); ("b", VStr (twoLines "x" "y"))];
   literal [("a", VStr "2"); ("b", VStr "z")]].

Definition twinTable : list obj :=
  [literal [("a", VStr "1"); ("b", VStr "x")];
   literal [("a", VStr (twoLines "y" "2")); ("b", VStr "z")]].

(** A supplier table. *)
Definition suppliers : list obj :=
  [literal [("supplier_uid", VStr "S,1"); ("name", VStr "Acme"); ("is_deleted", VNum (Fin 0 0))];
   literal [("supplier_uid", VNum (Fin 125 (-1))); ("name", VNull)]].

(** Rows of the second item-master format: the first leaves category C
    without a name and without a parent, the second names it under P. *)
Definition unnamedCategory : obj :=
  literal [("UID*", VStr "1"); ("Category level 2 UID", VStr "C");
           ("Category level 2", VNull)].

Definition namedCategory : obj :=
  literal [("UID*", VStr "2"); ("Category level 1 UID", VStr "P");
           ("Category level 2 UID", VStr "C"); ("Category level 2", VStr "Cat")].

(** A row that populates the levels 2 and 4 only. *)
Definition levelsTwoAndFour : obj :=
  literal [("UID*", VStr "3"); ("Category level 2 UID", VStr "B");
           ("Category level 2", VStr "Drinks"); ("Category level 3", VStr "");
           ("Category level 4", VStr "D")].


(** The header rows of a stock sheet and of an item-master sheet that has
    the keywords of both formats. *)
Definition stockGrid : list (list value) :=
  [[VStr "StoreID"; VStr "ItemUID"; VStr "Quantity"]; [VStr "S1"; VStr "I1"; VNum (Fin 3 0)]].





End Samples.

(** ** The engine *)

Section Engine.

Variable host : Host.

Local Open Scope Z_scope.

(** *** Conversions of the language *)

(** ToBoolean. *)
Definition truthy (v : value) : bool :=
  match v with
  | VUndef | VNull => false
  | VBool b => b
  | VNum n => Num.truthy n
  | VStr s => negb (bool_decide (s = ""))
  | VDate _ => true
  end.

(** [String(v)]. *)
Definition toStr (v : value) : string :=
  match v with
  | VUndef => "undefined"
  | VNull => "null"
  | VBool true => "true"
  | VBool false => "false"
  | VNum n => Num.toString n
  | VStr s => s
  | VDate d => dateToString host d
  end.

(** [a || b]. *)
Definition orElse (a b : value) : value := if truthy a then a else b.

Definition isString (v : value) : bool :=
  match v with VStr _ => true | _ => false end.

(** [v === null || v === undefined]. *)
Definition isNullish (v : value) : bool :=
  match v with VUndef | VNull => true | _ => false end.

(** The text of an element inside [Array.prototype.join]. *)
Definition joinText (v : value) : string :=
  if isNullish v then "" else toStr v.

Definition joinCells (sep : string) (row : list value) : string :=
  Str.join sep (joinText <$> row).

(** [v !== null && v !== undefined && String(v).trim() !== ''], the
    test of a populated cell in the item-master processors. *)
Definition nonBlank (v : value) : bool :=
  negb (isNullish v) && negb (bool_decide (Str.trim (toStr v) = "")).

(** [parseFloat(...) || null] as a value. *)
Definition numOrNull (n : number) : value :=
  if Num.truthy n then VNum n else VNull.

(** [parseFloat(String(v || dflt).replace(',', '.'))]. *)
Definition parseDecimal (dflt : string) (v : value) : number :=
  Num.parseFloat (Str.replaceFirst Str.comma Str.dot (toStr (orElse v (VStr dflt)))).

(** [parseInt(String(v), 10) || 0]. *)
Definition parseIntOr0 (v : value) : number :=
  Num.orZero (Num.parseInt (toStr v)).

(** *** Utility functions *)

Definition getFullYear (d : jsdate) : option Z :=
  match d with Invalid => None | At t => Some (JsDate.fieldsAt (localTime host t)).1.1 end.

Definition getMonth (d : jsdate) : option Z :=
  match d with Invalid => None | At t => Some (JsDate.fieldsAt (localTime host t)).1.2 end.

Definition getDate (d : jsdate) : option Z :=
  match d with Invalid => None | At t => Some (JsDate.fieldsAt (localTime host t)).2 end.

(** [new Date(year, month, day)]: local midnight of that day; a year from
    0 to 99 counts from 1900. *)
Definition newLocalDate (year month day : option Z) : jsdate :=
  match year, month, day with
  | Some y, Some m, Some d =>
      let y' := if (0 <=? y) && (y <=? 99) then 1900 + y else y in
      JsDate.timeClip (utcOfLocal host (JsDate.makeDay y' m d * JsDate.msPerDay))
  | _, _, _ => Invalid
  end.

Definition getTodayDateString : string :=
  let today := At (now host) in
  JsDate.showField (getFullYear today) +:+
  Str.pad2 (JsDate.showField ((λ m, m + 1) <$> getMonth today)) +:+
  Str.pad2 (JsDate.showField (getDate today)).

Definition csvField (v : value) : string :=
  if isNullish v then ""
  else
    let s := toStr v in
    if Str.includes s (Str.chr Str.dquote) || Str.includes s ","
    then Str.chr Str.dquote +:+ Str.doubleQuotes s +:+ Str.chr Str.dquote
    else s.

Definition csvLine (columns : list string) (row : obj) : string :=
  Str.join "," ((λ col, csvField (prop row col)) <$> columns).

Definition arrayToCsv (data : list obj) (columns : list string) : string :=
  let header := Str.join "," columns +:+ Str.chr Str.newline in
  let rows := Str.join (Str.chr Str.newline) (csvLine columns <$> data) in
  header +:+ rows.

Definition excelSerialDateToJSDate (serial : number) : jsdate :=
  let utcMilliseconds := Num.mul (Num.mul (Num.sub serial (Fin 25569 0)) (Fin 864 2)) (Fin 1 3) in
  let utcDate := JsDate.ofNumber utcMilliseconds in
  newLocalDate (JsDate.getUTCFullYear utcDate) (JsDate.getUTCMonth utcDate)
               (JsDate.getUTCDate utcDate).

Definition formatDateToYYYYMMDD (date : jsdate) : string :=
  let year := JsDate.showField (getFullYear date) in
  let month := Str.pad2 (JsDate.showField ((λ m, m + 1) <$> getMonth date)) in
  let day := Str.pad2 (JsDate.showField (getDate date)) in
  year +:+ "-" +:+ month +:+ "-" +:+ day.

(** *** File type detection *)

Record workbook := {
    SheetNames : list string;
    Sheets : gmap string (sheetT host)
  }.

Definition keywords (t : FileType) : list string :=
  match t with
  | STORE => ["Store UID*"]
  | STORE_ITEMS => ["Store UID*"; "Product UID*"; "In assortment?"; "Purchase price"]
  | FACTS => ["Product UID*"; "Store UID*"; "Date*"]
  | ITEM_MASTER_V2 => ["UID*"; "Product name*"; "Manufacturer UID"]
  | ITEM_MASTER => ["UID*"; "Product name*"; "Barcode"; "Manufacturer"]
  | STOCK => ["StoreID"; "ItemUID"; "Quantity"]
  | PRICE => ["ItemUID"; "PriceList"; "Price"]
  | UNKNOWN => []
  end.

Definition typeCheckOrder : list FileType :=
  [ITEM_MASTER_V2; ITEM_MASTER; STORE_ITEMS; FACTS; STORE; STOCK; PRICE].

(** The test of one row: some cell is a string, and the row joined with
    a bar contains every keyword. *)
Definition rowMatches (kws : list string) (row : list value) : bool :=
  existsb (λ cell, isString cell &&
                   forallb (λ kw, Str.includes (joinCells "|" row) kw) kws) row.

(** The scan of the first 20 rows of one sheet. *)
Definition sheetMatches (kws : list string) (jsonData : list (list value)) : bool :=
  existsb (rowMatches kws) (take 20 jsonData).

(** The inner loop: the first sheet of the workbook that matches. *)
Fixpoint findSheet (wb : workbook) (kws : list string) (names : list string) : option string :=
  match names with
  | [] => None
  | sheetName :: rest =>
      match Sheets wb !! sheetName with
      | Some sheet =>
          if sheetMatches kws (sheet_to_json host true sheet) then Some sheetName
          else findSheet wb kws rest
      | None => findSheet wb kws rest
      end
  end.

(** The outer loop over the types. *)
Fixpoint detectLoop (wb : workbook) (types : list FileType) : FileType * option string :=
  match types with
  | [] => (UNKNOWN, None)
  | type :: rest =>
      match findSheet wb (keywords type) (SheetNames wb) with
      | Some sheetName => (type, Some sheetName)
      | None => detectLoop wb rest
      end
  end.

Definition detectFileType (wb : workbook) : FileType * option string :=
  detectLoop wb typeCheckOrder.

(** *** Header row and row objects *)

(** Some cell is a string that contains some keyword. *)
Definition isHeaderRow (kws : list string) (row : list value) : bool :=
  existsb (λ cell, match cell with
                   | VStr s => existsb (λ kw, Str.includes s kw) kws
                   | _ => false
                   end) row.

(** The index of the header row; [None] is the index -1 of the source. *)
Fixpoint findHeaderRow (kws : list string) (rawData : list (list value)) : option nat :=
  match rawData with
  | [] => None
  | row :: rest =>
      if isHeaderRow kws row then Some O else S <$> findHeaderRow kws rest
  end.

(** [row.map(h => String(h || '').trim())]. *)
Definition headersOf (row : list value) : list string :=
  (λ h, Str.trim (toStr (orElse h (VStr "")))) <$> row.

Definition trimCell (v : value) : value :=
  match v with
  | VStr s => VStr (Str.trim s)
  | _ => v
  end.

(** The loop that fills a row object: a column whose header is empty is
    dropped, a later column overwrites an earlier one of the same
    header, a cell missing from the row reads as undefined. *)
Fixpoint fillRow (headers : list string) (index : nat) (row : list value)
    (rowObject : obj) : obj :=
  match headers with
  | [] => rowObject
  | header :: rest =>
      fillRow rest (S index) row
        (if bool_decide (header = "") then rowObject
         else <[header := trimCell (default VUndef (row !! index))]> rowObject)
  end.

Definition rowObjectOf (headers : list string) (row : list value) : obj :=
  fillRow headers 0 row ∅.

Definition quoted (s : string) : string :=
  Str.chr Str.dquote +:+ s +:+ Str.chr Str.dquote.

Definition say (st : Status) (msg : string) : StatusUpdate :=
  {| message := msg; status := st |}.

(** The common opening of the processors: the grid of the sheet read as
    formatted text, and the index of its header row. *)
Definition openSheet (wb : workbook) (sheetName : string) (kws : list string)
    (noHeader : string) : result (list (list value) * nat) :=
  match Sheets wb !! sheetName with
  | None => Throw ("Sheet " +:+ quoted sheetName +:+ " not found.")
  | Some worksheet =>
      let rawData := sheet_to_json host false worksheet in
      match findHeaderRow kws rawData with
      | None => Throw noHeader
      | Some headerRowIndex => Ok (rawData, headerRowIndex)
      end
  end.

Definition option_on (options : gmap string bool) (k : string) : bool :=
  default true (options !! k).

Definition csvName (table : string) : string :=
  table +:+ "_" +:+ getTodayDateString +:+ ".csv".

(** *** Stores *)

Definition storeOfRow (rowObject : obj) : StoreRecord.t := {|
    StoreRecord.store_uid := prop rowObject "Store UID*";
    StoreRecord.name := prop rowObject "Store name*";
    StoreRecord.region := prop rowObject "Region";
    StoreRecord.group_name := prop rowObject "Group name";
    StoreRecord.floor_space := parseIntOr0 (prop rowObject "Square");
    StoreRecord.in_shelf := parseIntOr0 (prop rowObject "In Shelf?");
    StoreRecord.licence_start_date := "2023-01-01";
    StoreRecord.is_deleted := parseIntOr0 (prop rowObject "To delete")
  |}.

Definition storesColumns : list string :=
  ["store_uid"; "name"; "region"; "group_name"; "floor_space"; "in_shelf";
   "licence_start_date"; "is_deleted"].

Definition processStoresFile (wb : workbook) (sheetName : string)
    : list StatusUpdate * result (list CsvFile) :=
  let start := say processing
    ("Processing Stores file from sheet " +:+ quoted sheetName +:+ "...") in
  match openSheet wb sheetName (keywords STORE)
          "Could not find a valid header row in the Stores sheet." with
  | Throw msg => ([start], Throw msg)
  | Ok (rawData, headerRowIndex) =>
      let headers := headersOf (default [] (rawData !! headerRowIndex)) in
      let dataRows := drop (S headerRowIndex) rawData in
      let storesData :=
        List.filter (λ row, truthy (StoreRecord.store_uid row))
          ((λ row, storeOfRow (rowObjectOf headers row)) <$> dataRows) in
      match storesData with
      | [] =>
          ([start; say success
              "No valid data rows found in Stores file, skipping CSV generation."],
           Ok [])
      | _ =>
          ([start; say success "Stores processing complete."],
           Ok [ {| name := csvName "stores";
                   content := arrayToCsv (StoreRecord.toObj <$> storesData) storesColumns |} ])
      end
  end.

(** *** Store items *)

Definition storeItemOfRow (rowObject : obj) : StoreItem.t := {|
    StoreItem.store_uid := prop rowObject "Store UID*";
    StoreItem.item_uid := prop rowObject "Product UID*";
    StoreItem.is_active_planogram := parseIntOr0 (prop rowObject "In assortment?");
    StoreItem.purchase_price := numOrNull (parseDecimal "0" (prop rowObject "Purchase price"));
    StoreItem.retail_price := numOrNull (parseDecimal "0" (prop rowObject "Sale price"));
    StoreItem.external_supplier_uid := prop rowObject "Supplier UID"
  |}.

(** The body of the loop over the data rows. *)
Definition storeItemsStep (st : list StoreItem.t * list (string * Supplier.t))
    (rowObject : obj) : list StoreItem.t * list (string * Supplier.t) :=
  let '(itemsData, suppliersMap) := st in
  let storeUid := prop rowObject "Store UID*" in
  let itemUid := prop rowObject "Product UID*" in
  if truthy storeUid && truthy itemUid then
    let supplierUid := prop rowObject "Supplier UID" in
    (itemsData ++ [storeItemOfRow rowObject],
     if truthy supplierUid && negb (JsMap.has suppliersMap (toStr supplierUid))
     then JsMap.set suppliersMap (toStr supplierUid)
            {| Supplier.supplier_uid := supplierUid;
               Supplier.name := prop rowObject "Supplier";
               Supplier.is_deleted := Fin 0 0 |}
     else suppliersMap)
  else st.

Definition storeItemsOf (rows : list obj) : list StoreItem.t * list (string * Supplier.t) :=
  fold_left storeItemsStep rows ([], []).

Definition itemsColumns : list string :=
  ["item_uid"; "store_uid"; "is_active_planogram"; "purchase_price";
   "retail_price"; "external_supplier_uid"].

Definition processStoreItemsFile (wb : workbook) (sheetName : string)
    (options : gmap string bool) : list StatusUpdate * result (list CsvFile) :=
  let start := say processing
    ("Processing Store Items file from sheet " +:+ quoted sheetName +:+ "...") in
  match openSheet wb sheetName (keywords STORE_ITEMS)
          "Could not find a valid header row in the Items sheet." with
  | Throw msg => ([start], Throw msg)
  | Ok (rawData, headerRowIndex) =>
      let headers := headersOf (default [] (rawData !! headerRowIndex)) in
      let dataRows := drop (S headerRowIndex) rawData in
      let '(itemsData, suppliersMap) := storeItemsOf (rowObjectOf headers <$> dataRows) in
      match itemsData with
      | [] =>
          ([start; say success
              "No valid data rows found in Items file, skipping CSV generation."],
           Ok [])
      | _ =>
          ([start; say success "Store Items processing complete."],
           Ok ([ {| name := csvName "items";
                    content := arrayToCsv (StoreItem.toObj <$> itemsData) itemsColumns |} ]
               ++ (if option_on options "suppliers" && negb (bool_decide (suppliersMap = []))
                   then [ {| name := csvName "suppliers";
                             content := arrayToCsv (Supplier.toObj <$> JsMap.values suppliersMap)
                                          ["supplier_uid"; "name"; "is_deleted"] |} ]
                   else [])))
      end
  end.

(** *** Facts *)

(** The third path of the date resolution: [new Date(String(v))], kept
    when it is a valid date. *)
Definition dateFromString (dateValue : value) : option jsdate :=
  let d := parseDate host (toStr dateValue) in
  if JsDate.isValid d then Some d else None.

(** The variable [jsDate] after the three paths; [None] is null. *)
Definition pickDate (dateValue : value) : option jsdate :=
  match dateValue with
  | VDate d => if JsDate.isValid d then Some d else dateFromString dateValue
  | VNum n =>
      if Num.gt n (Fin 1 0) then Some (excelSerialDateToJSDate n)
      else dateFromString dateValue
  | _ => dateFromString dateValue
  end.

(** The variable [formattedDate]: a string or null. *)
Definition resolveDate (dateValue : value) : value :=
  if truthy dateValue then
    match pickDate dateValue with
    | Some jsDate => VStr (formatDateToYYYYMMDD jsDate)
    | None => VNull
    end
  else VNull.

Definition factOfRow (rowObject : obj) : Fact.t := {|
    Fact.item_uid := prop rowObject "Product UID*";
    Fact.store_uid := prop rowObject "Store UID*";
    Fact.date := resolveDate (prop rowObject "Date*");
    Fact.stock := numOrNull (parseDecimal "0" (prop rowObject "Stock"));
    Fact.sold_qty := numOrNull (parseDecimal "0" (prop rowObject "Out sale"));
    Fact.revenue := numOrNull (parseDecimal "0" (prop rowObject "Revenue"));
    Fact.cogs := numOrNull (parseDecimal "0" (prop rowObject "COGS"))
  |}.

Definition factKept (row : Fact.t) : bool :=
  truthy (Fact.item_uid row) && truthy (Fact.store_uid row) && truthy (Fact.date row).

Definition factsOf (rows : list obj) : list Fact.t :=
  List.filter factKept (factOfRow <$> rows).

Definition factsColumns : list string :=
  ["item_uid"; "store_uid"; "date"; "stock"; "sold_qty"; "revenue"; "cogs"].

Definition processFactsFile (wb : workbook) (sheetName : string)
    : list StatusUpdate * result (list CsvFile) :=
  let start := say processing
    ("Processing Facts file from sheet " +:+ quoted sheetName +:+ "...") in
  match openSheet wb sheetName (keywords FACTS)
          "Could not find a valid header row in the Facts sheet." with
  | Throw msg => ([start], Throw msg)
  | Ok (rawData, headerRowIndex) =>
      let headers := headersOf (default [] (rawData !! headerRowIndex)) in
      let dataRows := drop (S headerRowIndex) rawData in
      let factsData := factsOf (rowObjectOf headers <$> dataRows) in
      match factsData with
      | [] =>
          ([start; say success
              "No valid data rows found in Facts file, skipping CSV generation."],
           Ok [])
      | _ =>
          ([start; say success "Facts processing complete."],
           Ok [ {| name := csvName "facts";
                   content := arrayToCsv (Fact.toObj <$> factsData) factsColumns |} ])
      end
  end.

(** *** Item master, first format *)

(** [cell !== null && String(cell).trim() !== ''] on some cell. *)
Definition nonEmptyRow (row : list value) : bool :=
  existsb (λ cell, match cell with
                   | VNull => false
                   | _ => negb (bool_decide (Str.trim (toStr cell) = ""))
                   end) row.

(** The rows from the first non-empty row after the header on. *)
Fixpoint fromDataStart (rows : list (list value)) : list (list value) :=
  match rows with
  | [] => []
  | row :: rest => if nonEmptyRow row then rows else fromDataStart rest
  end.

Record ItemMasterState := {
    masteritemsData : list MasterItem.t;
    barcodesData : list Barcode.t;
    dimensionsData : list Dimension.t;
    seenBrands : list string;
    seenManufacturers : list string;
    seenErpCategories : list (string * Category.t);
    seenUids : gset string
  }.

Definition emptyItemMasterState : ItemMasterState := {|
    masteritemsData := []; barcodesData := []; dimensionsData := [];
    seenBrands := []; seenManufacturers := []; seenErpCategories := [];
    seenUids := ∅
  |}.

(** The object [{ 1: 'Segment', 2: 'Family', 3: 'Class', 4: 'Brick' }]
    and its values in key order. *)
Definition levelMapping (k : nat) : option string :=
  match k with
  | 1%nat => Some "Segment"
  | 2%nat => Some "Family"
  | 3%nat => Some "Class"
  | 4%nat => Some "Brick"
  | _ => None
  end.

Definition levelNames : list string := ["Segment"; "Family"; "Class"; "Brick"].

(** The value of the variable [uid] of a row, when the row is not
    skipped. *)
Definition uidOfRow (row : obj) : option string :=
  let uidValue := prop row "UID*" in
  if isNullish uidValue then None
  else
    let uid := Str.trim (toStr uidValue) in
    if bool_decide (uid = "") then None else Some uid.

(** The main unit id: the given one, or one made from the item id. *)
Definition mainUnitUid (uid : string) (row : obj) (given : value) : value :=
  if nonBlank given then given
  else
    let unitName := prop row "Unit" in
    if truthy unitName && negb (bool_decide (Str.trim (toStr unitName) = ""))
    then VStr (uid +:+ "_" +:+ Str.trim (toStr unitName))
    else VStr (uid +:+ "_01").

Definition masterItemOfRow (uid : string) (row : obj) (main_unit_uid : value)
      : MasterItem.t := {|
    MasterItem.item_uid := uid;
    MasterItem.name := prop row "Product name*";
    MasterItem.manufacturer_uid := prop row "Manufacturer";
    MasterItem.brand_uid := prop row "Brand";
    MasterItem.is_fractional :=
      if truthy (prop row "Is fractional?") then parseIntOr0 (prop row "Is fractional?")
      else Fin 0 0;
    MasterItem.additional_1 := prop row "Segment Description";
    MasterItem.additional_2 := prop row "Family Description";
    MasterItem.additional_3 := prop row "Class Description";
    MasterItem.additional_4 := prop row "Brick Description";
    MasterItem.main_unit_uid := main_unit_uid;
    MasterItem.erp_category_uid := prop row "Brick Code"
  |}.

Definition dimensionOfRow (uid : string) (row : obj) (main_unit_uid : value)
      : Dimension.t := {|
    Dimension.item_uid := uid;
    Dimension.unit_name := prop row "Unit";
    Dimension.width := Num.orZero (parseDecimal "" (prop row "Width"));
    Dimension.height := Num.orZero (parseDecimal "" (prop row "Height"));
    Dimension.depth := Num.orZero (parseDecimal "" (prop row "Length"));
    Dimension.netweight := numOrNull (parseDecimal "" (prop row "Netweight"));
    Dimension.volume := numOrNull (parseDecimal "" (prop row "Volume"));
    Dimension.dimension_uid := main_unit_uid;
    Dimension.coef := Fin 1 0;
    Dimension.is_deleted := Fin 0 0
  |}.

(** One level of the category loop of the first format. *)
Definition categoryStepV1 (row : obj) (seen : list (string * Category.t))
    (level : nat * string) : list (string * Category.t) :=
  let '(index, levelName) := level in
  let uidCol := levelName +:+ " Code" in
  let nameCol := levelName +:+ " Description" in
  let catUid := prop row uidCol in
  if truthy catUid && negb (JsMap.has seen (toStr catUid)) then
    let parentLevelName := if (0 <? index)%nat then levelMapping index else None in
    let parentUidCol := (λ n, n +:+ " Code") <$> parentLevelName in
    JsMap.set seen (toStr catUid)
      {| Category.erp_category_uid := catUid;
         Category.name := prop row nameCol;
         Category.parent_category_uid :=
           match parentUidCol with
           | Some col => prop row col
           | None => VNull
           end |}
  else seen.

(** The body of the loop over the rows. *)
Definition itemMasterStep (st : ItemMasterState) (row : obj) : ItemMasterState :=
  match uidOfRow row with
  | None => st
  | Some uid =>
      let main_unit_uid := mainUnitUid uid row (prop row "Main Unit UID") in
      let fresh := negb (bool_decide (uid ∈ seenUids st)) in
      {| masteritemsData :=
           if fresh then masteritemsData st ++ [masterItemOfRow uid row main_unit_uid]
           else masteritemsData st;
         seenUids := if fresh then {[uid]} ∪ seenUids st else seenUids st;
         barcodesData :=
           if truthy (prop row "Barcode")
           then barcodesData st ++
                [ {| Barcode.item_uid := uid; Barcode.barcode := prop row "Barcode";
                     Barcode.is_main := Fin 1 0 |} ]
           else barcodesData st;
         seenBrands :=
           if truthy (prop row "Brand") then setAdd (seenBrands st) (toStr (prop row "Brand"))
           else seenBrands st;
         dimensionsData :=
           if truthy (prop row "Unit")
           then dimensionsData st ++ [dimensionOfRow uid row main_unit_uid]
           else dimensionsData st;
         seenErpCategories :=
           fold_left (categoryStepV1 row) (imap pair levelNames) (seenErpCategories st);
         seenManufacturers :=
           if truthy (prop row "Manufacturer")
           then setAdd (seenManufacturers st) (toStr (prop row "Manufacturer"))
           else seenManufacturers st |}
  end.

Definition itemMasterOf (df_template : list obj) : ItemMasterState :=
  fold_left itemMasterStep df_template emptyItemMasterState.

Definition masteritemsColumns : list string :=
  ["item_uid"; "name"; "manufacturer_uid"; "brand_uid"; "is_fractional";
   "additional_1"; "additional_2"; "additional_3"; "additional_4";
   "main_unit_uid"; "erp_category_uid"].

Definition partyOfName (n : string) : Party.t :=
  {| Party.uid := VStr n; Party.name := VStr n; Party.is_deleted := Fin 0 0 |}.

(** A side table: pushed when its option is on (the default) and it is
    not empty. *)
Definition sideTable (options : gmap string bool) (table : string)
    (data : list obj) (columns : list string) : list CsvFile :=
  if option_on options table && negb (bool_decide (data = []))
  then [ {| name := csvName table; content := arrayToCsv data columns |} ]
  else [].

Definition processItemMasterFile (wb : workbook) (sheetName : string)
    (options : gmap string bool) : list StatusUpdate * result (list CsvFile) :=
  let start := say processing
    ("Processing Masteritems file from sheet " +:+ quoted sheetName +:+ "...") in
  match openSheet wb sheetName (keywords ITEM_MASTER)
          "Could not find header row in Masteritems file." with
  | Throw msg => ([start], Throw msg)
  | Ok (rawData, headerRowIndex) =>
      let headers := headersOf (default [] (rawData !! headerRowIndex)) in
      let dataRows := fromDataStart (drop (S headerRowIndex) rawData) in
      let df_template := rowObjectOf headers <$> dataRows in
      let st := itemMasterOf df_template in
      match masteritemsData st with
      | [] =>
          ([start; say success
              "No valid item data found in Masteritems file, skipping CSV generation."],
           Ok [])
      | _ =>
          ([start; say success "Masteritems processing complete."],
           Ok ([ {| name := csvName "masteritems";
                    content := arrayToCsv (MasterItem.toObj <$> masteritemsData st)
                                 masteritemsColumns |} ]
               ++ sideTable options "barcodes" (Barcode.toObj <$> barcodesData st)
                    ["item_uid"; "barcode"; "is_main"]
               ++ sideTable options "brands"
                    (Party.toObj "brand_uid" ∘ partyOfName <$> seenBrands st)
                    ["brand_uid"; "name"; "is_deleted"]
               ++ sideTable options "dimensions" (Dimension.toObj <$> dimensionsData st)
                    ["item_uid"; "unit_name"; "width"; "height"; "depth"; "netweight";
                     "volume"; "dimension_uid"; "coef"; "is_deleted"]
               ++ sideTable options "erpcategories"
                    (Category.toObj <$> JsMap.values (seenErpCategories st))
                    ["erp_category_uid"; "name"; "parent_category_uid"]
               ++ sideTable options "manufacturers"
                    (Party.toObj "manufacturer_uid" ∘ partyOfName <$> seenManufacturers st)
                    ["manufacturer_uid"; "name"; "is_deleted"]))
      end
  end.

(** *** Item master, second format *)

Definition notNull (v : value) : bool :=
  match v with VNull => false | _ => true end.

(** The identity of a brand, a manufacturer or a category level: the UID
    column when it is populated, else the name column, else null. *)
Definition effectiveUid (uidValue nameValue : value) : value :=
  if nonBlank uidValue then uidValue
  else if nonBlank nameValue then nameValue
  else VNull.

Definition catUidCol (level : nat) : string :=
  "Category level " +:+ Num.showInt (Z.of_nat level) +:+ " UID".

Definition catNameCol (level : nat) : string :=
  "Category level " +:+ Num.showInt (Z.of_nat level).

(** A descending loop with [break]: the first populated column. *)
Definition firstPopulated (row : obj) (cols : list string) : value :=
  default VNull (head (List.filter nonBlank (prop row <$> cols))).

(** The category of the item: the deepest populated UID column, else the
    deepest populated name column. *)
Definition itemCategory (row : obj) : value :=
  let byUid := firstPopulated row (catUidCol <$> [6; 5; 4; 3; 2; 1]%nat) in
  if notNull byUid then byUid
  else firstPopulated row (catNameCol <$> [6; 5; 4; 3; 2; 1]%nat).

(** [Add 2], [Add 3], [Add 4] and [Add 7] pass through; the others are
    parsed as numbers. *)
Definition additionalOf (row : obj) (i : nat) : value :=
  let v := prop row ("Add " +:+ Num.showInt (Z.of_nat i)) in
  if bool_decide (i ∈ [2; 3; 4; 7]%nat) then v
  else numOrNull (Num.parseFloat (Str.replaceFirst Str.comma Str.dot (toStr v))).

Definition masterItemV2OfRow (row : obj) (main_unit_uid : value) : MasterItemV2.t := {|
    MasterItemV2.item_uid := toStr (prop row "UID*");
    MasterItemV2.name := prop row "Product name*";
    MasterItemV2.manufacturer_uid :=
      effectiveUid (prop row "Manufacturer UID") (prop row "Manufacturer");
    MasterItemV2.brand_uid := effectiveUid (prop row "Brand UID") (prop row "Brand");
    MasterItemV2.is_fractional := parseIntOr0 (prop row "Is fractional?");
    MasterItemV2.main_unit_uid := main_unit_uid;
    MasterItemV2.is_deleted := parseIntOr0 (prop row "To delete");
    MasterItemV2.additional := additionalOf row <$> seq 1 20;
    MasterItemV2.erp_category_uid := itemCategory row
  |}.

(** The registration of a brand or a manufacturer: the first row of a
    key wins. *)
Definition registerParty (m : list (string * Party.t)) (effective nameValue : value)
    : list (string * Party.t) :=
  if notNull effective then
    let key := toStr effective in
    if negb (JsMap.has m key)
    then JsMap.set m key {| Party.uid := effective;
                            Party.name := orElse nameValue effective;
                            Party.is_deleted := Fin 0 0 |}
    else m
  else m.

(** One level of the category loop: the map and the variable
    [previousLevelEffectiveUid]. *)
Definition categoryStepV2 (row : obj) (st : list (string * Category.t) * value)
    (level : nat) : list (string * Category.t) * value :=
  let '(erpCategoriesMap, previousLevelEffectiveUid) := st in
  let currentUidValue := prop row (catUidCol level) in
  let currentNameValue := prop row (catNameCol level) in
  let currentLevelEffectiveUid := effectiveUid currentUidValue currentNameValue in
  if notNull currentLevelEffectiveUid then
    let key := toStr currentLevelEffectiveUid in
    let replace :=
      match JsMap.get erpCategoriesMap key with
      | None => true
      | Some existingEntry =>
          negb (notNull (Category.name existingEntry)) && notNull currentNameValue
      end in
    (if replace
     then JsMap.set erpCategoriesMap key
            {| Category.erp_category_uid := currentLevelEffectiveUid;
               Category.name := currentNameValue;
               Category.parent_category_uid := previousLevelEffectiveUid |}
     else erpCategoriesMap,
     currentLevelEffectiveUid)
  else st.

Definition registerCategories (row : obj) (erpCategoriesMap : list (string * Category.t))
    : list (string * Category.t) :=
  (fold_left (categoryStepV2 row) [1; 2; 3; 4; 5; 6]%nat (erpCategoriesMap, VNull)).1.

Record ItemMasterV2State := {
    masteritemsDataV2 : list MasterItemV2.t;
    barcodesDataV2 : list Barcode.t;
    dimensionsDataV2 : list DimensionV2.t;
    brandsMap : list (string * Party.t);
    manufacturersMap : list (string * Party.t);
    erpCategoriesMap : list (string * Category.t)
  }.

Definition emptyItemMasterV2State : ItemMasterV2State := {|
    masteritemsDataV2 := []; barcodesDataV2 := []; dimensionsDataV2 := [];
    brandsMap := []; manufacturersMap := []; erpCategoriesMap := []
  |}.

(** The body of the loop over the rows. *)
Definition itemMasterV2Step (st : ItemMasterV2State) (row : obj) : ItemMasterV2State :=
  let item_uid := toStr (prop row "UID*") in
  let main_unit_uid :=
    mainUnitUid item_uid row (orElse (prop row "Main Unit UID") (prop row "Main unit UID")) in
  {| masteritemsDataV2 := masteritemsDataV2 st ++ [masterItemV2OfRow row main_unit_uid];
     barcodesDataV2 :=
       if truthy (prop row "Barcode")
       then barcodesDataV2 st ++
            [ {| Barcode.item_uid := item_uid; Barcode.barcode := prop row "Barcode";
                 Barcode.is_main := Fin 1 0 |} ]
       else barcodesDataV2 st;
     brandsMap :=
       registerParty (brandsMap st)
         (effectiveUid (prop row "Brand UID") (prop row "Brand")) (prop row "Brand");
     dimensionsDataV2 :=
       if truthy (prop row "Unit")
       then dimensionsDataV2 st ++
            [ {| DimensionV2.item_uid := item_uid;
                 DimensionV2.unit_name := prop row "Unit";
                 DimensionV2.width := numOrNull (parseDecimal "" (prop row "Width (cm, in)"));
                 DimensionV2.height := numOrNull (parseDecimal "" (prop row "Height (cm, in)"));
                 DimensionV2.depth := numOrNull (parseDecimal "" (prop row "Depth (cm, in)"));
                 DimensionV2.coef := Fin 1 0;
                 DimensionV2.is_deleted := Fin 0 0;
                 DimensionV2.dimension_uid := main_unit_uid |} ]
       else dimensionsDataV2 st;
     erpCategoriesMap := registerCategories row (erpCategoriesMap st);
     manufacturersMap :=
       registerParty (manufacturersMap st)
         (effectiveUid (prop row "Manufacturer UID") (prop row "Manufacturer"))
         (prop row "Manufacturer") |}.

(** The rows that pass the filter on the primary id. *)
Definition templateV2 (rows : list obj) : list obj :=
  List.filter (λ row, nonBlank (prop row "UID*")) rows.

Definition itemMasterV2Of (df_template : list obj) : ItemMasterV2State :=
  fold_left itemMasterV2Step df_template emptyItemMasterV2State.

Definition masteritems_cols : list string :=
  ["item_uid"; "name"; "manufacturer_uid"; "brand_uid"; "is_fractional";
   "additional_1"; "additional_2"; "additional_3"; "additional_4"; "additional_5";
   "additional_6"; "additional_7"; "additional_8"; "additional_9"; "additional_10";
   "additional_11"; "additional_12"; "additional_13"; "additional_14"; "additional_15";
   "additional_16"; "additional_17"; "additional_18"; "additional_19"; "additional_20";
   "main_unit_uid"; "erp_category_uid"; "is_deleted"].

Definition processItemMasterV2File (wb : workbook) (sheetName : string)
    (options : gmap string bool) : list StatusUpdate * result (list CsvFile) :=
  let start := say processing
    ("Processing new Masteritems file from sheet " +:+ quoted sheetName +:+ "...") in
  match openSheet wb sheetName (keywords ITEM_MASTER_V2)
          "Could not find header row in the new Masteritems file." with
  | Throw msg => ([start], Throw msg)
  | Ok (rawData, headerRowIndex) =>
      let headers := headersOf (default [] (rawData !! headerRowIndex)) in
      let dataRows := drop (S headerRowIndex) rawData in
      let df_template := templateV2 (rowObjectOf headers <$> dataRows) in
      match df_template with
      | [] =>
          ([start; say success
              "No valid item data found in new Masteritems file, skipping CSV generation."],
           Ok [])
      | _ =>
          let st := itemMasterV2Of df_template in
          ([start; say success "New Masteritems processing complete."],
           Ok ([ {| name := csvName "masteritems";
                    content := arrayToCsv (MasterItemV2.toObj <$> masteritemsDataV2 st)
                                 masteritems_cols |} ]
               ++ sideTable options "barcodes" (Barcode.toObj <$> barcodesDataV2 st)
                    ["item_uid"; "barcode"; "is_main"]
               ++ sideTable options "brands"
                    (Party.toObj "brand_uid" <$> JsMap.values (brandsMap st))
                    ["brand_uid"; "name"; "is_deleted"]
               ++ sideTable options "dimensions" (DimensionV2.toObj <$> dimensionsDataV2 st)
                    ["item_uid"; "unit_name"; "width"; "height"; "depth"; "coef";
                     "is_deleted"; "dimension_uid"]
               ++ sideTable options "erpcategories"
                    (Category.toObj <$> JsMap.values (erpCategoriesMap st))
                    ["erp_category_uid"; "name"; "parent_category_uid"]
               ++ sideTable options "manufacturers"
                    (Party.toObj "manufacturer_uid" <$> JsMap.values (manufacturersMap st))
                    ["manufacturer_uid"; "name"; "is_deleted"]))
      end
  end.

(** *** The dispatcher *)

Definition typeName (t : FileType) : string :=
  match t with
  | ITEM_MASTER => "ITEM_MASTER"
  | ITEM_MASTER_V2 => "ITEM_MASTER_V2"
  | FACTS => "FACTS"
  | STORE_ITEMS => "STORE_ITEMS"
  | STORE => "STORE"
  | STOCK => "STOCK"
  | PRICE => "PRICE"
  | UNKNOWN => "UNKNOWN"
  end.

Definition notImplemented (t : FileType) : string :=
  "Processing for " +:+ quoted (typeName t) +:+ " files is not yet implemented.".

(** The [switch] on the detected type. *)
Definition dispatch (wb : workbook) (detectedType : FileType) (sheetName : string)
    (options : gmap string bool) : list StatusUpdate * result (list CsvFile) :=
  match detectedType with
  | STORE => processStoresFile wb sheetName
  | STORE_ITEMS => processStoreItemsFile wb sheetName options
  | ITEM_MASTER => processItemMasterFile wb sheetName options
  | ITEM_MASTER_V2 => processItemMasterV2File wb sheetName options
  | FACTS => processFactsFile wb sheetName
  | STOCK | PRICE => ([], Throw (notImplemented detectedType))
  | UNKNOWN => ([], Ok [])
  end.

(** The dispatcher, from the workbook the reader returned: the status
    events sent, and the produced files with the detected type or the
    error thrown. *)
Definition generateCsvsFromExcel (wb : workbook) (options : gmap string bool)
    : list StatusUpdate * result (list CsvFile * FileType) :=
  let start := say processing "Reading and analyzing Excel file..." in
  let '(detectedType, sheetName) := detectFileType wb in
  let sheetName' := default "" sheetName in
  if bool_decide (detectedType = UNKNOWN) || bool_decide (sheetName' = "") then
    ([start], Throw "Unknown file type. The file does not match any known templates.")
  else
    let '(events, outcome) := dispatch wb detectedType sheetName' options in
    (start :: events,
     match outcome with
     | Ok csvFiles => Ok (csvFiles, detectedType)
     | Throw msg => Throw msg
     end).

(** *** The serializer, in the words of the specification *)

Definition hasCommaOrQuote (s : string) : bool :=
  Str.mem Str.comma s || Str.mem Str.dquote s.

Definition quoteField (s : string) : string :=
  String Str.dquote (Str.doubleQuotes s +:+ Str.chr Str.dquote).

(** The text of a field before any quoting: null and missing values
    collapse to the empty string, other values are stringified. *)
Definition fieldText (v : value) : string :=
  match v with
  | VNull | VUndef => ""
  | _ => toStr v
  end.

Definition renderField (v : value) : string :=
  match v with
  | VNull | VUndef => ""
  | _ => if hasCommaOrQuote (toStr v) then quoteField (toStr v) else toStr v
  end.

Fixpoint commaJoined (fields : list string) : string :=
  match fields with
  | [] => ""
  | [f] => f
  | f :: rest => f +:+ String Str.comma (commaJoined rest)
  end.

Definition renderRecord (columns : list string) (row : obj) : string :=
  commaJoined ((λ col, renderField (prop row col)) <$> columns).

(** The header line, then one line per record. *)
Fixpoint renderRecords (columns : list string) (data : list obj) : string :=
  match data with
  | [] => ""
  | [row] => renderRecord columns row
  | row :: rest =>
      renderRecord columns row +:+ String Str.newline (renderRecords columns rest)
  end.

Definition csvSpec (data : list obj) (columns : list string) : string :=
  commaJoined columns +:+ String Str.newline (renderRecords columns data).

(** The field values a reader is expected to give back. *)
Definition fieldTexts (data : list obj) (columns : list string) : list (list string) :=
  (λ row, (λ col, fieldText (prop row col)) <$> columns) <$> data.

(** A field survives the round trip when it has no line feed or is
    quoted. *)
Definition fieldSafe (s : string) : bool :=
  negb (Str.mem Str.newline s) || hasCommaOrQuote s.


(** *** The numeric fields, in the words of the specification *)

(** A price or a measure: an empty cell reads as 0, the first comma is
    the decimal separator, and a failed parse or a zero gives null. *)
Definition decimalOrNull (cell : value) : value :=
  let text := if truthy cell then toStr cell else "0" in
  match Num.parseFloat (Str.replaceFirst Str.comma Str.dot text) with
  | NaN => VNull
  | Inf neg => VNum (Inf neg)
  | Fin m e => if m =? 0 then VNull else VNum (Fin m e)
  end.

(** A quantity or a flag: a failed parse gives 0. *)
Definition integerOrZero (cell : value) : number :=
  match Num.parseInt (toStr cell) with
  | NaN => Fin 0 0
  | n => n
  end.

(** A store-items row is kept when both ids are present. *)
Definition qualifies (rowObject : obj) : bool :=
  truthy (prop rowObject "Store UID*") && truthy (prop rowObject "Product UID*").

(** Null, or a number that is neither zero nor NaN. *)
Definition nullOrNonZero (v : value) : bool :=
  match v with
  | VNull => true
  | VNum n => negb (Num.isZero n) && negb (Num.isNaN n)
  | _ => false
  end.

(** *** The date of a fact, in the words of the specification *)

(** The text of a year, a month (0 to 11) and a day: the year as it is,
    the month and the day on two digits. *)
Definition ymdText (ymd : Z * Z * Z) : string :=
  Num.showInt ymd.1.1 +:+ "-" +:+ Str.pad2 (Num.showInt (ymd.1.2 + 1)) +:+ "-" +:+
  Str.pad2 (Num.showInt ymd.2).








(** *** First occurrences *)

(** The first element of each key, in the order of the first
    occurrences; an element without a key is skipped. *)
Fixpoint firstByKey {A} (key : A → option string) (l : list A) : list (string * A) :=
  match l with
  | [] => []
  | x :: rest =>
      match key x with
      | None => firstByKey key rest
      | Some k => (k, x) :: filter (λ p, p.1 ≠ k) (firstByKey key rest)
      end
  end.

(** *** The item records of the first format, in the words of the
    specification *)

Definition masterItemOfBearer (p : string * obj) : MasterItem.t :=
  masterItemOfRow p.1 p.2 (mainUnitUid p.1 p.2 (prop p.2 "Main Unit UID")).


(** *** Brands of the second format, in the words of the specification *)




Definition mainUnitV2 (row : obj) : value :=
  mainUnitUid (toStr (prop row "UID*")) row
    (orElse (prop row "Main Unit UID") (prop row "Main unit UID")).

(** *** Category levels of the second format, in the words of the
    specification *)

(** The resolved id of a level of a row: UID first, else name. *)
Definition effectiveAt (row : obj) (level : nat) : value :=
  effectiveUid (prop row (catUidCol level)) (prop row (catNameCol level)).

(** The resolved id of the nearest populated level below [level], null
    when there is none. *)
Fixpoint precedingPopulated (row : obj) (level : nat) : value :=
  match level with
  | O => VNull
  | S below =>
      match below with
      | O => VNull
      | S _ =>
          if notNull (effectiveAt row below) then effectiveAt row below
          else precedingPopulated row below
      end
  end.

(** The node a row registers for a level. *)
Definition nodeAt (row : obj) (level : nat) : Category.t :=
  {| Category.erp_category_uid := effectiveAt row level;
     Category.name := prop row (catNameCol level);
     Category.parent_category_uid := precedingPopulated row level |}.

(** The category loop over the levels 1 to [n]. *)
Definition categoryLoop (row : obj) (n : nat) (st : list (string * Category.t) * value)
    : list (string * Category.t) * value :=
  fold_left (categoryStepV2 row) (seq 1 n) st.

(** *** Detection, in the words of the specification *)

(** The test of a row: the cells joined by a bar contain every keyword. *)
Definition containsAll (kws : list string) (row : list value) : bool :=
  forallb (λ kw, Str.includes (joinCells "|" row) kw) kws.






(** *** The calendar, one cycle of 400 years at a time *)

(** The year of the cycle, the month (1 to 12) and the day of a day of the
    cycle, as [JsDate.civilFromDays] computes them. *)
Definition civilOfDoe (doe : Z) : Z * Z * Z :=
  let yoe := (doe - doe / 1460 + doe / 36524 - doe / 146096) / 365 in
  let doy := doe - (365 * yoe + yoe / 4 - yoe / 100) in
  let mp := (5 * doy + 2) / 153 in
  let d := doy - (153 * mp + 2) / 5 + 1 in
  let m := if mp <? 10 then mp + 3 else mp - 9 in
  (yoe, m, d).

(** The day of the cycle of a year of the cycle, a month and a day, as
    [JsDate.makeDay] computes it. *)
Definition doeOfCivil (yoe m day : Z) : Z :=
  let mp := if 2 <? m then m - 3 else m + 9 in
  let doy := (153 * mp + 2) / 5 + day - 1 in
  yoe * 365 + yoe / 4 - yoe / 100 + doy.

Definition cycleOk (doe : Z) : bool :=
  let '(yoe, m, d) := civilOfDoe doe in
  (0 <=? yoe) && (yoe <? 400) && (1 <=? m) && (m <=? 12) && (1 <=? d) && (d <=? 31)
  && (doeOfCivil yoe m d =? doe).

(** [p] holds on [fuel] consecutive integers from [z] on. *)
Fixpoint allFrom (fuel : nat) (z : Z) (p : Z → bool) : bool :=
  match fuel with
  | O => true
  | S fuel' => if p z then allFrom fuel' (z + 1) p else false
  end.

(** *** Columns of a row object *)

(** The index, counted from [index], of the last header equal to [h]. *)
Fixpoint lastColumn (headers : list string) (index : nat) (h : string) : option nat :=
  match headers with
  | [] => None
  | header :: rest =>
      match lastColumn rest (S index) h with
      | Some i => Some i
      | None => if decide (header = h) then Some index else None
      end
  end.

(** *** Outcomes of the dispatcher *)

(** The messages of the errors the dispatcher can end in. *)
Definition dispatcherErrors : list string :=
  ["Unknown file type. The file does not match any known templates.";
   notImplemented STOCK; notImplemented PRICE;
   "Could not find a valid header row in the Stores sheet.";
   "Could not find a valid header row in the Items sheet.";
   "Could not find a valid header row in the Facts sheet.";
   "Could not find header row in Masteritems file.";
   "Could not find header row in the new Masteritems file."].

(** The types that have a processor. *)
Definition processedTypes : list FileType :=
  [STORE; STORE_ITEMS; ITEM_MASTER; ITEM_MASTER_V2; FACTS].

(** The tables a file of a type can give, the main table first. *)
Definition tablesOf (t : FileType) : list string :=
  match t with
  | STORE => ["stores"]
  | STORE_ITEMS => ["items"; "suppliers"]
  | FACTS => ["facts"]
  | ITEM_MASTER | ITEM_MASTER_V2 =>
      ["masteritems"; "barcodes"; "brands"; "dimensions"; "erpcategories"; "manufacturers"]
  | STOCK | PRICE | UNKNOWN => []
  end.

(** The tables an option can switch off, and those an option record does
    switch off: an option counts as on unless it is present and false. *)
Definition optionalTables : list string :=
  ["barcodes"; "brands"; "dimensions"; "erpcategories"; "manufacturers"; "suppliers"].

Definition switchedOff (options : gmap string bool) : list string :=
  List.filter (λ k, negb (option_on options k)) optionalTables.

Definition keptBy (options : gmap string bool) (f : CsvFile) : bool :=
  negb (bool_decide (name f ∈ csvName <$> switchedOff options)).

(** *** Suppliers of the store items *)

(** The key under which a row registers its supplier, when it does. *)
Definition supplierKey (rowObject : obj) : option string :=
  if qualifies rowObject && truthy (prop rowObject "Supplier UID")
  then Some (toStr (prop rowObject "Supplier UID")) else None.

Definition supplierOfRow (rowObject : obj) : Supplier.t :=
  {| Supplier.supplier_uid := prop rowObject "Supplier UID";
     Supplier.name := prop rowObject "Supplier";
     Supplier.is_deleted := Fin 0 0 |}.

(** *** Registration under a key

    The pattern of the side tables that are maps: an element with a key
    is entered when its key is not in the map yet. *)
Definition register {A V} (key : A → option string) (mk : A → V)
    (m : list (string * V)) (x : A) : list (string * V) :=
  match key x with
  | Some k => if JsMap.has m k then m else m ++ [(k, mk x)]
  | None => m
  end.

Definition entryOf {A V} (mk : A → V) (p : string * A) : string * V := (p.1, mk p.2).

(** *** Consistency of the tables of the first item-master format *)

(** The parent a category of a level is registered with: the code of the
    level before in the same row, null at the first level. *)
Definition parentCodeV1 (row : obj) (index : nat) : value :=
  match (if (0 <? index)%nat then levelMapping index else None) with
  | Some parentLevelName => prop row (parentLevelName +:+ " Code")
  | None => VNull
  end.

(** A category map whose entries sit under the string form of their own
    id, which is present, and whose parents are registered when present.
    A value is present when it passes the test the format puts on a code:
    truthy in the first format, not null in the second. *)
Definition categoriesClosed (present : value → bool)
    (cats : list (string * Category.t)) : Prop :=
  NoDup cats.*1
  ∧ ∀ k e, (k, e) ∈ cats →
      k = toStr (Category.erp_category_uid e)
      ∧ present (Category.erp_category_uid e) = true
      ∧ (present (Category.parent_category_uid e) = true →
         toStr (Category.parent_category_uid e) ∈ cats.*1).

Record consistentV1 (st : ItemMasterState) : Prop := {
    seen_are_items :
      ∀ uid, uid ∈ seenUids st → uid ∈ MasterItem.item_uid <$> masteritemsData st;
    barcodes_refer :
      ∀ b, b ∈ barcodesData st →
        Barcode.item_uid b ∈ MasterItem.item_uid <$> masteritemsData st;
    dimensions_refer :
      ∀ d, d ∈ dimensionsData st →
        Dimension.item_uid d ∈ MasterItem.item_uid <$> masteritemsData st;
    brands_resolve :
      ∀ item, item ∈ masteritemsData st → truthy (MasterItem.brand_uid item) = true →
        toStr (MasterItem.brand_uid item) ∈ seenBrands st;
    manufacturers_resolve :
      ∀ item, item ∈ masteritemsData st →
        truthy (MasterItem.manufacturer_uid item) = true →
        toStr (MasterItem.manufacturer_uid item) ∈ seenManufacturers st;
    categories_resolve :
      ∀ item, item ∈ masteritemsData st →
        truthy (MasterItem.erp_category_uid item) = true →
        toStr (MasterItem.erp_category_uid item) ∈ (seenErpCategories st).*1;
    brands_distinct : NoDup (seenBrands st);
    manufacturers_distinct : NoDup (seenManufacturers st);
    categories_closed : categoriesClosed truthy (seenErpCategories st)
  }.

(** *** The tables of the first item-master format, in the words of the
    specification *)










(** *** Brands and manufacturers of the second item-master format *)

(** The key under which a row registers its brand or manufacturer. *)
Definition partyKey (uidCol nameCol : string) (row : obj) : option string :=
  let effective := effectiveUid (prop row uidCol) (prop row nameCol) in
  if notNull effective then Some (toStr effective) else None.

Definition partyOfRow (uidCol nameCol : string) (row : obj) : Party.t :=
  let effective := effectiveUid (prop row uidCol) (prop row nameCol) in
  {| Party.uid := effective;
     Party.name := orElse (prop row nameCol) effective;
     Party.is_deleted := Fin 0 0 |}.

Definition barcodeV2OfRow (row : obj) : Barcode.t :=
  {| Barcode.item_uid := toStr (prop row "UID*"); Barcode.barcode := prop row "Barcode";
     Barcode.is_main := Fin 1 0 |}.

Definition dimensionV2OfRow (row : obj) : DimensionV2.t :=
  {| DimensionV2.item_uid := toStr (prop row "UID*");
     DimensionV2.unit_name := prop row "Unit";
     DimensionV2.width := numOrNull (parseDecimal "" (prop row "Width (cm, in)"));
     DimensionV2.height := numOrNull (parseDecimal "" (prop row "Height (cm, in)"));
     DimensionV2.depth := numOrNull (parseDecimal "" (prop row "Depth (cm, in)"));
     DimensionV2.coef := Fin 1 0;
     DimensionV2.is_deleted := Fin 0 0;
     DimensionV2.dimension_uid := mainUnitV2 row |}.

(** *** The status events *)

(** The closing messages of a processor that found no data row. *)
Definition skipMessages : list string :=
  ["No valid data rows found in Stores file, skipping CSV generation.";
   "No valid data rows found in Items file, skipping CSV generation.";
   "No valid data rows found in Facts file, skipping CSV generation.";
   "No valid item data found in Masteritems file, skipping CSV generation.";
   "No valid item data found in new Masteritems file, skipping CSV generation."].

(** *** The options of the application *)

(** The object [CsvOptionsConfig]: the options offered for a file type;
    [None] when the type is not a key of the object. *)
Definition CsvOptionsConfig (t : FileType) : option (list string) :=
  match t with
  | ITEM_MASTER | ITEM_MASTER_V2 =>
      Some ["barcodes"; "brands"; "dimensions"; "erpcategories"; "manufacturers"]
  | STORE_ITEMS => Some ["suppliers"]
  | _ => None
  end.

(** The state update of [handleCsvOptionChange]. *)
Definition handleCsvOptionChange (prev : gmap string bool) (opt : string)
    : gmap string bool :=
  <[opt := negb (default true (prev !! opt))]> prev.

(** *** The application

    The component [App] keeps its state in React state variables; each
    handler is modelled as the function from the state before it to the
    state after all of its updates have been applied, in the order the
    handler queues them.  A selected file is known by its name and by what
    the reader [XLSX.read] makes of its bytes: a workbook, or the error it
    throws.  The archive library is a parameter of [handleProcess]: from
    the files added to the archive, the object URL of the archive or the
    error thrown while making it. *)

Record File := { fileName : string; workbookOf : result workbook }.

(** The dispatcher on a file: the reading event is sent before the file
    is read. *)
Definition generateCsvsFromFile (f : File) (options : gmap string bool)
    : list StatusUpdate * result (list CsvFile * FileType) :=
  match workbookOf f with
  | Ok wb => generateCsvsFromExcel wb options
  | Throw msg => ([say processing "Reading and analyzing Excel file..."], Throw msg)
  end.

(** The type ['idle' | 'processing' | 'success' | 'error']. *)
Inductive ProcessingState := stateIdle | stateProcessing | stateSuccess | stateError.

(** The type ['pending' | 'processing' | 'success' | 'error'] of the
    status of a file. *)
Inductive FileStatus := filePending | fileProcessing | fileSuccess | fileError.

Global Instance FileStatus_eq_dec : EqDecision FileStatus.
Proof. solve_decision. Defined.

Global Instance Status_eq_dec : EqDecision Status.
Proof. solve_decision. Defined.

Record FileInfo := {
    file : File;
    type : FileType;
    fileStatus : FileStatus;
    fileErrorMessage : option string
  }.

Record LogEntry := { logMessage : string; logStatus : Status; fileIndex : Z }.

Record AppState := {
    fileInfos : list FileInfo;
    archiveName : string;
    processingState : ProcessingState;
    statusUpdates : list LogEntry;
    errorMessage : string;
    zipUrl : option string;
    zipFileName : string;
    csvOptions : gmap string bool
  }.

(** [s.endsWith(t)]. *)
Fixpoint endsWith (s t : string) : bool :=
  if String.eqb s t then true
  else match s with
       | "" => false
       | String _ s' => endsWith s' t
       end.

(** The state after [resetState]; the release of the object URL of
    the old archive has no effect on the state. *)
Definition resetState (s : AppState) : AppState :=
  {| fileInfos := fileInfos s;
     archiveName := archiveName s;
     processingState := stateIdle;
     statusUpdates := [];
     errorMessage := "";
     zipUrl := None;
     zipFileName := zipFileName s;
     csvOptions := ∅ |}.

(** The entry of a file after the detection phase: the dispatcher is run
    with an empty callback and no options; an error leaves the type UNKNOWN
    and, when its message is not empty, marks the file. *)
Definition detected (f : File) : FileInfo :=
  match (generateCsvsFromFile f ∅).2 with
  | Ok (_, detectedType) =>
      {| file := f; type := detectedType; fileStatus := filePending;
         fileErrorMessage := None |}
  | Throw msg =>
      {| file := f; type := UNKNOWN;
         fileStatus := if bool_decide (msg = "") then filePending else fileError;
         fileErrorMessage := if bool_decide (msg = "") then None else Some msg |}
  end.

Definition handleFilesChange (fileList : option (list File)) (s : AppState) : AppState :=
  match fileList with
  | None => s
  | Some fileList =>
      let validFiles :=
        List.filter (λ f, endsWith (fileName f) ".xlsx" || endsWith (fileName f) ".xls")
          fileList in
      let s0 := resetState s in
      match validFiles with
      | [] =>
          {| fileInfos := [];
             archiveName := archiveName s0;
             processingState := stateError;
             statusUpdates := statusUpdates s0;
             errorMessage :=
               "No valid Excel files (.xlsx, .xls) found in the selected directory.";
             zipUrl := zipUrl s0;
             zipFileName := zipFileName s0;
             csvOptions := csvOptions s0 |}
      | _ =>
          {| fileInfos := detected <$> validFiles;
             archiveName := archiveName s0;
             processingState := processingState s0;
             statusUpdates := statusUpdates s0;
             errorMessage := errorMessage s0;
             zipUrl := zipUrl s0;
             zipFileName := zipFileName s0;
             csvOptions := csvOptions s0 |}
      end
  end.

(** The variables of the loop of [handleProcess], with the two state
    variables the loop updates. *)
Record Run := {
    logs : list LogEntry;
    infos : list FileInfo;
    allGeneratedCsvs : list CsvFile;
    hasProcessedAnyFile : bool;
    localErrorMessages : string
  }.

Definition withStatus (st : FileStatus) (err : option string) (f : FileInfo) : FileInfo :=
  {| file := file f; type := type f; fileStatus := st;
     fileErrorMessage := match err with Some _ => err | None => fileErrorMessage f end |}.

(** [prev.map(log => (log.fileIndex === i && log.status === 'processing')
    ? { ...log, status } : log)]. *)
Definition settle (i : Z) (st : Status) (l : list LogEntry) : list LogEntry :=
  (λ log, if bool_decide (fileIndex log = i) && bool_decide (logStatus log = processing)
          then {| logMessage := logMessage log; logStatus := st;
                  fileIndex := fileIndex log |}
          else log) <$> l.

(** The callback handed to the dispatcher. *)
Definition logged (info : FileInfo) (i : Z) (u : StatusUpdate) : LogEntry :=
  {| logMessage := "[" +:+ fileName (file info) +:+ "] " +:+ message u;
     logStatus := status u; fileIndex := i |}.

Definition invalidFile (info : FileInfo) : bool :=
  bool_decide (type info = UNKNOWN) || bool_decide (fileStatus info = fileError).

(** One turn of the loop, for the file at index [i]. *)
Definition processFileAt (options : gmap string bool) (run : Run) (i : nat)
    (info : FileInfo) : Run :=
  if invalidFile info then
    {| logs := logs run ++
               [ {| logMessage := "Skipping invalid file: " +:+ fileName (file info);
                    logStatus := error; fileIndex := Z.of_nat i |} ];
       infos := infos run;
       allGeneratedCsvs := allGeneratedCsvs run;
       hasProcessedAnyFile := hasProcessedAnyFile run;
       localErrorMessages := localErrorMessages run |}
  else
    let started := alter (withStatus fileProcessing None) i (infos run) in
    let '(events, outcome) := generateCsvsFromFile (file info) options in
    let sent := logs run ++ (logged info (Z.of_nat i) <$> events) in
    match outcome with
    | Ok (csvFiles, _) =>
        {| logs := settle (Z.of_nat i) success sent;
           infos := alter (withStatus fileSuccess None) i started;
           allGeneratedCsvs := allGeneratedCsvs run ++ csvFiles;
           hasProcessedAnyFile := true;
           localErrorMessages := localErrorMessages run |}
    | Throw msg =>
        {| logs := settle (Z.of_nat i) error
                     (sent ++
                      [ {| logMessage := "Failed to process " +:+ fileName (file info)
                                         +:+ ": " +:+ msg;
                           logStatus := error; fileIndex := Z.of_nat i |} ]);
           infos := alter (withStatus fileError (Some msg)) i started;
           allGeneratedCsvs := allGeneratedCsvs run;
           hasProcessedAnyFile := hasProcessedAnyFile run;
           localErrorMessages :=
             localErrorMessages run +:+ "Error in " +:+ fileName (file info) +:+ ": "
             +:+ msg +:+ Str.chr Str.newline |}
    end.

(** The loop over the files, from index [i]. *)
Fixpoint processFiles (options : gmap string bool) (i : nat) (l : list FileInfo)
    (run : Run) : Run :=
  match l with
  | [] => run
  | info :: rest => processFiles options (S i) rest (processFileAt options run i info)
  end.

Definition finalZipName (archiveName : string) : string :=
  (if bool_decide (Str.trim archiveName = "") then "data_export" else Str.trim archiveName)
  +:+ "_" +:+ getTodayDateString +:+ ".zip".

Definition handleProcess (bundle : list CsvFile → result string) (s : AppState)
    : AppState :=
  match fileInfos s with
  | [] => s
  | _ =>
      let run := processFiles (csvOptions s) 0 (fileInfos s)
                   {| logs := []; infos := fileInfos s; allGeneratedCsvs := [];
                      hasProcessedAnyFile := false; localErrorMessages := "" |} in
      let trimmed := Str.trim (localErrorMessages run) in
      let noErrors := bool_decide (localErrorMessages run = "") in
      match allGeneratedCsvs run with
      | _ :: _ =>
          match bundle (allGeneratedCsvs run) with
          | Ok url =>
              {| fileInfos := infos run;
                 archiveName := archiveName s;
                 processingState := stateSuccess;
                 statusUpdates :=
                   logs run ++
                   [ {| logMessage :=
                          "All valid files processed and bundled into a ZIP archive.";
                        logStatus := success; fileIndex := -1 |} ];
                 errorMessage := trimmed;
                 zipUrl := Some url;
                 zipFileName := finalZipName (archiveName s);
                 csvOptions := csvOptions s |}
          | Throw msg =>
              {| fileInfos := infos run;
                 archiveName := archiveName s;
                 processingState := stateError;
                 statusUpdates := logs run;
                 errorMessage :=
                   if bool_decide (trimmed = "") then msg
                   else trimmed +:+ Str.chr Str.newline +:+ msg;
                 zipUrl := None;
                 zipFileName := zipFileName s;
                 csvOptions := csvOptions s |}
          end
      | [] =>
          if hasProcessedAnyFile run && noErrors then
            {| fileInfos := infos run;
               archiveName := archiveName s;
               processingState := stateSuccess;
               statusUpdates :=
                 logs run ++
                 [ {| logMessage :=
                        "Processing complete. All valid files were processed but contained no data to export.";
                      logStatus := success; fileIndex := -1 |} ];
               errorMessage := trimmed;
               zipUrl := None;
               zipFileName := zipFileName s;
               csvOptions := csvOptions s |}
          else
            {| fileInfos := infos run;
               archiveName := archiveName s;
               processingState := stateError;
               statusUpdates := logs run;
               errorMessage :=
                 if noErrors then "No valid files were processed successfully."
                 else trimmed;
               zipUrl := None;
               zipFileName := zipFileName s;
               csvOptions := csvOptions s |}
      end
  end.

(** [fileInfos.some(f => f.type !== 'UNKNOWN' && f.status !== 'error')]. *)
Definition hasValidFiles (l : list FileInfo) : bool :=
  existsb (λ f, negb (bool_decide (type f = UNKNOWN))
                && negb (bool_decide (fileStatus f = fileError))) l.

(** The options shown: those of the types of the files, each once, in
    the order of their first occurrence. *)
Definition uniqueOptions (l : list FileInfo) : list string :=
  fold_left setAdd
    (flat_map (λ t, default [] (CsvOptionsConfig t))
       (List.filter (λ t, bool_decide (is_Some (CsvOptionsConfig t))) (type <$> l)))
    [].

(** The entry of a file after the loop of [handleProcess], when its run
    returns: a file that is skipped is left as it is. *)
Definition settledInfo (info : FileInfo) : FileInfo :=
  if invalidFile info then info else withStatus fileSuccess None info.

(** The state setter [setCsvOptions] with a functional update. *)
Definition setCsvOptions (f : gmap string bool → gmap string bool) (s : AppState)
    : AppState :=
  {| fileInfos := fileInfos s;
     archiveName := archiveName s;
     processingState := processingState s;
     statusUpdates := statusUpdates s;
     errorMessage := errorMessage s;
     zipUrl := zipUrl s;
     zipFileName := zipFileName s;
     csvOptions := f (csvOptions s) |}.

(** A log entry that is settled, of a file below [n] or of the batch. *)
Definition settledLog (n : nat) (log : LogEntry) : Prop :=
  logStatus log ≠ processing ∧ (-1 ≤ fileIndex log < Z.of_nat n)%Z.

(** *** The columns of the tables *)

(** The column list a processor hands to the serializer for a table. *)
Definition columnsOf (t : FileType) (table : string) : list string :=
  if decide (table = "stores") then storesColumns
  else if decide (table = "items") then itemsColumns
  else if decide (table = "suppliers") then ["supplier_uid"; "name"; "is_deleted"]
  else if decide (table = "facts") then factsColumns
  else if decide (table = "masteritems") then
    (if decide (t = ITEM_MASTER) then masteritemsColumns else masteritems_cols)
  else if decide (table = "barcodes") then ["item_uid"; "barcode"; "is_main"]
  else if decide (table = "brands") then ["brand_uid"; "name"; "is_deleted"]
  else if decide (table = "dimensions") then
    (if decide (t = ITEM_MASTER)
     then ["item_uid"; "unit_name"; "width"; "height"; "depth"; "netweight";
           "volume"; "dimension_uid"; "coef"; "is_deleted"]
     else ["item_uid"; "unit_name"; "width"; "height"; "depth"; "coef";
           "is_deleted"; "dimension_uid"])
  else if decide (table = "erpcategories")
       then ["erp_category_uid"; "name"; "parent_category_uid"]
  else if decide (table = "manufacturers") then ["manufacturer_uid"; "name"; "is_deleted"]
  else [].

(** A file that serializes a table of the type with at least one
    record. *)
Definition writtenTable (t : FileType) (f : CsvFile) : Prop :=
  ∃ table data,
    table ∈ tablesOf t ∧ name f = csvName table ∧ data ≠ []
    ∧ content f = arrayToCsv data (columnsOf t table).

(** The state of the component when it is mounted. *)
Definition initialState : AppState :=
  {| fileInfos := []; archiveName := "data_export"; processingState := stateIdle;
     statusUpdates := []; errorMessage := ""; zipUrl := None; zipFileName := "";
     csvOptions := ∅ |}.

(** The errors left to a run when the reader keeps the text cells. *)
Definition typeErrors : list string :=
  ["Unknown file type. The file does not match any known templates.";
   notImplemented STOCK; notImplemented PRICE].

(** ** Facts about strings *)

Lemma str_app_cons a s t : String a s +:+ t = String a (s +:+ t).
Proof. reflexivity. Qed.

Lemma str_app_empty_r s : s +:+ "" = s.
Proof. induction s as [|a s IH]; [reflexivity|]. by rewrite str_app_cons, IH. Qed.

Lemma str_app_assoc s t u : (s +:+ t) +:+ u = s +:+ (t +:+ u).
Proof. induction s as [|a s IH]; [reflexivity|]. by rewrite !str_app_cons, IH. Qed.

Lemma mem_app c s t : Str.mem c (s +:+ t) = Str.mem c s || Str.mem c t.
Proof.
  induction s as [|a s IH]; [reflexivity|].
  rewrite str_app_cons. simpl. rewrite IH. by rewrite orb_assoc.
Qed.

Lemma startsWith_chr s c :
  Str.startsWith s (Str.chr c) = match s with String a _ => Ascii.eqb c a | "" => false end.
Proof. destruct s as [|a s]; [reflexivity|]. simpl. by rewrite andb_true_r. Qed.

Lemma includes_chr s c : Str.includes s (Str.chr c) = Str.mem c s.
Proof.
  induction s as [|a s IH]; [reflexivity|].
  cbn [Str.includes Str.mem]. rewrite startsWith_chr, IH.
  by rewrite (Ascii.eqb_sym c a).
Qed.

Lemma join_comma l : Str.join "," l = commaJoined l.
Proof.
  induction l as [|x l IH]; [reflexivity|].
  destruct l as [|y l]; [reflexivity|].
  change (Str.join "," (x :: y :: l)) with (x +:+ "," +:+ Str.join "," (y :: l)).
  rewrite IH. reflexivity.
Qed.

(** ** The serializer *)

Lemma csvField_renderField v : csvField v = renderField v.
Proof.
  unfold csvField, renderField, hasCommaOrQuote, quoteField.
  destruct v; simpl; try reflexivity;
    rewrite !includes_chr;
    change (Str.includes ?s ",") with (Str.includes s (Str.chr Str.comma));
    rewrite ?includes_chr, (orb_comm (Str.mem Str.dquote _));
    by destruct (_ || _).
Qed.

Lemma csvLine_renderRecord columns row : csvLine columns row = renderRecord columns row.
Proof.
  unfold csvLine, renderRecord. rewrite join_comma. f_equal.
  apply list_fmap_ext. intros _ col _. apply csvField_renderField.
Qed.

Lemma join_lines columns data :
  Str.join (Str.chr Str.newline) (csvLine columns <$> data) = renderRecords columns data.
Proof.
  induction data as [|row data IH]; [reflexivity|].
  destruct data as [|row' data]; [apply csvLine_renderRecord|].
  change (Str.join ?sep (csvLine columns <$> row :: row' :: data))
    with (csvLine columns row +:+ sep +:+ Str.join sep (csvLine columns <$> row' :: data)).
  rewrite IH, csvLine_renderRecord. reflexivity.
Qed.

Lemma arrayToCsv_csvSpec data columns : arrayToCsv data columns = csvSpec data columns.
Proof.
  unfold arrayToCsv, csvSpec. rewrite join_lines, join_comma.
  by rewrite str_app_assoc.
Qed.

Lemma quoteField_has_quote s : Str.mem Str.dquote (quoteField s) = true.
Proof. reflexivity. Qed.

Lemma renderRecord_ext columns row row' :
  (∀ col, col ∈ columns → prop row col = prop row' col) →
  renderRecord columns row = renderRecord columns row'.
Proof.
  intros H. unfold renderRecord. f_equal.
  apply list_fmap_ext. intros i col Hi. f_equal. apply H.
  by eapply list_elem_of_lookup_2.
Qed.

(** C7. The serializer emits the header line, then one comma-joined line
    per record in the given column order; a null or missing value is
    rendered as the empty string; any other value is rendered as its
    string form, wrapped in quotes with the inner quotes doubled if and
    only if that string form contains a comma or a quote; the text
    depends on the listed columns only. *)
Theorem arrayToCsv_serializes data columns :
  arrayToCsv data columns = csvSpec data columns
  ∧ (∀ v, csvField v = renderField v)
  ∧ (∀ v, isNullish v = false →
       (renderField v = quoteField (toStr v) ↔ hasCommaOrQuote (toStr v) = true)
       ∧ (renderField v = toStr v ↔ hasCommaOrQuote (toStr v) = false))
  ∧ (∀ data',
       Forall2 (λ row row', ∀ col, col ∈ columns → prop row col = prop row' col) data data' →
       arrayToCsv data columns = arrayToCsv data' columns).
Proof.
  split; [apply arrayToCsv_csvSpec|]. split; [apply csvField_renderField|]. split.
  - intros v Hv.
    assert (renderField v = if hasCommaOrQuote (toStr v) then quoteField (toStr v) else toStr v) as ->
      by (by destruct v).
    destruct (hasCommaOrQuote (toStr v)) eqn:E.
    + split; [done|]. split; [|done]. intros Heq. exfalso.
      pose proof (quoteField_has_quote (toStr v)) as Hq. rewrite Heq in Hq.
      unfold hasCommaOrQuote in E.
      (* the string form would be its own quoted form: compare lengths *)
      clear -Heq. assert (String.length (quoteField (toStr v)) = String.length (toStr v)) as Hl by (by rewrite Heq).
      revert Hl. unfold quoteField. generalize (toStr v). intros s Hl.
      assert (∀ t, String.length t ≤ String.length (Str.doubleQuotes t +:+ Str.chr Str.dquote))%nat as Hle.
      { induction t as [|a t IH]; simpl; [lia|].
        destruct (Ascii.eqb a Str.dquote); rewrite ?str_app_cons; simpl; lia. }
      specialize (Hle s). simpl in Hl. lia.
    + split; [|done]. split; [|done]. intros Heq. exfalso.
      pose proof (quoteField_has_quote (toStr v)) as Hq. rewrite <- Heq in Hq.
      unfold hasCommaOrQuote in E. rewrite Hq, orb_true_r in E. done.
  - intros data' H. rewrite !arrayToCsv_csvSpec. unfold csvSpec. do 2 f_equal.
    induction H as [|row row' data data' Hr H IH]; [reflexivity|].
    destruct H as [|r2 r2' d2 d2' Hr2 H2].
    + simpl. by apply renderRecord_ext.
    + change (renderRecord columns row +:+ String Str.newline (renderRecords columns (r2 :: d2))
              = renderRecord columns row' +:+ String Str.newline (renderRecords columns (r2' :: d2'))).
      rewrite IH. f_equal. by apply renderRecord_ext.
Qed.

(** ** The round trip through the reader *)

Lemma stripPrefix_app p r : CsvReader.stripPrefix p (p +:+ r) = Some r.
Proof.
  induction p as [|a p IH]; [reflexivity|].
  rewrite str_app_cons. simpl. by rewrite Ascii.eqb_refl.
Qed.

Lemma addChar_app cur c s : CsvReader.addChar cur c +:+ s = cur +:+ String c s.
Proof. unfold CsvReader.addChar, Str.chr. by rewrite str_app_assoc. Qed.

Lemma scan_bare s : ∀ cur fs rs rest,
  Str.mem Str.comma s = false → Str.mem Str.newline s = false →
  CsvReader.scan CsvReader.Bare cur fs rs (s +:+ rest)
  = CsvReader.scan CsvReader.Bare (cur +:+ s) fs rs rest.
Proof.
  induction s as [|a s IH]; intros cur fs rs rest Hc Hn.
  { by rewrite str_app_empty_r. }
  simpl in Hc, Hn. apply orb_false_elim in Hc as [Hc Hc'].
  apply orb_false_elim in Hn as [Hn Hn'].
  rewrite str_app_cons. simpl. unfold CsvReader.outside. rewrite Hc, Hn.
  rewrite IH by done. by rewrite addChar_app.
Qed.

Lemma scan_quoted s : ∀ cur fs rs rest,
  CsvReader.scan CsvReader.Quoted cur fs rs
    (Str.doubleQuotes s +:+ String Str.dquote rest)
  = CsvReader.scan CsvReader.QuoteSeen (cur +:+ s) fs rs rest.
Proof.
  induction s as [|a s IH]; intros cur fs rs rest.
  { simpl. by rewrite str_app_empty_r. }
  simpl. destruct (Ascii.eqb a Str.dquote) eqn:E.
  - apply Ascii.eqb_eq in E as ->. rewrite !str_app_cons. simpl.
    rewrite IH. by rewrite addChar_app.
  - rewrite str_app_cons. simpl. rewrite E. rewrite IH. by rewrite addChar_app.
Qed.

Lemma scan_field v fs rs :
  fieldSafe (fieldText v) = true →
  ∃ m, CsvReader.closing m = true ∧
    ∀ rest, CsvReader.scan CsvReader.FieldStart "" fs rs (renderField v +:+ rest)
            = CsvReader.scan m (fieldText v) fs rs rest.
Proof.
  intros Hsafe.
  destruct (isNullish v) eqn:Hn.
  { exists CsvReader.FieldStart. split; [done|]. intros rest. by destruct v. }
  assert (fieldText v = toStr v) as Ht by (by destruct v).
  assert (renderField v = if hasCommaOrQuote (toStr v) then quoteField (toStr v) else toStr v)
    as Hr by (by destruct v).
  rewrite Ht in *. rewrite Hr. clear Hr Ht Hn.
  generalize dependent (toStr v). intros s Hsafe.
  destruct (hasCommaOrQuote s) eqn:E.
  - exists CsvReader.QuoteSeen. split; [done|]. intros rest.
    unfold quoteField, Str.chr. rewrite str_app_cons, str_app_assoc.
    simpl. apply (scan_quoted s "").
  - unfold fieldSafe in Hsafe. rewrite E, orb_false_r in Hsafe.
    apply negb_true_iff in Hsafe.
    unfold hasCommaOrQuote in E. apply orb_false_elim in E as [Hc Hq].
    destruct s as [|a s].
    { exists CsvReader.FieldStart. by split. }
    exists CsvReader.Bare. split; [done|]. intros rest.
    simpl in Hc, Hq, Hsafe.
    apply orb_false_elim in Hc as [Hc Hc']. apply orb_false_elim in Hq as [Hq Hq'].
    apply orb_false_elim in Hsafe as [Hn Hn'].
    rewrite str_app_cons. simpl. rewrite Hq. unfold CsvReader.outside. rewrite Hc, Hn.
    by rewrite scan_bare.
Qed.

Lemma scan_comma m cur fs rs rest :
  CsvReader.closing m = true →
  CsvReader.scan m cur fs rs (String Str.comma rest)
  = CsvReader.scan CsvReader.FieldStart "" (fs ++ [cur]) rs rest.
Proof. by destruct m. Qed.

Lemma scan_newline m cur fs rs rest :
  CsvReader.closing m = true →
  CsvReader.scan m cur fs rs (String Str.newline rest)
  = CsvReader.scan CsvReader.FieldStart "" [] (rs ++ [fs ++ [cur]]) rest.
Proof. by destruct m. Qed.

Lemma scan_record (vs : list value) : ∀ fs rs,
  vs ≠ [] →
  Forall (λ v, fieldSafe (fieldText v) = true) vs →
  ∃ m cur fs', CsvReader.closing m = true ∧ fs' ++ [cur] = fs ++ (fieldText <$> vs) ∧
    ∀ rest, CsvReader.scan CsvReader.FieldStart "" fs rs
              (commaJoined (renderField <$> vs) +:+ rest)
            = CsvReader.scan m cur fs' rs rest.
Proof.
  induction vs as [|v vs IH]; intros fs rs Hne Hsafe; [done|].
  apply Forall_cons in Hsafe as [Hv Hvs].
  destruct (scan_field v fs rs Hv) as (m & Hm & Hscan).
  destruct vs as [|v' vs].
  { exists m, (fieldText v), fs. split; [done|]. split; [done|]. apply Hscan. }
  destruct (IH (fs ++ [fieldText v]) rs) as (m' & cur & fs' & Hm' & Hfs & Hscan'); [done..|].
  exists m', cur, fs'. split; [done|]. split.
  { rewrite Hfs. by rewrite <- app_assoc. }
  intros rest.
  change (commaJoined (renderField <$> v :: v' :: vs))
    with (renderField v +:+ String Str.comma (commaJoined (renderField <$> v' :: vs))).
  rewrite str_app_assoc, Hscan, str_app_cons, scan_comma by done. apply Hscan'.
Qed.

Lemma scan_records columns data : ∀ rs,
  columns ≠ [] → data ≠ [] →
  Forall (λ row, Forall (λ col, fieldSafe (fieldText (prop row col)) = true) columns) data →
  CsvReader.scan CsvReader.FieldStart "" [] rs (renderRecords columns data)
  = rs ++ fieldTexts data columns.
Proof.
  induction data as [|row data IH]; intros rs Hc Hne Hsafe; [done|].
  apply Forall_cons in Hsafe as [Hrow Hdata].
  destruct (scan_record (prop row <$> columns) [] rs) as (m & cur & fs' & Hm & Hfs & Hscan).
  { by destruct columns. }
  { by apply Forall_fmap. }
  rewrite <- !list_fmap_compose in Hfs.
  assert (renderRecord columns row = commaJoined (renderField <$> (prop row <$> columns))) as Hrec.
  { unfold renderRecord. by rewrite <- list_fmap_compose. }
  destruct data as [|row' data].
  - simpl. rewrite Hrec, <- (str_app_empty_r (commaJoined _)), Hscan. simpl.
    by rewrite Hfs.
  - change (renderRecords columns (row :: row' :: data))
      with (renderRecord columns row +:+ String Str.newline (renderRecords columns (row' :: data))).
    rewrite Hrec, Hscan, scan_newline by done. rewrite IH by done.
    rewrite Hfs. simpl. by rewrite <- app_assoc.
Qed.

Lemma renderRecords_nonempty columns data :
  (2 ≤ length columns)%nat → data ≠ [] → renderRecords columns data ≠ "".
Proof.
  intros Hc Hd. destruct data as [|row data]; [done|].
  destruct columns as [|c1 [|c2 columns]]; simpl in Hc; [lia..|].
  assert (∀ t, renderRecord (c1 :: c2 :: columns) row +:+ t ≠ "") as H.
  { intros t. unfold renderRecord.
    change (commaJoined ((λ col, renderField (prop row col)) <$> c1 :: c2 :: columns))
      with (renderField (prop row c1) +:+
            String Str.comma (commaJoined ((λ col, renderField (prop row col)) <$> c2 :: columns))).
    rewrite str_app_assoc. by destruct (renderField (prop row c1)). }
  destruct data as [|row' data].
  - specialize (H ""). by rewrite str_app_empty_r in H.
  - apply H.
Qed.

Lemma parseCsv_arrayToCsv data columns :
  (2 ≤ length columns)%nat →
  Forall (λ row, Forall (λ col, fieldSafe (fieldText (prop row col)) = true) columns) data →
  CsvReader.parseCsv columns (arrayToCsv data columns) = Some (fieldTexts data columns).
Proof.
  intros Hc Hsafe. unfold CsvReader.parseCsv, arrayToCsv.
  rewrite stripPrefix_app, join_lines.
  destruct data as [|row data]; [reflexivity|].
  pose proof (renderRecords_nonempty columns (row :: data) Hc) as Hne.
  destruct (renderRecords columns (row :: data)) eqn:E; [by exfalso; apply Hne|].
  rewrite <- E. f_equal. rewrite scan_records; [done| |done|done].
  destruct columns; simpl in Hc; [lia|done].
Qed.

(** C8, as amended.  For a column order of at least two columns, when
    every field that contains a line feed also contains a comma or a
    quote, reading the serialized table back under the same column order
    gives the field values of the records, null and missing values
    collapsed to the empty string and other values in their string form;
    hence two such tables with the same serialized text have the same
    field values. *)
Theorem csv_round_trip data columns :
  (2 ≤ length columns)%nat →
  Forall (λ row, Forall (λ col, fieldSafe (fieldText (prop row col)) = true) columns) data →
  CsvReader.parseCsv columns (arrayToCsv data columns) = Some (fieldTexts data columns)
  ∧ ∀ data',
      Forall (λ row, Forall (λ col, fieldSafe (fieldText (prop row col)) = true) columns)
        data' →
      arrayToCsv data' columns = arrayToCsv data columns →
      fieldTexts data' columns = fieldTexts data columns.
Proof.
  intros Hc Hsafe. split; [by apply parseCsv_arrayToCsv|].
  intros data' Hsafe' Heq.
  pose proof (parseCsv_arrayToCsv data' columns Hc Hsafe') as H'.
  rewrite Heq, (parseCsv_arrayToCsv data columns Hc Hsafe) in H'. congruence.
Qed.

(** ** Numeric fields *)

Lemma strip_nonzero fuel : ∀ m e m' e',
  m ≠ 0 → Num.strip fuel m e = (m', e') → m' ≠ 0.
Proof.
  induction fuel as [|fuel IH]; intros m e m' e' Hm; simpl.
  - by intros [= <- <-].
  - destruct (m mod 10 =? 0) eqn:Hmod; [|by intros [= <- <-]].
    apply IH. apply Z.eqb_eq in Hmod. intros Hd.
    apply Hm. rewrite (Z.div_mod m 10) by lia. lia.
Qed.

Lemma mk_isZero m e : Num.isZero (Num.mk m e) = true → Num.mk m e = Fin 0 0.
Proof.
  unfold Num.mk. destruct (m =? 0) eqn:Hm0; [done|].
  destruct (Num.overflows m e); [done|].
  destruct (Num.underflows m e); [done|].
  destruct (Num.strip _ m e) as [m' e'] eqn:E. simpl. intros H.
  apply Z.eqb_eq in H as ->. apply Z.eqb_neq in Hm0.
  exfalso. by eapply strip_nonzero.
Qed.

Lemma numOrNull_decimalOrNull cell :
  numOrNull (parseDecimal "0" cell) = decimalOrNull cell.
Proof.
  unfold numOrNull, parseDecimal, decimalOrNull, orElse.
  replace (toStr (if truthy cell then cell else VStr "0"))
    with (if truthy cell then toStr cell else "0") by (by destruct (truthy cell)).
  destruct (Num.parseFloat _) as [|neg|m e]; try done.
  unfold Num.truthy. simpl. by destruct (m =? 0).
Qed.

Lemma parseIntOr0_integerOrZero cell : parseIntOr0 cell = integerOrZero cell.
Proof.
  unfold parseIntOr0, integerOrZero, Num.orZero, Num.parseInt.
  destruct (Num.readSign _) as [neg s]. destruct (Str.digits 0 0 s) as [[v cnt] r].
  destruct cnt as [|cnt]; [done|].
  destruct (Num.isZero (Num.mk (if neg then - v else v) 0)) eqn:E.
  - rewrite (mk_isZero _ _ E). done.
  - unfold Num.truthy. rewrite E.
    by destruct (Num.mk (if neg then - v else v) 0).
Qed.

Lemma decimalOrNull_nullOrNonZero cell : nullOrNonZero (decimalOrNull cell) = true.
Proof.
  unfold decimalOrNull. destruct (Num.parseFloat _) as [|neg|m e]; try done.
  destruct (m =? 0) eqn:E; [done|]. simpl. by rewrite E.
Qed.

Lemma storeItemsOf_fold rows : ∀ itemsData suppliersMap,
  (fold_left storeItemsStep rows (itemsData, suppliersMap)).1
  = itemsData ++ (storeItemOfRow <$> List.filter qualifies rows).
Proof.
  induction rows as [|row rows IH]; intros itemsData suppliersMap; simpl.
  { by rewrite app_nil_r. }
  unfold qualifies at 1.
  destruct (truthy (prop row "Store UID*") && truthy (prop row "Product UID*")) eqn:E.
  - destruct (JsMap.set suppliersMap _ _); rewrite ?IH; simpl; by rewrite <- ?app_assoc.
  - apply IH.
Qed.

(** C4. The item records of a store-items sheet are those of the rows
  that have both a store id and an item id; in each, the two prices are
  the cell read with an empty cell taken as 0 and the comma as decimal
  separator, null when the parse fails or gives zero, and never the
  number zero; the flag is_active_planogram is the integer read from its
  cell, 0 when the parse fails, and never null.  The cell 12,50 gives
  the price 12.5 and an empty cell gives null. *)
Theorem store_items_prices :
  (∀ rows, (storeItemsOf rows).1 = storeItemOfRow <$> List.filter qualifies rows)
  ∧ (∀ row,
       StoreItem.purchase_price (storeItemOfRow row) = decimalOrNull (prop row "Purchase price")
       ∧ StoreItem.retail_price (storeItemOfRow row) = decimalOrNull (prop row "Sale price")
       ∧ StoreItem.is_active_planogram (storeItemOfRow row)
         = integerOrZero (prop row "In assortment?"))
  ∧ (∀ cell, nullOrNonZero (decimalOrNull cell) = true)
  ∧ (∀ cell, Num.isNaN (integerOrZero cell) = false)
  ∧ decimalOrNull (VStr "12,50") = VNum (Fin 125 (-1))
  ∧ decimalOrNull (VStr "") = VNull
  ∧ decimalOrNull VNull = VNull
  ∧ decimalOrNull VUndef = VNull
  ∧ decimalOrNull (VStr "0,00") = VNull
  ∧ decimalOrNull (VStr "n/a") = VNull
  ∧ integerOrZero (VStr "n/a") = Fin 0 0
  ∧ integerOrZero VNull = Fin 0 0.
Proof.
  split. { intros rows. apply (storeItemsOf_fold rows [] []). }
  split.
  { intros row. simpl. rewrite !numOrNull_decimalOrNull, parseIntOr0_integerOrZero. done. }
  split; [apply decimalOrNull_nullOrNonZero|].
  split.
  { intros cell. unfold integerOrZero. by destruct (Num.parseInt _). }
  repeat split; reflexivity.
Qed.

(** C10. Every measure of every emitted fact record is null or a number
  that is neither zero nor NaN: a cell that parses to zero gives null,
  as a cell that does not parse does. *)
Theorem facts_measures_never_zero :
  (∀ rows,
     Forall (λ r, nullOrNonZero (Fact.stock r) = true
                  ∧ nullOrNonZero (Fact.sold_qty r) = true
                  ∧ nullOrNonZero (Fact.revenue r) = true
                  ∧ nullOrNonZero (Fact.cogs r) = true) (factsOf rows))
  ∧ (∀ row,
       Fact.stock (factOfRow row) = decimalOrNull (prop row "Stock")
       ∧ Fact.sold_qty (factOfRow row) = decimalOrNull (prop row "Out sale")
       ∧ Fact.revenue (factOfRow row) = decimalOrNull (prop row "Revenue")
       ∧ Fact.cogs (factOfRow row) = decimalOrNull (prop row "COGS"))
  ∧ (∀ cell,
       decimalOrNull cell = VNull
       ↔ Num.isZero (parseDecimal "0" cell) || Num.isNaN (parseDecimal "0" cell) = true)
  ∧ decimalOrNull (VStr "0") = VNull
  ∧ decimalOrNull (VNum (Fin 0 0)) = VNull
  ∧ decimalOrNull (VStr "0,0") = VNull
  ∧ decimalOrNull (VStr "none") = VNull.
Proof.
  assert (∀ row,
       Fact.stock (factOfRow row) = decimalOrNull (prop row "Stock")
       ∧ Fact.sold_qty (factOfRow row) = decimalOrNull (prop row "Out sale")
       ∧ Fact.revenue (factOfRow row) = decimalOrNull (prop row "Revenue")
       ∧ Fact.cogs (factOfRow row) = decimalOrNull (prop row "COGS")) as Hrow.
  { intros row. simpl. by rewrite !numOrNull_decimalOrNull. }
  split.
  { intros rows. unfold factsOf. apply Forall_forall. intros r Hr.
    apply list_elem_of_In, filter_In in Hr as [Hr _].
    apply list_elem_of_In, list_elem_of_fmap in Hr as (row & -> & _).
    destruct (Hrow row) as (-> & -> & -> & ->).
    by rewrite !decimalOrNull_nullOrNonZero. }
  split; [exact Hrow|]. split.
  { intros cell. rewrite <- numOrNull_decimalOrNull. unfold numOrNull, Num.truthy.
    destruct (Num.isNaN _), (Num.isZero _); simpl; split; done. }
  repeat split; reflexivity.
Qed.

(** ** The serial number of a day *)

Lemma strip_value fuel : ∀ m e m' e',
  0 <= e → Num.strip fuel m e = (m', e') → m' * 10 ^ e' = m * 10 ^ e ∧ 0 <= e'.
Proof.
  induction fuel as [|fuel IH]; intros m e m' e' He; simpl.
  - by intros [= <- <-].
  - destruct (m mod 10 =? 0) eqn:Hmod; [|by intros [= <- <-]].
    intros H. apply IH in H as [H ?]; [|lia]. split; [|done].
    apply Z.eqb_eq in Hmod. rewrite H, Z.pow_add_r by lia.
    rewrite (Z.div_mod m 10) at 2 by lia. lia.
Qed.

(** Below 10^30 the normal form keeps the value. *)
Lemma mk_exact m e :
  0 <= e → Z.abs m * 10 ^ e < 10 ^ 30 →
  ∃ m' e', Num.mk m e = Fin m' e' ∧ m' * 10 ^ e' = m * 10 ^ e ∧ 0 <= e'.
Proof.
  intros He Hb. unfold Num.mk.
  destruct (m =? 0) eqn:Hm.
  { apply Z.eqb_eq in Hm as ->. exists 0, 0. repeat split; lia. }
  unfold Num.overflows, Num.underflows, Num.pow10.
  rewrite (proj2 (Z.leb_le 0 e) He).
  assert ((2 ^ 1024 - 2 ^ 970 <=? Z.abs m * 10 ^ e) = false) as ->.
  { apply Z.leb_gt. eapply Z.lt_trans; [exact Hb|reflexivity]. }
  destruct (Num.strip _ m e) as [m' e'] eqn:E.
  exists m', e'. split; [done|]. by eapply strip_value.
Qed.

Lemma serial_milliseconds z :
  Z.abs (z - 25569) <= 100000000 →
  JsDate.ofNumber (Num.mul (Num.mul (Num.sub (Fin z 0) (Fin 25569 0)) (Fin 864 2)) (Fin 1 3))
  = At ((z - 25569) * JsDate.msPerDay).
Proof.
  intros Hz.
  assert (Num.sub (Fin z 0) (Fin 25569 0) = Num.mk (z - 25569) 0) as ->.
  { unfold Num.sub. change (Z.min 0 0) with 0. change (Num.pow10 (0 - 0)) with 1.
    f_equal. lia. }
  destruct (mk_exact (z - 25569) 0) as (m1 & e1 & -> & H1 & He1); [lia|lia|].
  unfold Num.mul at 2.
  destruct (mk_exact (m1 * 864) (e1 + 2)) as (m2 & e2 & -> & H2 & He2); [lia| |].
  { rewrite Z.pow_add_r by lia. rewrite Z.abs_mul.
    assert (Z.abs m1 * 10 ^ e1 = Z.abs (z - 25569)) as Ha.
    { rewrite <- (Z.abs_eq (10 ^ e1)) by (apply Z.pow_nonneg; lia).
      rewrite <- Z.abs_mul. f_equal. lia. }
    change (Z.abs 864) with 864. change (10 ^ 2) with 100.
    change (10 ^ 30) with 1000000000000000000000000000000. nia. }
  assert (m2 * 10 ^ e2 = (z - 25569) * 86400) as V2.
  { rewrite H2, Z.pow_add_r by lia. change (10 ^ 2) with 100. nia. }
  unfold Num.mul.
  destruct (mk_exact (m2 * 1) (e2 + 3)) as (m3 & e3 & -> & H3 & He3); [lia| |].
  { rewrite Z.pow_add_r by lia. rewrite Z.mul_1_r.
    assert (Z.abs m2 * 10 ^ e2 = Z.abs ((z - 25569) * 86400)) as Ha.
    { rewrite <- (Z.abs_eq (10 ^ e2)) by (apply Z.pow_nonneg; lia).
      rewrite <- Z.abs_mul. f_equal. lia. }
    change (10 ^ 3) with 1000.
    change (10 ^ 30) with 1000000000000000000000000000000. nia. }
  assert (m3 * 10 ^ e3 = (z - 25569) * 86400000) as V3.
  { rewrite H3, Z.pow_add_r by lia. change (10 ^ 3) with 1000. nia. }
  unfold JsDate.ofNumber, Num.gt, Num.trunc, Num.pow10, JsDate.msPerDay.
  rewrite (proj2 (Z.leb_le 0 e3) He3), V3, (Z.min_comm 13 e3).
  set (e := Z.min e3 13).
  assert (0 <= e ∧ e <= e3 ∧ e <= 13) as (?&?&?) by (unfold e; lia).
  assert (0 < 10 ^ e) as Hp by (apply Z.pow_pos_nonneg; lia).
  assert (m3 * 10 ^ (e3 - e) * 10 ^ e = (z - 25569) * 86400000) as Hm.
  { rewrite <- Z.mul_assoc, <- Z.pow_add_r by lia. replace (e3 - e + e) with e3 by lia. done. }
  assert (10 ^ (13 - e) * 10 ^ e = 10000000000000) as Hk.
  { rewrite <- Z.pow_add_r by lia. replace (13 - e + e) with 13 by lia. done. }
  assert ((864 * 10 ^ (13 - e) <? m3 * 10 ^ (e3 - e)) = false) as ->.
  { apply Z.ltb_ge. nia. }
  assert ((m3 * 10 ^ (e3 - e) <? -864 * 10 ^ (13 - e)) = false) as ->.
  { apply Z.ltb_ge. nia. }
  done.
Qed.

Lemma excelSerial_days z :
  Z.abs (z - 25569) <= 100000000 →
  excelSerialDateToJSDate (Fin z 0)
  = newLocalDate (Some (JsDate.civilFromDays (z - 25569)).1.1)
                 (Some (JsDate.civilFromDays (z - 25569)).1.2)
                 (Some (JsDate.civilFromDays (z - 25569)).2).
Proof.
  intros Hz. unfold excelSerialDateToJSDate. rewrite serial_milliseconds by done.
  unfold JsDate.getUTCFullYear, JsDate.getUTCMonth, JsDate.getUTCDate, JsDate.fieldsAt.
  by rewrite Z.div_mul by done.
Qed.

(** ** The date of a fact *)

Lemma gt_one_truthy n : Num.gt n (Fin 1 0) = true → Num.truthy n = true.
Proof.
  destruct n as [|neg|m e]; [done|done|].
  unfold Num.gt, Num.truthy. simpl. intros H.
  destruct (m =? 0) eqn:E; [|done].
  apply Z.eqb_eq in E as ->. apply Z.ltb_lt in H. exfalso.
  assert (0 <= Num.pow10 (0 - Z.min e 0)) by (apply Z.pow_nonneg; lia). lia.
Qed.

Lemma formatDate_nonempty d : formatDateToYYYYMMDD d ≠ "".
Proof.
  unfold formatDateToYYYYMMDD. by destruct (JsDate.showField (getFullYear d)).
Qed.


(** ** The dispatcher *)

(** C9. When detection gives STOCK or PRICE, the dispatcher ends in an
    error and produces no file; with the sheet that matched (any sheet
    whose name is not empty) the error is the not yet implemented one. *)
Theorem stock_price_not_implemented wb options t s :
  detectFileType wb = (t, Some s) →
  t = STOCK ∨ t = PRICE →
  (∃ msg, generateCsvsFromExcel wb options
          = ([say processing "Reading and analyzing Excel file..."], Throw msg))
  ∧ (s ≠ "" →
     generateCsvsFromExcel wb options
     = ([say processing "Reading and analyzing Excel file..."], Throw (notImplemented t))).
Proof.
  intros Hdet Ht. unfold generateCsvsFromExcel. rewrite Hdet. simpl.
  destruct (bool_decide (s = "")) eqn:E.
  - rewrite orb_true_r. split; [by eexists|].
    intros Hs. by apply bool_decide_eq_true in E.
  - rewrite orb_false_r.
    assert (bool_decide (t = UNKNOWN) = false) as ->
      by (apply bool_decide_eq_false; by destruct Ht as [-> | ->]).
    destruct Ht as [-> | ->]; simpl; (split; [by eexists|done]).
Qed.

(** ** First occurrences *)

Section FirstByKey.
Context {A : Type} (key : A → option string).

Lemma firstByKey_elem k x l :
  (k, x) ∈ firstByKey key l → key x = Some k ∧ x ∈ l.
Proof.
  induction l as [|y l IH]; simpl; [by intros ?%elem_of_nil|].
  destruct (key y) as [k'|] eqn:E.
  - intros [Heq|Hin]%elem_of_cons.
    + injection Heq as -> ->. split; [done|]. apply elem_of_cons; by left.
    + apply list_elem_of_filter in Hin as [_ Hin].
      destruct (IH Hin) as [? ?]. split; [done|]. apply elem_of_cons; by right.
  - intros Hin. destruct (IH Hin) as [? ?]. split; [done|]. apply elem_of_cons; by right.
Qed.

Lemma firstByKey_keys k l :
  k ∈ (firstByKey key l).*1 ↔ ∃ x, x ∈ l ∧ key x = Some k.
Proof.
  induction l as [|y l IH]; simpl.
  { split; [by intros ?%elem_of_nil|]. by intros (x & ?%elem_of_nil & _). }
  destruct (key y) as [k'|] eqn:E; csimpl.
  - rewrite elem_of_cons. split.
    + intros [->|Hin].
      * exists y. split; [apply elem_of_cons; by left|done].
      * apply list_elem_of_fmap in Hin as ([k2 x] & -> & Hin).
        apply list_elem_of_filter in Hin as [_ Hin].
        apply firstByKey_elem in Hin as [? ?].
        exists x. split; [apply elem_of_cons; by right|done].
    + intros (x & [->|Hin]%elem_of_cons & Hk).
      * left. congruence.
      * destruct (decide (k = k')) as [->|Hne]; [by left|right].
        assert (k ∈ (firstByKey key l).*1) as Hk' by (apply IH; eauto).
        apply list_elem_of_fmap in Hk' as ([k2 x2] & -> & Hin2).
        apply list_elem_of_fmap. exists (k2, x2). split; [done|].
        apply list_elem_of_filter. by split.
  - rewrite IH. split.
    + intros (x & ? & ?). exists x. split; [apply elem_of_cons; by right|done].
    + intros (x & [->|Hin]%elem_of_cons & Hk); [congruence|eauto].
Qed.

Lemma NoDup_keys_filter {B} (P : string * B → Prop) `{!∀ p, Decision (P p)}
    (l : list (string * B)) :
  NoDup l.*1 → NoDup (filter P l).*1.
Proof.
  induction l as [|[k x] l IH]; [done|]. csimpl.
  intros [Hk Hl]%NoDup_cons. rewrite filter_cons.
  destruct (decide (P (k, x))); [|by apply IH]. csimpl.
  apply NoDup_cons. split; [|by apply IH].
  intros Hin. apply Hk.
  apply list_elem_of_fmap in Hin as ([k2 x2] & -> & Hin).
  apply list_elem_of_filter in Hin as [_ Hin].
  apply list_elem_of_fmap. by exists (k2, x2).
Qed.

Lemma firstByKey_NoDup l : NoDup (firstByKey key l).*1.
Proof.
  induction l as [|y l IH]; simpl; [constructor|].
  destruct (key y) as [k|]; [|done]. csimpl.
  apply NoDup_cons. split; [|by apply NoDup_keys_filter].
  intros Hin. apply list_elem_of_fmap in Hin as ([k2 x2] & -> & Hin).
  apply list_elem_of_filter in Hin as [Hne _]. by apply Hne.
Qed.



End FirstByKey.


Lemma get_None {V} (m : list (string * V)) k : JsMap.get m k = None ↔ k ∉ m.*1.
Proof.
  induction m as [|[k' v'] m IH]; csimpl.
  { split; [intros _ ?%elem_of_nil; done|done]. }
  rewrite elem_of_cons. destruct (decide (k' = k)) as [->|Hne].
  - split; [done|]. intros H. exfalso. apply H. by left.
  - rewrite IH. split; [|tauto]. intros H [->|?]; done.
Qed.

Lemma set_absent {V} (m : list (string * V)) k v :
  JsMap.get m k = None → JsMap.set m k v = m ++ [(k, v)].
Proof.
  induction m as [|[k' v'] m IH]; simpl; [done|].
  destruct (decide (k' = k)); [done|]. intros H. by rewrite IH.
Qed.

Lemma get_set {V} (m : list (string * V)) k v k' :
  JsMap.get (JsMap.set m k v) k' = if decide (k = k') then Some v else JsMap.get m k'.
Proof.
  induction m as [|[k2 v2] m IH]; simpl.
  { by destruct (decide (k = k')). }
  destruct (decide (k2 = k)) as [->|Hne]; simpl.
  - by destruct (decide (k = k')).
  - rewrite IH. destruct (decide (k2 = k')) as [->|]; [|done].
    by rewrite decide_False.
Qed.

Lemma has_get {V} (m : list (string * V)) k :
  JsMap.has m k = match JsMap.get m k with Some _ => true | None => false end.
Proof.
  unfold JsMap.has. destruct (JsMap.get m k).
  - by apply bool_decide_eq_true.
  - apply bool_decide_eq_false. by intros [? ?].
Qed.

(** ** Item master, first format: one record per id *)

Lemma itemMasterStep_items st row :
  masteritemsData (itemMasterStep st row)
  = match uidOfRow row with
    | Some uid =>
        if bool_decide (uid ∈ seenUids st) then masteritemsData st
        else masteritemsData st ++ [masterItemOfBearer (uid, row)]
    | None => masteritemsData st
    end.
Proof.
  unfold itemMasterStep. destruct (uidOfRow row) as [uid|]; [|done]. simpl.
  by destruct (bool_decide (uid ∈ seenUids st)).
Qed.

Lemma itemMasterStep_seen st row uid :
  uid ∈ seenUids (itemMasterStep st row)
  ↔ uid ∈ seenUids st ∨ uidOfRow row = Some uid.
Proof.
  unfold itemMasterStep. destruct (uidOfRow row) as [uid'|] eqn:E; simpl.
  - destruct (bool_decide (uid' ∈ seenUids st)) eqn:Hs; simpl.
    + apply bool_decide_eq_true in Hs. split; [by left|].
      intros [?|[= ->]]; done.
    + rewrite elem_of_union, elem_of_singleton. split.
      * intros [->|?]; [by right|by left].
      * intros [?|[= ->]]; [by right|by left].
  - split; [by left|]. by intros [?|?].
Qed.


Lemma itemMaster_fold rows : ∀ st,
  masteritemsData (fold_left itemMasterStep rows st)
  = masteritemsData st
    ++ (masterItemOfBearer <$> filter (λ p, p.1 ∉ seenUids st) (firstByKey uidOfRow rows)).
Proof.
  induction rows as [|row rows IH]; intros st; simpl.
  { by rewrite app_nil_r. }
  rewrite IH, itemMasterStep_items.
  destruct (uidOfRow row) as [uid|] eqn:E.
  - destruct (bool_decide (uid ∈ seenUids st)) eqn:Hs.
    + apply bool_decide_eq_true in Hs.
      rewrite filter_cons_False by (simpl; tauto).
      rewrite list_filter_filter. do 2 f_equal.
      apply list_filter_iff. intros [k x]. simpl.
      rewrite itemMasterStep_seen, E. split.
      * intros H. split; [tauto|]. intros ->. tauto.
      * intros [H1 H2] [?|[= ->]]; done.
    + apply bool_decide_eq_false in Hs.
      rewrite filter_cons_True by done. simpl.
      rewrite <- app_assoc. simpl. do 3 f_equal.
      rewrite list_filter_filter.
      apply list_filter_iff. intros [k x]. simpl.
      rewrite itemMasterStep_seen, E. split.
      * intros H. split; [tauto|]. intros ->. tauto.
      * intros [H1 H2] [?|[= ->]]; done.
  - do 2 f_equal. apply list_filter_iff. intros [k x]. simpl.
    rewrite itemMasterStep_seen, E. split; [tauto|]. by intros H [?|?].
Qed.


Lemma masterItems_firstByKey rows :
  masteritemsData (itemMasterOf rows) = masterItemOfBearer <$> firstByKey uidOfRow rows.
Proof.
  unfold itemMasterOf. rewrite itemMaster_fold. simpl. f_equal.
  induction (firstByKey uidOfRow rows) as [|p l IH]; [done|].
  rewrite filter_cons_True by set_solver. by rewrite IH.
Qed.


(** ** Item master, second format: brands *)

Lemma itemMasterV2_items rows : ∀ st,
  masteritemsDataV2 (fold_left itemMasterV2Step rows st)
  = masteritemsDataV2 st ++ ((λ row, masterItemV2OfRow row (mainUnitV2 row)) <$> rows).
Proof.
  induction rows as [|row rows IH]; intros st; simpl.
  { by rewrite app_nil_r. }
  rewrite IH. simpl. by rewrite <- app_assoc.
Qed.


Lemma itemMasterV2_categories rows : ∀ st,
  erpCategoriesMap (fold_left itemMasterV2Step rows st)
  = fold_left (λ m row, registerCategories row m) rows (erpCategoriesMap st).
Proof. induction rows as [|row rows IH]; intros st; simpl; [done|]. by rewrite IH. Qed.





Lemma nonBlank_notNull v : nonBlank v = true → notNull v = true.
Proof. by destruct v. Qed.


(** ** Item master, second format: the category chain *)

Lemma categoryLoop_S row n st :
  categoryLoop row (S n) st = categoryStepV2 row (categoryLoop row n st) (S n).
Proof. unfold categoryLoop. by rewrite seq_S, fold_left_app. Qed.

Lemma categoryStepV2_prev row m prev level :
  (categoryStepV2 row (m, prev) level).2
  = if notNull (effectiveAt row level) then effectiveAt row level else prev.
Proof.
  unfold categoryStepV2. fold (effectiveAt row level).
  by destruct (notNull (effectiveAt row level)).
Qed.

Lemma categoryStepV2_get row m prev level k :
  JsMap.get (categoryStepV2 row (m, prev) level).1 k
  = if notNull (effectiveAt row level) && bool_decide (toStr (effectiveAt row level) = k)
    then Some match JsMap.get m k with
              | None =>
                  {| Category.erp_category_uid := effectiveAt row level;
                     Category.name := prop row (catNameCol level);
                     Category.parent_category_uid := prev |}
              | Some existing =>
                  if negb (notNull (Category.name existing))
                     && notNull (prop row (catNameCol level))
                  then {| Category.erp_category_uid := effectiveAt row level;
                          Category.name := prop row (catNameCol level);
                          Category.parent_category_uid := prev |}
                  else existing
              end
    else JsMap.get m k.
Proof.
  unfold categoryStepV2. fold (effectiveAt row level).
  destruct (notNull (effectiveAt row level)); [|done]. simpl.
  destruct (bool_decide (toStr (effectiveAt row level) = k)) eqn:E.
  - apply bool_decide_eq_true in E. subst k.
    destruct (JsMap.get m _) as [existing|] eqn:Hg; simpl.
    + destruct (negb (notNull (Category.name existing)) && notNull _); simpl.
      * by rewrite get_set, decide_True.
      * done.
    + by rewrite get_set, decide_True.
  - apply bool_decide_eq_false in E.
    destruct (JsMap.get m (toStr (effectiveAt row level))) as [existing|]; simpl.
    + destruct (negb (notNull (Category.name existing)) && notNull _); simpl; [|done].
      by rewrite get_set, decide_False.
    + by rewrite get_set, decide_False.
Qed.

Lemma categoryLoop_prev row m n :
  (categoryLoop row n (m, VNull)).2 = precedingPopulated row (S n).
Proof.
  induction n as [|n IH]; [done|].
  rewrite categoryLoop_S. destruct (categoryLoop row n (m, VNull)) as [m' prev].
  rewrite categoryStepV2_prev. simpl in IH. subst prev. done.
Qed.

(** Levels with another key leave the entry of a key alone. *)
Lemma categoryLoop_get_other row m k n :
  (∀ other, (1 ≤ other ≤ n)%nat → notNull (effectiveAt row other) = true →
     toStr (effectiveAt row other) ≠ k) →
  JsMap.get (categoryLoop row n (m, VNull)).1 k = JsMap.get m k.
Proof.
  induction n as [|n IH]; intros Hother; [done|].
  rewrite categoryLoop_S. destruct (categoryLoop row n (m, VNull)) as [m' prev] eqn:E.
  rewrite categoryStepV2_get. simpl in IH.
  destruct (notNull (effectiveAt row (S n))) eqn:Hn; simpl.
  - rewrite bool_decide_eq_false_2 by (apply Hother; [lia|done]).
    apply IH. intros other ??. apply Hother; [lia|done].
  - apply IH. intros other ??. apply Hother; [lia|done].
Qed.

Lemma categoryLoop_get_level row m level n :
  (1 ≤ level ≤ n)%nat →
  notNull (effectiveAt row level) = true →
  (∀ other, (1 ≤ other ≤ n)%nat → other ≠ level →
     notNull (effectiveAt row other) = true →
     toStr (effectiveAt row other) ≠ toStr (effectiveAt row level)) →
  JsMap.get (categoryLoop row n (m, VNull)).1 (toStr (effectiveAt row level))
  = Some match JsMap.get m (toStr (effectiveAt row level)) with
         | None => nodeAt row level
         | Some existing =>
             if negb (notNull (Category.name existing))
                && notNull (prop row (catNameCol level))
             then nodeAt row level
             else existing
         end.
Proof.
  induction n as [|n IH]; intros Hl Hpop Honly; [lia|].
  rewrite categoryLoop_S.
  pose proof (categoryLoop_prev row m n) as Hprev.
  destruct (categoryLoop row n (m, VNull)) as [m' prev] eqn:E.
  rewrite categoryStepV2_get. simpl in Hprev, IH.
  destruct (decide (level = S n)) as [->|Hne].
  - rewrite Hpop. rewrite bool_decide_eq_true_2 by done. simpl.
    assert (JsMap.get m' (toStr (effectiveAt row (S n)))
            = JsMap.get m (toStr (effectiveAt row (S n)))) as ->.
    { pose proof (categoryLoop_get_other row m (toStr (effectiveAt row (S n))) n) as H.
      rewrite E in H. apply H. intros other ??. apply Honly; [lia|lia|done]. }
    unfold nodeAt. by rewrite Hprev.
  - assert (notNull (effectiveAt row (S n))
            && bool_decide (toStr (effectiveAt row (S n)) = toStr (effectiveAt row level))
            = false) as ->.
    { destruct (notNull (effectiveAt row (S n))) eqn:Hn; [|done]. simpl.
      apply bool_decide_eq_false. apply Honly; [lia|lia|done]. }
    apply IH; [lia|done|]. intros other ???. apply Honly; [lia|done|done].
Qed.

(** An entry that has a name is never modified. *)
Lemma categoryLoop_named row m k e n :
  JsMap.get m k = Some e → notNull (Category.name e) = true →
  JsMap.get (categoryLoop row n (m, VNull)).1 k = Some e.
Proof.
  intros Hg Hname. induction n as [|n IH]; [done|].
  rewrite categoryLoop_S. destruct (categoryLoop row n (m, VNull)) as [m' prev].
  rewrite categoryStepV2_get. simpl in IH. rewrite IH, Hname. simpl.
  by destruct (_ && _).
Qed.

(** C2, as amended.  In the loop over the six levels of a row, a
    populated level whose id no other level of the row resolves to is
    registered with the resolved id of the nearest populated level below it
    as parent when its id is new; when its id already has an entry, the
    entry is kept as it is, unless its name is null and the name cell of the
    level is not: then the entry is replaced by the node of this row, name
    and parent together.  An entry that has a name is never modified, and
    each row of the sheet runs this loop on the map left by the rows before
    it. *)
Theorem category_chain row m level :
  (1 ≤ level ≤ 6)%nat →
  notNull (effectiveAt row level) = true →
  (∀ other, (1 ≤ other ≤ 6)%nat → other ≠ level →
     notNull (effectiveAt row other) = true →
     toStr (effectiveAt row other) ≠ toStr (effectiveAt row level)) →
  JsMap.get (registerCategories row m) (toStr (effectiveAt row level))
  = Some match JsMap.get m (toStr (effectiveAt row level)) with
         | None => nodeAt row level
         | Some existing =>
             if negb (notNull (Category.name existing))
                && notNull (prop row (catNameCol level))
             then nodeAt row level
             else existing
         end
  ∧ (∀ k e, JsMap.get m k = Some e → notNull (Category.name e) = true →
       JsMap.get (registerCategories row m) k = Some e)
  ∧ (∀ rows, erpCategoriesMap (itemMasterV2Of (rows ++ [row]))
             = registerCategories row (erpCategoriesMap (itemMasterV2Of rows))).
Proof.
  intros Hl Hpop Honly.
  change (registerCategories row m) with (categoryLoop row 6 (m, VNull)).1.
  split; [by apply categoryLoop_get_level|]. split.
  - intros k e Hg Hname.
    change (registerCategories row m) with (categoryLoop row 6 (m, VNull)).1.
    by apply categoryLoop_named.
  - intros rows. unfold itemMasterV2Of. by rewrite fold_left_app.
Qed.

(** ** Substrings *)

Lemma startsWith_app s p : Str.startsWith s p = true ↔ ∃ post, s = p +:+ post.
Proof.
  revert s. induction p as [|a p IH]; intros s; simpl.
  { split; [by exists s|done]. }
  destruct s as [|b s].
  { split; [done|]. by intros (post & ?). }
  split.
  - intros [Hab Hp]%andb_prop. apply Ascii.eqb_eq in Hab as ->.
    apply IH in Hp as (post & ->). by exists post.
  - intros (post & Heq). rewrite str_app_cons in Heq. injection Heq as -> ->.
    rewrite Ascii.eqb_refl. simpl. apply IH. by exists post.
Qed.

Lemma includes_app s kw : Str.includes s kw = true ↔ ∃ pre post, s = pre +:+ kw +:+ post.
Proof.
  split.
  - induction s as [|a s IH]; simpl.
    + rewrite orb_false_r. intros (post & ->)%startsWith_app. by exists "", post.
    + intros [H|H]%orb_prop.
      * apply startsWith_app in H as (post & ->). by exists "", post.
      * destruct (IH H) as (pre & post & ->). by exists (String a pre), post.
  - intros (pre & post & ->). induction pre as [|a pre IH].
    + assert (Str.startsWith (kw +:+ post) kw = true) as H
        by (apply startsWith_app; by exists post).
      change ("" +:+ ?x) with x. destruct (kw +:+ post); simpl; by rewrite H.
    + rewrite str_app_cons. simpl. by rewrite IH, orb_true_r.
Qed.

Lemma includes_trans s kw u :
  Str.includes s kw = true → Str.includes kw u = true → Str.includes s u = true.
Proof.
  intros (pre & post & ->)%includes_app (pre' & post' & ->)%includes_app.
  apply includes_app. exists (pre +:+ pre'), (post' +:+ post).
  by rewrite !str_app_assoc.
Qed.

Lemma includes_mem s c kw : Str.includes s (String c kw) = true → Str.mem c s = true.
Proof.
  intros (pre & post & ->)%includes_app.
  rewrite mem_app, str_app_cons. simpl. by rewrite Ascii.eqb_refl, orb_true_r.
Qed.




(** ** The text of a number has no letter U *)

Lemma digit_chr_not_U z : Ascii.eqb (Str.digit_chr (z mod 10)) "U" = false.
Proof.
  assert (0 <= z mod 10 < 10) as H by (apply Z.mod_pos_bound; lia).
  assert (z mod 10 = 0 ∨ z mod 10 = 1 ∨ z mod 10 = 2 ∨ z mod 10 = 3 ∨ z mod 10 = 4
          ∨ z mod 10 = 5 ∨ z mod 10 = 6 ∨ z mod 10 = 7 ∨ z mod 10 = 8 ∨ z mod 10 = 9)
    as Hd by lia.
  destruct Hd as [->|[->|[->|[->|[->|[->|[->|[->|[->| ->]]]]]]]]]; reflexivity.
Qed.

Lemma showDigits_no_U fuel : ∀ z acc,
  Str.mem "U" acc = false → Str.mem "U" (Str.showDigits fuel z acc) = false.
Proof.
  induction fuel as [|fuel IH]; intros z acc Hacc; simpl; [done|].
  assert (Str.mem "U" (String (Str.digit_chr (z mod 10)) acc) = false) as H.
  { simpl. by rewrite digit_chr_not_U, Hacc. }
  destruct (z / 10 =? 0); [done|]. by apply IH.
Qed.

Lemma showNat_no_U z : Str.mem "U" (Str.showNat z) = false.
Proof. by apply showDigits_no_U. Qed.

Lemma showInt_no_U z : Str.mem "U" (Num.showInt z) = false.
Proof.
  unfold Num.showInt. destruct (z <? 0); simpl; by rewrite showNat_no_U.
Qed.

Lemma zeros_no_U n : Str.mem "U" (Str.zeros n) = false.
Proof. induction n; simpl; done. Qed.

Lemma take_no_U n : ∀ s, Str.mem "U" s = false → Str.mem "U" (Str.take n s) = false.
Proof.
  induction n as [|n IH]; intros [|a s]; simpl; try done.
  intros [Ha Hs]%orb_false_elim. by rewrite Ha, IH.
Qed.

Lemma drop_no_U n : ∀ s, Str.mem "U" s = false → Str.mem "U" (Str.drop n s) = false.
Proof.
  induction n as [|n IH]; intros [|a s]; simpl; try done.
  intros [Ha Hs]%orb_false_elim. by apply IH.
Qed.

Lemma toString_no_U n : Str.mem "U" (Num.toString n) = false.
Proof.
  destruct n as [|[|]|m e]; try reflexivity.
  unfold Num.toString. destruct (m =? 0); [reflexivity|].
  pose proof (showNat_no_U (Z.abs m)) as Hs.
  rewrite mem_app. apply orb_false_intro; [by destruct (m <? 0)|].
  repeat case_match;
    rewrite ?mem_app, ?zeros_no_U, ?showNat_no_U, ?take_no_U, ?drop_no_U by done;
    reflexivity.
Qed.

(** ** Detection *)

Lemma existsb_and_const {A} (f : A → bool) (b : bool) l :
  existsb (λ x, f x && b) l = existsb f l && b.
Proof.
  induction l as [|a l IH]; simpl; [done|].
  rewrite IH. by destruct (f a), b, (existsb f l).
Qed.


Lemma rowMatches_split kws row :
  rowMatches kws row = existsb isString row && containsAll kws row.
Proof. apply existsb_and_const. Qed.


Section Detection.
Hypothesis date_text : ∀ d, Str.includes (dateToString host d) "UID" = false.

Lemma joinText_UID_string cell :
  Str.includes (joinText cell) "UID" = true → isString cell = true.
Proof.
  destruct cell as [| |b|n|s|d]; try done.
  - by destruct b.
  - change (joinText (VNum n)) with (Num.toString n).
    intros H%includes_mem. by rewrite toString_no_U in H.
  - change (joinText (VDate d)) with (dateToString host d). by rewrite date_text.
Qed.








End Detection.

(** ** Serial dates and the time zone *)

Lemma allFrom_spec fuel : ∀ z p,
  allFrom fuel z p = true → ∀ k, z <= k < z + Z.of_nat fuel → p k = true.
Proof.
  induction fuel as [|fuel IH]; intros z p H k Hk; [lia|].
  simpl in H. destruct (p z) eqn:E; [|done].
  destruct (decide (k = z)) as [->|Hne]; [done|].
  apply (IH (z + 1) p H). lia.
Qed.

Lemma cycle_checked : allFrom (Z.to_nat 146097) 0 cycleOk = true.
Proof. vm_compute. reflexivity. Qed.

Lemma cycleOk_all doe : 0 <= doe < 146097 → cycleOk doe = true.
Proof.
  intros H. apply (allFrom_spec _ _ _ cycle_checked). lia.
Qed.

Lemma civilFromDays_cycle z :
  JsDate.civilFromDays z
  = let era := (z + 719468) / 146097 in
    let '(yoe, m, d) := civilOfDoe ((z + 719468) - era * 146097) in
    (yoe + era * 400 + (if m <=? 2 then 1 else 0), m - 1, d).
Proof. reflexivity. Qed.

Lemma makeDay_cycle year month day :
  JsDate.makeDay year month day
  = let y := year + month / 12 in
    let m := month mod 12 + 1 in
    let y' := if m <=? 2 then y - 1 else y in
    let era := y' / 400 in
    era * 146097 + doeOfCivil (y' - era * 400) m day - 719468.
Proof. reflexivity. Qed.

(** The day number of the calendar fields of a day number is that day
    number. *)
Lemma makeDay_civilFromDays z :
  JsDate.makeDay (JsDate.civilFromDays z).1.1 (JsDate.civilFromDays z).1.2
                 (JsDate.civilFromDays z).2 = z.
Proof.
  rewrite civilFromDays_cycle. cbv zeta.
  set (era := (z + 719468) / 146097).
  assert (0 <= z + 719468 - era * 146097 < 146097) as Hdoe.
  { unfold era. pose proof (Z.mod_pos_bound (z + 719468) 146097 ltac:(lia)) as H.
    rewrite Z.mod_eq in H by lia. lia. }
  pose proof (cycleOk_all _ Hdoe) as Hok. unfold cycleOk in Hok.
  destruct (civilOfDoe (z + 719468 - era * 146097)) as [[yoe m] d].
  repeat (apply andb_prop in Hok as [Hok ?]).
  simpl. rewrite makeDay_cycle. cbv zeta.
  assert ((m - 1) / 12 = 0) as -> by (apply Z.div_small; lia).
  assert ((m - 1) mod 12 + 1 = m) as -> by (rewrite Z.mod_small; lia).
  assert ((if m <=? 2
           then yoe + era * 400 + (if m <=? 2 then 1 else 0) + 0 - 1
           else yoe + era * 400 + (if m <=? 2 then 1 else 0) + 0)
          = yoe + era * 400) as -> by (destruct (m <=? 2); lia).
  assert ((yoe + era * 400) / 400 = era) as ->.
  { rewrite Z.div_add by lia. rewrite Z.div_small by lia. lia. }
  replace (yoe + era * 400 - era * 400) with yoe by lia.
  lia.
Qed.

Lemma pad2_fields_text (y m d : option Z) :
  ∀ ymd, y = Some ymd.1.1 → m = Some ymd.1.2 → d = Some ymd.2 →
  JsDate.showField y +:+ "-" +:+ Str.pad2 (JsDate.showField ((λ m, m + 1) <$> m)) +:+ "-"
    +:+ Str.pad2 (JsDate.showField d) = ymdText ymd.
Proof. intros ymd -> -> ->. reflexivity. Qed.

(** A serial number of the range of Excel dates converts to the instant
    of the local midnight of its day. *)
Lemma serial_local_midnight z :
  Z.abs (utcOfLocal host ((z - 25569) * JsDate.msPerDay) - (z - 25569) * JsDate.msPerDay)
    <= 86400000 →
  2 <= z <= 2958465 →
  excelSerialDateToJSDate (Fin z 0)
  = At (utcOfLocal host ((z - 25569) * JsDate.msPerDay)).
Proof.
  intros Hoff Hz. rewrite excelSerial_days by lia.
  set (c := JsDate.civilFromDays (z - 25569)).
  assert (99 < c.1.1) as Hy.
  { unfold c. rewrite civilFromDays_cycle. cbv zeta.
    set (era := (z - 25569 + 719468) / 146097).
    assert (4 <= era) as Hera by (unfold era; apply Z.div_le_lower_bound; lia).
    assert (0 <= z - 25569 + 719468 - era * 146097 < 146097) as Hdoe.
    { unfold era. pose proof (Z.mod_pos_bound (z - 25569 + 719468) 146097 ltac:(lia)) as H.
      rewrite Z.mod_eq in H by lia. lia. }
    pose proof (cycleOk_all _ Hdoe) as Hok. unfold cycleOk in Hok.
    destruct (civilOfDoe (z - 25569 + 719468 - era * 146097)) as [[yoe m] d].
    repeat (apply andb_prop in Hok as [Hok ?]). simpl.
    destruct (m <=? 2); lia. }
  unfold newLocalDate.
  assert ((0 <=? c.1.1) && (c.1.1 <=? 99) = false) as ->.
  { apply andb_false_iff. right. apply Z.leb_gt. lia. }
  unfold c at 1 2 3. rewrite makeDay_civilFromDays.
  unfold JsDate.timeClip.
  pose proof Hoff as Ho.
  assert ((Z.abs (utcOfLocal host ((z - 25569) * JsDate.msPerDay)) <=? 8640000000000000) = true)
    as ->; [|done].
  apply Z.leb_le. unfold JsDate.msPerDay in *. lia.
Qed.

(** The calendar fields of an instant whose local time falls on a
    day. *)
Lemma fields_of_local_day t day :
  day * JsDate.msPerDay <= localTime host t < (day + 1) * JsDate.msPerDay →
  JsDate.fieldsAt (localTime host t) = JsDate.civilFromDays day.
Proof.
  intros Hday. unfold JsDate.fieldsAt. f_equal. symmetry.
  apply (Z.div_unique _ _ _ (localTime host t - day * JsDate.msPerDay));
    unfold JsDate.msPerDay in *; lia.
Qed.

Lemma formatDate_calendarText t :
  formatDateToYYYYMMDD (At t) = ymdText (JsDate.fieldsAt (localTime host t)).
Proof. unfold formatDateToYYYYMMDD. by apply pad2_fields_text. Qed.

Lemma serial_date_text z :
  (z - 25569) * JsDate.msPerDay
    <= localTime host (utcOfLocal host ((z - 25569) * JsDate.msPerDay))
    < (z - 25569 + 1) * JsDate.msPerDay →
  Z.abs (utcOfLocal host ((z - 25569) * JsDate.msPerDay) - (z - 25569) * JsDate.msPerDay)
    <= 86400000 →
  2 <= z <= 2958465 →
  formatDateToYYYYMMDD (excelSerialDateToJSDate (Fin z 0))
  = ymdText (JsDate.civilFromDays (z - 25569)).
Proof.
  intros Hday Hoff Hz. rewrite serial_local_midnight, formatDate_calendarText by done.
  by rewrite (fields_of_local_day _ (z - 25569)).
Qed.

(** X1. The date of a fact whose date cell is a whole serial number z
    between 2 and 2958465 is the calendar date of day z - 25569 from the
    epoch, whatever the time zone, on a host where the instant that
    [new Date(y, m, d)] gives for the local midnight of that one day falls
    on that local day (also when a clock change skips the midnight itself)
    and is at most a day away from the same reading in universal time.
    Nothing is asked of the host at any other instant. *)
Theorem serial_date_any_zone z :
  (z - 25569) * JsDate.msPerDay
    <= localTime host (utcOfLocal host ((z - 25569) * JsDate.msPerDay))
    < (z - 25569 + 1) * JsDate.msPerDay →
  Z.abs (utcOfLocal host ((z - 25569) * JsDate.msPerDay) - (z - 25569) * JsDate.msPerDay)
    <= 86400000 →
  2 <= z <= 2958465 →
  resolveDate (VNum (Fin z 0)) = VStr (ymdText (JsDate.civilFromDays (z - 25569))).
Proof.
  intros Hday Hoff Hz. unfold resolveDate, pickDate.
  assert (Num.gt (Fin z 0) (Fin 1 0) = true) as Hgt.
  { unfold Num.gt. change (Z.min 0 0) with 0. change (Num.pow10 (0 - 0)) with 1.
    apply Z.ltb_lt. lia. }
  assert (truthy (VNum (Fin z 0)) = true) as -> by (simpl; by apply gt_one_truthy).
  rewrite Hgt. f_equal. by apply serial_date_text.
Qed.

Lemma serial_number_value z :
  Z.abs (z - 25569) < 10 ^ 20 →
  ∃ m e, Num.mul (Num.mul (Num.sub (Fin z 0) (Fin 25569 0)) (Fin 864 2)) (Fin 1 3) = Fin m e
         ∧ 0 <= e ∧ m * 10 ^ e = (z - 25569) * 86400000.
Proof.
  intros Hz. change (10 ^ 20) with 100000000000000000000 in Hz.
  assert (Num.sub (Fin z 0) (Fin 25569 0) = Num.mk (z - 25569) 0) as ->.
  { unfold Num.sub. change (Z.min 0 0) with 0. change (Num.pow10 (0 - 0)) with 1.
    f_equal. lia. }
  destruct (mk_exact (z - 25569) 0) as (m1 & e1 & -> & H1 & He1); [lia| |].
  { change (10 ^ 30) with 1000000000000000000000000000000. lia. }
  unfold Num.mul at 2.
  destruct (mk_exact (m1 * 864) (e1 + 2)) as (m2 & e2 & -> & H2 & He2); [lia| |].
  { rewrite Z.pow_add_r by lia. rewrite Z.abs_mul.
    assert (Z.abs m1 * 10 ^ e1 = Z.abs (z - 25569)) as Ha.
    { rewrite <- (Z.abs_eq (10 ^ e1)) by (apply Z.pow_nonneg; lia).
      rewrite <- Z.abs_mul. f_equal. lia. }
    change (Z.abs 864) with 864. change (10 ^ 2) with 100.
    change (10 ^ 30) with 1000000000000000000000000000000. nia. }
  assert (m2 * 10 ^ e2 = (z - 25569) * 86400) as V2.
  { rewrite H2, Z.pow_add_r by lia. change (10 ^ 2) with 100. nia. }
  unfold Num.mul.
  destruct (mk_exact (m2 * 1) (e2 + 3)) as (m3 & e3 & -> & H3 & He3); [lia| |].
  { rewrite Z.pow_add_r by lia. rewrite Z.mul_1_r.
    assert (Z.abs m2 * 10 ^ e2 = Z.abs ((z - 25569) * 86400)) as Ha.
    { rewrite <- (Z.abs_eq (10 ^ e2)) by (apply Z.pow_nonneg; lia).
      rewrite <- Z.abs_mul. f_equal. lia. }
    change (10 ^ 3) with 1000.
    change (10 ^ 30) with 1000000000000000000000000000000. nia. }
  exists m3, e3. split; [done|]. split; [done|].
  rewrite H3, Z.pow_add_r by lia. change (10 ^ 3) with 1000. nia.
Qed.

(** The conversion of a serial number too large for a time value gives
    no date. *)
Lemma excelSerial_beyond_range z :
  100025569 < z < 10 ^ 20 → excelSerialDateToJSDate (Fin z 0) = Invalid.
Proof.
  intros Hz. unfold excelSerialDateToJSDate.
  change (10 ^ 20) with 100000000000000000000 in Hz.
  destruct (serial_number_value z) as (m & e & -> & He & Hv).
  { change (10 ^ 20) with 100000000000000000000. lia. }
  assert (JsDate.ofNumber (Fin m e) = Invalid) as ->; [|reflexivity].
  unfold JsDate.ofNumber, Num.gt, Num.pow10.
  set (e' := Z.min e 13).
  assert (0 <= e' ∧ e' <= e ∧ e' <= 13) as (?&?&?) by (unfold e'; lia).
  assert (0 < 10 ^ e') as Hp by (apply Z.pow_pos_nonneg; lia).
  assert (m * 10 ^ (e - e') * 10 ^ e' = (z - 25569) * 86400000) as Hm.
  { rewrite <- Z.mul_assoc, <- Z.pow_add_r by lia. replace (e - e' + e') with e by lia. done. }
  assert (10 ^ (13 - e') * 10 ^ e' = 10000000000000) as Hk.
  { rewrite <- Z.pow_add_r by lia. replace (13 - e' + e') with 13 by lia. done. }
  assert ((864 * 10 ^ (13 - e') <? m * 10 ^ (e - e')) = true) as ->; [|done].
  apply Z.ltb_lt. nia.
Qed.

Lemma above_one z : 1 < z → Num.gt (Fin z 0) (Fin 1 0) = true.
Proof.
  intros Hz. unfold Num.gt. change (Z.min 0 0) with 0. change (Num.pow10 (0 - 0)) with 1.
  apply Z.ltb_lt. lia.
Qed.

(** X2. A whole serial number too large for a time value (above
    100025569 and below 10^20) still takes the serial path: the date is the
    text NaN-NaN-NaN, not null, so a fact row with such a date cell and both
    ids is emitted with that text as its date. *)
Theorem serial_beyond_range z :
  100025569 < z < 10 ^ 20 →
  resolveDate (VNum (Fin z 0)) = VStr "NaN-NaN-NaN"
  ∧ ∀ row, prop row "Date*" = VNum (Fin z 0) →
      factKept (factOfRow row)
      = truthy (prop row "Product UID*") && truthy (prop row "Store UID*").
Proof.
  intros Hz.
  assert (resolveDate (VNum (Fin z 0)) = VStr "NaN-NaN-NaN") as Hres.
  { unfold resolveDate, pickDate.
    assert (Num.gt (Fin z 0) (Fin 1 0) = true) as Hgt by (apply above_one; lia).
    assert (truthy (VNum (Fin z 0)) = true) as -> by (simpl; by apply gt_one_truthy).
    by rewrite Hgt, excelSerial_beyond_range. }
  split; [done|]. intros row Hrow. unfold factKept. simpl. rewrite Hrow, Hres.
  simpl. by rewrite andb_true_r.
Qed.

(** ** The date of a fact *)



















(** ** Header row and row objects *)

Lemma fillRow_lookup headers : ∀ index row o h,
  fillRow headers index row o !! h
  = if decide (h = "") then o !! h
    else match lastColumn headers index h with
         | Some i => Some (trimCell (default VUndef (row !! i)))
         | None => o !! h
         end.
Proof.
  induction headers as [|header headers IH]; intros index row o h; simpl.
  { by destruct (decide (h = "")). }
  rewrite IH. destruct (decide (h = "")) as [->|Hh].
  - destruct (bool_decide (header = "")) eqn:E; [done|].
    apply bool_decide_eq_false in E. by rewrite lookup_insert_ne.
  - destruct (lastColumn headers (S index) h) as [i|]; [done|].
    destruct (decide (header = h)) as [->|Hne].
    + rewrite bool_decide_eq_false_2 by done. by rewrite lookup_insert_eq.
    + destruct (bool_decide (header = "")); [done|]. by rewrite lookup_insert_ne.
Qed.

(** X3. In a row object, a column whose header is empty is dropped; of
    several columns with one header the last one gives the value; a text
    cell is trimmed; a column beyond the end of the row reads as undefined,
    and a header that the sheet does not have is absent. *)
Theorem rowObject_columns headers row h :
  rowObjectOf headers row !! h
  = if decide (h = "") then None
    else (λ i, trimCell (default VUndef (row !! i))) <$> lastColumn headers 0 h.
Proof.
  unfold rowObjectOf. rewrite fillRow_lookup.
  destruct (decide (h = "")); [done|]. by destruct (lastColumn headers 0 h).
Qed.

Lemma findHeaderRow_Some kws rawData : ∀ i,
  findHeaderRow kws rawData = Some i
  ↔ (∃ row, rawData !! i = Some row ∧ isHeaderRow kws row = true)
    ∧ ∀ j row, (j < i)%nat → rawData !! j = Some row → isHeaderRow kws row = false.
Proof.
  induction rawData as [|r rest IH]; intros i; simpl.
  { split; [done|]. by intros [(row & ? & _) _]. }
  destruct (isHeaderRow kws r) eqn:E.
  - split.
    + intros [= <-]. split; [by exists r|]. intros; lia.
    + intros [(row & Hi & Hrow) Hfirst]. destruct i as [|i]; [done|].
      specialize (Hfirst O r ltac:(lia) eq_refl). congruence.
  - destruct i as [|i].
    + split.
      * destruct (findHeaderRow kws rest); done.
      * intros [(row & [= <-] & Hrow) _]. congruence.
    + split.
      * intros H. destruct (findHeaderRow kws rest) as [k|] eqn:Ek; [|done].
        injection H as ->. destruct (proj1 (IH i) eq_refl) as [Hex Hfirst]. split; [done|].
        intros [|j] row Hj Hrow; simpl in Hrow; [congruence|].
        apply (Hfirst j); [lia|done].
      * intros [Hex Hfirst].
        assert (findHeaderRow kws rest = Some i) as ->; [|done].
        apply IH. split; [done|]. intros j row Hj Hrow.
        apply (Hfirst (S j)); [lia|done].
Qed.

(** X4. The header row of a sheet is the first row in which some text
    cell contains some keyword of the type; there is none exactly when no
    row of the sheet has such a cell. *)
Theorem header_row_is_first kws rawData :
  (∀ i, findHeaderRow kws rawData = Some i
        ↔ (∃ row, rawData !! i = Some row ∧ isHeaderRow kws row = true)
          ∧ ∀ j row, (j < i)%nat → rawData !! j = Some row → isHeaderRow kws row = false)
  ∧ (findHeaderRow kws rawData = None ↔ Forall (λ row, isHeaderRow kws row = false) rawData).
Proof.
  split; [apply findHeaderRow_Some|].
  induction rawData as [|r rest IH]; simpl; [done|].
  rewrite Forall_cons. destruct (isHeaderRow kws r); [split; [done|by intros [? _]]|].
  rewrite <- IH. destruct (findHeaderRow kws rest); split; try done; by intros [_ ?].
Qed.

(** ** What detection returns *)

Ltac listed := by repeat constructor.

Ltac unlisted :=
  let H := fresh in
  intros H; repeat (apply elem_of_cons in H as [H|H]; [done|]); by apply elem_of_nil in H.

Lemma findSheet_Some wb kws names s :
  findSheet wb kws names = Some s →
  s ∈ names ∧ ∃ sheet, Sheets wb !! s = Some sheet
                       ∧ sheetMatches kws (sheet_to_json host true sheet) = true.
Proof.
  induction names as [|n names IH]; simpl; [done|].
  destruct (Sheets wb !! n) as [sheet|] eqn:E.
  - destruct (sheetMatches kws (sheet_to_json host true sheet)) eqn:Em.
    + intros [= <-]. split; [apply elem_of_cons; by left|]. by exists sheet.
    + intros H. destruct (IH H) as [? ?]. split; [apply elem_of_cons; by right|done].
  - intros H. destruct (IH H) as [? ?]. split; [apply elem_of_cons; by right|done].
Qed.

Lemma detectLoop_result wb types :
  match detectLoop wb types with
  | (t, None) => t = UNKNOWN
  | (t, Some n) =>
      t ∈ types ∧ n ∈ SheetNames wb
      ∧ ∃ sheet, Sheets wb !! n = Some sheet
                 ∧ sheetMatches (keywords t) (sheet_to_json host true sheet) = true
  end.
Proof.
  induction types as [|t types IH]; simpl; [done|].
  destruct (findSheet wb (keywords t) (SheetNames wb)) as [n|] eqn:E.
  - apply findSheet_Some in E as [? ?]. split; [apply elem_of_cons; by left|done].
  - destruct (detectLoop wb types) as [t' [n|]]; [|done].
    destruct IH as (? & ? & ?). split; [apply elem_of_cons; by right|done].
Qed.

(** X5. Detection gives no sheet exactly with the type UNKNOWN; a sheet it
    gives is one of the sheet names of the workbook, the workbook has that
    sheet, the type is one of the seven of the check order, and the scan of
    that sheet for that type succeeds. *)
Theorem detection_result wb :
  match detectFileType wb with
  | (t, None) => t = UNKNOWN
  | (t, Some n) =>
      t ∈ typeCheckOrder ∧ t ≠ UNKNOWN ∧ n ∈ SheetNames wb
      ∧ ∃ sheet, Sheets wb !! n = Some sheet
                 ∧ sheetMatches (keywords t) (sheet_to_json host true sheet) = true
  end.
Proof.
  pose proof (detectLoop_result wb typeCheckOrder) as H. unfold detectFileType.
  destruct (detectLoop wb typeCheckOrder) as [t [n|]]; [|done].
  destruct H as (Ht & Hn & Hs). split; [done|]. split; [|done].
  intros ->. unfold typeCheckOrder in Ht.
  repeat (apply elem_of_cons in Ht as [Ht|Ht]; [done|]). by apply elem_of_nil in Ht.
Qed.

(** ** Outcomes of the dispatcher *)

Lemma openSheet_Throw wb s kws noHeader msg :
  openSheet wb s kws noHeader = Throw msg →
  Sheets wb !! s = None ∨ msg = noHeader.
Proof.
  unfold openSheet. destruct (Sheets wb !! s) as [ws|]; [|by left].
  destruct (findHeaderRow kws _); [done|]. intros [= <-]. by right.
Qed.

Lemma processStoresFile_Throw wb s msg :
  (processStoresFile wb s).2 = Throw msg →
  openSheet wb s (keywords STORE) "Could not find a valid header row in the Stores sheet."
  = Throw msg.
Proof.
  unfold processStoresFile. destruct (openSheet _ _ _ _) as [[raw i]|m]; simpl.
  - by destruct (List.filter _ _).
  - by intros [= ->].
Qed.

Lemma processStoreItemsFile_Throw wb s options msg :
  (processStoreItemsFile wb s options).2 = Throw msg →
  openSheet wb s (keywords STORE_ITEMS) "Could not find a valid header row in the Items sheet."
  = Throw msg.
Proof.
  unfold processStoreItemsFile. destruct (openSheet _ _ _ _) as [[raw i]|m]; simpl.
  - destruct (storeItemsOf _) as [items sup]. by destruct items.
  - by intros [= ->].
Qed.

Lemma processFactsFile_Throw wb s msg :
  (processFactsFile wb s).2 = Throw msg →
  openSheet wb s (keywords FACTS) "Could not find a valid header row in the Facts sheet."
  = Throw msg.
Proof.
  unfold processFactsFile. destruct (openSheet _ _ _ _) as [[raw i]|m]; simpl.
  - by destruct (factsOf _).
  - by intros [= ->].
Qed.

Lemma processItemMasterFile_Throw wb s options msg :
  (processItemMasterFile wb s options).2 = Throw msg →
  openSheet wb s (keywords ITEM_MASTER) "Could not find header row in Masteritems file."
  = Throw msg.
Proof.
  unfold processItemMasterFile. destruct (openSheet _ _ _ _) as [[raw i]|m]; simpl.
  - by destruct (masteritemsData _).
  - by intros [= ->].
Qed.

Lemma processItemMasterV2File_Throw wb s options msg :
  (processItemMasterV2File wb s options).2 = Throw msg →
  openSheet wb s (keywords ITEM_MASTER_V2)
    "Could not find header row in the new Masteritems file."
  = Throw msg.
Proof.
  unfold processItemMasterV2File. destruct (openSheet _ _ _ _) as [[raw i]|m]; simpl.
  - by destruct (templateV2 _).
  - by intros [= ->].
Qed.

Lemma dispatch_Throw wb t s options msg :
  is_Some (Sheets wb !! s) →
  (dispatch wb t s options).2 = Throw msg → msg ∈ dispatcherErrors.
Proof.
  intros [ws Hws] H. unfold dispatcherErrors.
  destruct t; simpl in H.
  - apply processItemMasterFile_Throw, openSheet_Throw in H as [H| ->];
      [congruence|listed].
  - apply processItemMasterV2File_Throw, openSheet_Throw in H as [H| ->];
      [congruence|listed].
  - apply processFactsFile_Throw, openSheet_Throw in H as [H| ->];
      [congruence|listed].
  - apply processStoreItemsFile_Throw, openSheet_Throw in H as [H| ->];
      [congruence|listed].
  - apply processStoresFile_Throw, openSheet_Throw in H as [H| ->];
      [congruence|listed].
  - injection H as <-. listed.
  - injection H as <-. listed.
  - done.
Qed.

Lemma generate_outcomes wb options :
  match (generateCsvsFromExcel wb options).2 with
  | Throw msg => msg ∈ dispatcherErrors
  | Ok (files, t) => t = (detectFileType wb).1 ∧ t ∈ processedTypes
  end.
Proof.
  unfold generateCsvsFromExcel.
  pose proof (detection_sheet := detectLoop_result wb typeCheckOrder).
  fold (detectFileType wb) in detection_sheet.
  destruct (detectFileType wb) as [t [n|]]; simpl.
  - destruct detection_sheet as (Ht & Hn & sheet & Hs & _).
    destruct (bool_decide (t = UNKNOWN) || bool_decide (n = "")) eqn:E; simpl.
    { unfold dispatcherErrors. listed. }
    destruct (dispatch wb t n options) as [events outcome] eqn:Ed. simpl.
    destruct outcome as [files|msg].
    + split; [done|]. unfold processedTypes.
      destruct t; simpl in Ed; try listed; by injection Ed.
    + apply (dispatch_Throw wb t n options); [by exists sheet|]. by rewrite Ed.
  - rewrite orb_true_r. unfold dispatcherErrors. listed.
Qed.

(** X6. The dispatcher ends either in one of eight errors (unknown file
    type, not yet implemented for STOCK and PRICE, or the missing header row
    of one of the five processors; never a missing sheet), or in a list
    of files together with the type detection gave, which is then one of
    the five types that have a processor.  Its first status event is always
    the reading one. *)
Theorem dispatcher_outcomes wb options :
  match (generateCsvsFromExcel wb options).2 with
  | Throw msg => msg ∈ dispatcherErrors
  | Ok (files, t) => t = (detectFileType wb).1 ∧ t ∈ processedTypes
  end
  ∧ head (generateCsvsFromExcel wb options).1
    = Some (say processing "Reading and analyzing Excel file...").
Proof.
  split; [apply generate_outcomes|].
  unfold generateCsvsFromExcel. destruct (detectFileType wb) as [t n].
  destruct (_ || _); [done|]. by destruct (dispatch wb t (default "" n) options).
Qed.

(** ** The options and the names of the files *)

Lemma str_length_app s t : String.length (s +:+ t) = (String.length s + String.length t)%nat.
Proof. induction s as [|a s IH]; simpl; [done|]. by rewrite IH. Qed.

Lemma str_app_inj_r u s t : s +:+ u = t +:+ u → s = t.
Proof.
  revert t. induction s as [|a s IH]; intros [|b t] H; [done| | |].
  - apply (f_equal String.length) in H. rewrite !str_length_app in H. simpl in H. lia.
  - apply (f_equal String.length) in H. rewrite !str_length_app in H. simpl in H. lia.
  - rewrite !str_app_cons in H. injection H as -> H. f_equal. by apply IH.
Qed.

Lemma csvName_inj s t : csvName s = csvName t → s = t.
Proof. unfold csvName. apply str_app_inj_r. Qed.

Lemma csvName_elem k (l : list string) : csvName k ∈ csvName <$> l ↔ k ∈ l.
Proof.
  rewrite list_elem_of_fmap. split.
  - intros (k' & E & Hk). by rewrite (csvName_inj _ _ E).
  - intros Hk. by exists k.
Qed.

Lemma switchedOff_elem options k :
  k ∈ switchedOff options ↔ option_on options k = false ∧ k ∈ optionalTables.
Proof.
  unfold switchedOff. rewrite !list_elem_of_In, List.filter_In, negb_true_iff. tauto.
Qed.

Lemma keptBy_main options t c :
  t ∉ optionalTables → keptBy options {| name := csvName t; content := c |} = true.
Proof.
  intros Ht. unfold keptBy. simpl. rewrite bool_decide_eq_false_2; [done|].
  rewrite csvName_elem, switchedOff_elem. tauto.
Qed.

Lemma keptBy_side options k c :
  k ∈ optionalTables →
  keptBy options {| name := csvName k; content := c |} = option_on options k.
Proof.
  intros Hk. unfold keptBy. simpl. destruct (option_on options k) eqn:E.
  - rewrite bool_decide_eq_false_2; [done|].
    rewrite csvName_elem, switchedOff_elem. intros [? _]. congruence.
  - rewrite bool_decide_eq_true_2; [done|].
    by rewrite csvName_elem, switchedOff_elem.
Qed.

Lemma sideTable_filter options k d c :
  k ∈ optionalTables →
  sideTable options k d c = List.filter (keptBy options) (sideTable ∅ k d c).
Proof.
  intros Hk. unfold sideTable. change (option_on ∅ k) with true.
  destruct (bool_decide (d = [])); simpl; [by rewrite andb_false_r|].
  rewrite keptBy_side, andb_true_r by done. by destruct (option_on options k).
Qed.

Lemma dispatch_options wb t s options :
  (dispatch wb t s options).1 = (dispatch wb t s ∅).1
  ∧ match (dispatch wb t s ∅).2 with
    | Throw msg => (dispatch wb t s options).2 = Throw msg
    | Ok all => (dispatch wb t s options).2 = Ok (List.filter (keptBy options) all)
    end.
Proof.
  destruct t; simpl; try done.
  - unfold processItemMasterFile. destruct (openSheet _ _ _ _) as [[raw i]|m]; [|done].
    destruct (masteritemsData _); [done|]. cbn -[sideTable csvName arrayToCsv].
    split; [done|]. rewrite keptBy_main by unlisted.
    rewrite !List.filter_app.
    by rewrite <- !sideTable_filter by listed.
  - unfold processItemMasterV2File. destruct (openSheet _ _ _ _) as [[raw i]|m]; [|done].
    destruct (templateV2 _); [done|]. cbn -[sideTable csvName arrayToCsv].
    split; [done|]. rewrite keptBy_main by unlisted.
    rewrite !List.filter_app.
    by rewrite <- !sideTable_filter by listed.
  - unfold processFactsFile. destruct (openSheet _ _ _ _) as [[raw i]|m]; [|done].
    destruct (factsOf _); [done|]. cbn -[csvName arrayToCsv].
    split; [done|]. by rewrite keptBy_main by unlisted.
  - unfold processStoreItemsFile. destruct (openSheet _ _ _ _) as [[raw i]|m]; [|done].
    destruct (storeItemsOf _) as [[|item items] sup]; [done|].
    cbn -[csvName arrayToCsv]. split; [done|].
    rewrite keptBy_main by unlisted.
    change (option_on ∅ "suppliers") with true.
    destruct (bool_decide (sup = [])); simpl; [by rewrite andb_false_r|].
    rewrite keptBy_side, andb_true_r by listed.
    by destruct (option_on options "suppliers").
  - unfold processStoresFile. destruct (openSheet _ _ _ _) as [[raw i]|m]; [|done].
    destruct (List.filter _ _); [done|]. cbn -[csvName arrayToCsv].
    split; [done|]. by rewrite keptBy_main by unlisted.
Qed.

(** X7. The options never change the status events, the error or the
    detected type: the files of a run are those of the run without options,
    in the same order, less the files of the optional tables whose option is
    present and false.  The file of the main table is never dropped. *)
Theorem options_only_drop_side_tables wb options :
  (generateCsvsFromExcel wb options).1 = (generateCsvsFromExcel wb ∅).1
  ∧ match (generateCsvsFromExcel wb ∅).2 with
    | Throw msg => (generateCsvsFromExcel wb options).2 = Throw msg
    | Ok (all, t) =>
        (generateCsvsFromExcel wb options).2 = Ok (List.filter (keptBy options) all, t)
        ∧ head (List.filter (keptBy options) all) = head all
    end.
Proof.
  unfold generateCsvsFromExcel. destruct (detectFileType wb) as [t n].
  destruct (_ || _); [done|].
  destruct (dispatch_options wb t (default "" n) options) as [He Ho].
  destruct (dispatch wb t (default "" n) options) as [events outcome].
  destruct (dispatch wb t (default "" n) ∅) as [events' all] eqn:E.
  simpl in *. subst events'. split; [done|].
  destruct all as [all|msg]; subst outcome; [|done]. split; [done|].
  destruct t; simpl in E.
  - unfold processItemMasterFile in E. destruct (openSheet _ _ _ _) as [[raw i]|m]; [|done].
    destruct (masteritemsData _); injection E as _ <-; [done|].
    cbn -[sideTable csvName arrayToCsv].
    by rewrite keptBy_main by unlisted.
  - unfold processItemMasterV2File in E. destruct (openSheet _ _ _ _) as [[raw i]|m]; [|done].
    destruct (templateV2 _); injection E as _ <-; [done|].
    cbn -[sideTable csvName arrayToCsv].
    by rewrite keptBy_main by unlisted.
  - unfold processFactsFile in E. destruct (openSheet _ _ _ _) as [[raw i]|m]; [|done].
    destruct (factsOf _); injection E as _ <-; [done|].
    cbn -[csvName arrayToCsv].
    by rewrite keptBy_main by unlisted.
  - unfold processStoreItemsFile in E. destruct (openSheet _ _ _ _) as [[raw i]|m]; [|done].
    destruct (storeItemsOf _) as [[|item items] sup]; injection E as _ <-; [done|].
    cbn -[csvName arrayToCsv].
    by rewrite keptBy_main by unlisted.
  - unfold processStoresFile in E. destruct (openSheet _ _ _ _) as [[raw i]|m]; [|done].
    destruct (List.filter _ _); injection E as _ <-; [done|].
    cbn -[csvName arrayToCsv].
    by rewrite keptBy_main by unlisted.
  - done.
  - done.
  - by injection E as _ <-.
Qed.

Lemma sideTable_names options k d c :
  name <$> sideTable options k d c `sublist_of` [csvName k].
Proof.
  unfold sideTable. destruct (_ && _); simpl; [done|]. apply sublist_nil_l.
Qed.

Lemma dispatch_names wb t s options files :
  (dispatch wb t s options).2 = Ok files →
  name <$> files `sublist_of` csvName <$> tablesOf t
  ∧ head (name <$> files) = (if bool_decide (files = []) then None
                              else head (csvName <$> tablesOf t)).
Proof.
  destruct t; simpl.
  - unfold processItemMasterFile. destruct (openSheet _ _ _ _) as [[raw i]|m]; [|done].
    destruct (masteritemsData _); intros [= <-]; [split; [apply sublist_nil_l|done]|].
    split; [|done]. cbn -[sideTable csvName arrayToCsv]. apply sublist_skip.
    rewrite !fmap_app.
    apply (sublist_app _ [_]); [apply sideTable_names|].
    apply (sublist_app _ [_]); [apply sideTable_names|].
    apply (sublist_app _ [_]); [apply sideTable_names|].
    apply (sublist_app _ [_]); [apply sideTable_names|]. apply sideTable_names.
  - unfold processItemMasterV2File. destruct (openSheet _ _ _ _) as [[raw i]|m]; [|done].
    destruct (templateV2 _); intros [= <-]; [split; [apply sublist_nil_l|done]|].
    split; [|done]. cbn -[sideTable csvName arrayToCsv]. apply sublist_skip.
    rewrite !fmap_app.
    apply (sublist_app _ [_]); [apply sideTable_names|].
    apply (sublist_app _ [_]); [apply sideTable_names|].
    apply (sublist_app _ [_]); [apply sideTable_names|].
    apply (sublist_app _ [_]); [apply sideTable_names|]. apply sideTable_names.
  - unfold processFactsFile. destruct (openSheet _ _ _ _) as [[raw i]|m]; [|done].
    by destruct (factsOf _); intros [= <-]; [split; [apply sublist_nil_l|done]|].
  - unfold processStoreItemsFile. destruct (openSheet _ _ _ _) as [[raw i]|m]; [|done].
    destruct (storeItemsOf _) as [[|item items] sup]; intros [= <-];
      [split; [apply sublist_nil_l|done]|].
    split; [|done]. cbn -[csvName arrayToCsv]. apply sublist_skip.
    destruct (_ && _); simpl; [done|]. apply sublist_nil_l.
  - unfold processStoresFile. destruct (openSheet _ _ _ _) as [[raw i]|m]; [|done].
    by destruct (List.filter _ _); intros [= <-]; [split; [apply sublist_nil_l|done]|].
  - done.
  - done.
  - intros [= <-]. split; [apply sublist_nil_l|done].
Qed.

Lemma tablesOf_NoDup t : NoDup (csvName <$> tablesOf t).
Proof.
  apply NoDup_fmap_2; [exact csvName_inj|].
  destruct t; simpl; repeat (apply NoDup_cons; split; [unlisted|]); apply NoDup_nil_2.
Qed.

(** X8. The files of a successful run are named after the tables of the
    detected type with the date of the day, in the fixed order of the
    tables and with no name twice; when there is any file the first is that
    of the main table. *)
Theorem file_names wb options :
  match (generateCsvsFromExcel wb options).2 with
  | Throw _ => True
  | Ok (files, t) =>
      name <$> files `sublist_of` csvName <$> tablesOf t
      ∧ NoDup (name <$> files)
      ∧ head (name <$> files) = (if bool_decide (files = []) then None
                                 else head (csvName <$> tablesOf t))
  end.
Proof.
  unfold generateCsvsFromExcel. destruct (detectFileType wb) as [t n].
  destruct (_ || _); [done|].
  pose proof (dispatch_names wb t (default "" n) options) as H.
  destruct (dispatch wb t (default "" n) options) as [events [files|msg]]; [|done].
  simpl in *. destruct (H files eq_refl) as [Hsub Hhead].
  split; [done|]. split; [|done].
  eapply sublist_NoDup; [apply tablesOf_NoDup|done].
Qed.

(** ** Registration under a key: the first bearer wins *)

Section Registration.
Context {A V : Type} (key : A → option string) (mk : A → V).

Lemma entryOf_keys (l : list (string * A)) : (entryOf mk <$> l).*1 = l.*1.
Proof. rewrite <- list_fmap_compose. apply list_fmap_ext. by intros i [k x] _. Qed.

Lemma register_fold rows : ∀ m,
  fold_left (register key mk) rows m
  = m ++ (entryOf mk <$> filter (λ p, p.1 ∉ m.*1) (firstByKey key rows)).
Proof.
  induction rows as [|row rows IH]; intros m; simpl.
  { by rewrite app_nil_r. }
  unfold register at 2.
  destruct (key row) as [k|] eqn:E; [|apply IH].
  rewrite has_get. destruct (JsMap.get m k) eqn:Hg; rewrite IH.
  - assert (k ∈ m.*1) as Hk.
    { destruct (decide (k ∈ m.*1)) as [|Hn]; [done|].
      apply get_None in Hn. congruence. }
    rewrite filter_cons_False by (simpl; tauto).
    rewrite list_filter_filter. do 2 f_equal.
    apply list_filter_iff. intros [k' x]. simpl. split; [|tauto].
    intros H. split; [done|]. by intros ->.
  - apply get_None in Hg.
    rewrite filter_cons_True by done. simpl.
    rewrite <- app_assoc. simpl. do 3 f_equal.
    rewrite list_filter_filter.
    apply list_filter_iff. intros [k' x]. simpl.
    rewrite fmap_app, elem_of_app. simpl. rewrite list_elem_of_singleton.
    split.
    + intros H. split; [tauto|]. intros ->. tauto.
    + intros [H1 H2] [?|?]; [done|by subst].
Qed.

Lemma register_firstByKey rows :
  fold_left (register key mk) rows [] = entryOf mk <$> firstByKey key rows.
Proof.
  rewrite register_fold. simpl. f_equal.
  induction (firstByKey key rows) as [|p l IH]; [done|].
  rewrite filter_cons_True by (simpl; apply not_elem_of_nil). by rewrite IH.
Qed.

Lemma get_entries_filter (l : list (string * A)) k k' :
  k' ≠ k →
  JsMap.get (entryOf mk <$> filter (λ p, p.1 ≠ k') l) k = JsMap.get (entryOf mk <$> l) k.
Proof.
  intros Hne. induction l as [|[k2 x] l IH]; [done|].
  rewrite filter_cons. simpl. destruct (decide (k2 ≠ k')) as [H|H].
  - simpl. by destruct (decide (k2 = k)).
  - apply dec_stable in H. subst k2. by rewrite decide_False.
Qed.

(** The entry of a key is made from the first element that bears it. *)
Lemma firstByKey_get rows k v :
  JsMap.get (entryOf mk <$> firstByKey key rows) k = Some v
  ↔ ∃ i x, rows !! i = Some x ∧ key x = Some k ∧ v = mk x
           ∧ ∀ j y, (j < i)%nat → rows !! j = Some y → key y ≠ Some k.
Proof.
  induction rows as [|y rows IH]; simpl.
  { split; [done|]. by intros (i & x & ? & _). }
  assert ((∃ i x, rows !! i = Some x ∧ key x = Some k ∧ v = mk x
            ∧ ∀ j z, (j < i)%nat → rows !! j = Some z → key z ≠ Some k)
          → key y ≠ Some k
          → ∃ i x, (y :: rows) !! i = Some x ∧ key x = Some k ∧ v = mk x
            ∧ ∀ j z, (j < i)%nat → (y :: rows) !! j = Some z → key z ≠ Some k) as Hshift.
  { intros (i & x & Hi & Hk & Hv & Hfirst) Hy. exists (S i), x.
    repeat split; try done. intros [|j] z Hj Hz; simpl in Hz.
    - by injection Hz as <-.
    - apply (Hfirst j); [lia|done]. }
  assert ((∃ i x, (y :: rows) !! i = Some x ∧ key x = Some k ∧ v = mk x
            ∧ ∀ j z, (j < i)%nat → (y :: rows) !! j = Some z → key z ≠ Some k)
          → key y ≠ Some k
          → ∃ i x, rows !! i = Some x ∧ key x = Some k ∧ v = mk x
            ∧ ∀ j z, (j < i)%nat → rows !! j = Some z → key z ≠ Some k) as Hunshift.
  { intros (i & x & Hi & Hk & Hv & Hfirst) Hy. destruct i as [|i]; simpl in Hi.
    - injection Hi as ->. done.
    - exists i, x. repeat split; try done.
      intros j z Hj Hz. apply (Hfirst (S j)); [lia|done]. }
  destruct (key y) as [k'|] eqn:E.
  - simpl. destruct (decide (k' = k)) as [->|Hne].
    + split.
      * intros [= <-]. exists O, y. repeat split; try done. intros; lia.
      * intros (i & x & Hi & Hk & Hv & Hfirst). destruct i as [|i]; simpl in Hi.
        -- injection Hi as ->. by subst v.
        -- exfalso. by apply (Hfirst O y); [lia| |].
    + rewrite get_entries_filter by done. rewrite IH. split.
      * intros H. apply Hshift; [done|]. congruence.
      * intros H. apply Hunshift; [done|]. congruence.
  - rewrite IH. split.
    + intros H. by apply Hshift.
    + intros H. by apply Hunshift.
Qed.

End Registration.

(** ** Store items: the suppliers *)

Lemma suppliers_fold rows : ∀ itemsData suppliersMap,
  (fold_left storeItemsStep rows (itemsData, suppliersMap)).2
  = fold_left (register supplierKey supplierOfRow) rows suppliersMap.
Proof.
  induction rows as [|row rows IH]; intros itemsData suppliersMap; [done|].
  simpl. unfold register at 2. unfold supplierKey, qualifies.
  destruct (truthy (prop row "Store UID*") && truthy (prop row "Product UID*")); simpl;
    [|apply IH].
  destruct (truthy (prop row "Supplier UID")); simpl; [|apply IH].
  rewrite has_get. destruct (JsMap.get suppliersMap _) eqn:Hg; simpl; [apply IH|].
  rewrite (set_absent _ _ _ Hg). apply IH.
Qed.

Lemma suppliers_firstByKey rows :
  (storeItemsOf rows).2 = entryOf supplierOfRow <$> firstByKey supplierKey rows.
Proof. unfold storeItemsOf. by rewrite suppliers_fold, register_firstByKey. Qed.

(** X9. The supplier table of a store-items file has one entry per
    distinct string form of a Supplier UID among the rows that give an item
    record; the entry is made from the first such row (later rows with the
    same key change nothing, whatever their Supplier name); and every item
    record with a truthy supplier reference finds its supplier in the
    table. *)
Theorem suppliers_first_row rows :
  NoDup (storeItemsOf rows).2.*1
  ∧ (∀ k s,
       JsMap.get (storeItemsOf rows).2 k = Some s
       ↔ ∃ i row, rows !! i = Some row ∧ supplierKey row = Some k ∧ s = supplierOfRow row
                  ∧ ∀ j row', (j < i)%nat → rows !! j = Some row' →
                      supplierKey row' ≠ Some k)
  ∧ (∀ item, item ∈ (storeItemsOf rows).1 →
       truthy (StoreItem.external_supplier_uid item) = true →
       JsMap.has (storeItemsOf rows).2 (toStr (StoreItem.external_supplier_uid item)) = true).
Proof.
  rewrite suppliers_firstByKey. split; [|split].
  - rewrite entryOf_keys. apply firstByKey_NoDup.
  - intros k s. apply firstByKey_get.
  - intros item Hitem Hsup.
    unfold storeItemsOf in Hitem. rewrite storeItemsOf_fold in Hitem. simpl in Hitem.
    apply list_elem_of_fmap in Hitem as (row & -> & Hrow).
    apply list_elem_of_In, List.filter_In in Hrow as [Hrow Hq].
    apply list_elem_of_In in Hrow. simpl in *.
    rewrite has_get.
    destruct (JsMap.get _ _) eqn:Hg; [done|]. exfalso.
    apply get_None in Hg. apply Hg. rewrite entryOf_keys.
    apply firstByKey_keys. exists row. split; [done|].
    unfold supplierKey. by rewrite Hq, Hsup.
Qed.

(** ** Item master, first format: the tables are consistent *)

Lemma has_keys {V} (m : list (string * V)) k : JsMap.has m k = true ↔ k ∈ m.*1.
Proof.
  rewrite has_get. destruct (JsMap.get m k) eqn:E.
  - split; [|done]. intros _. destruct (decide (k ∈ m.*1)) as [|Hn]; [done|].
    apply get_None in Hn. congruence.
  - apply get_None in E. split; [done|]. by intros ?.
Qed.

Lemma has_absent {V} (m : list (string * V)) k : JsMap.has m k = false ↔ k ∉ m.*1.
Proof. rewrite <- has_keys. by destruct (JsMap.has m k). Qed.

Lemma setAdd_elem s x y : y ∈ setAdd s x ↔ y ∈ s ∨ y = x.
Proof.
  unfold setAdd. destruct (bool_decide (x ∈ s)) eqn:E.
  - apply bool_decide_eq_true in E. split; [by left|]. by intros [?| ->].
  - rewrite elem_of_app, list_elem_of_singleton. tauto.
Qed.

Lemma setAdd_NoDup s x : NoDup s → NoDup (setAdd s x).
Proof.
  intros Hs. unfold setAdd. destruct (bool_decide (x ∈ s)) eqn:E; [done|].
  apply bool_decide_eq_false in E. apply NoDup_app. split; [done|].
  split; [|apply NoDup_singleton]. intros y Hy ->%list_elem_of_singleton. done.
Qed.

Lemma get_app_l {V} (m m' : list (string * V)) k v :
  JsMap.get m k = Some v → JsMap.get (m ++ m') k = Some v.
Proof.
  induction m as [|[k' v'] m IH]; [done|]. simpl.
  by destruct (decide (k' = k)).
Qed.

Lemma categoryStepV1_cases row seen index levelName :
  categoryStepV1 row seen (index, levelName)
  = if truthy (prop row (levelName +:+ " Code"))
       && negb (JsMap.has seen (toStr (prop row (levelName +:+ " Code"))))
    then seen ++ [(toStr (prop row (levelName +:+ " Code")),
                   {| Category.erp_category_uid := prop row (levelName +:+ " Code");
                      Category.name := prop row (levelName +:+ " Description");
                      Category.parent_category_uid := parentCodeV1 row index |})]
    else seen.
Proof.
  unfold categoryStepV1, parentCodeV1.
  destruct (truthy (prop row (levelName +:+ " Code"))); simpl; [|done].
  rewrite has_get. destruct (JsMap.get seen _) eqn:E; simpl; [done|].
  rewrite (set_absent _ _ _ E). by destruct (if (0 <? index)%nat then _ else _).
Qed.

(** One level keeps the map closed, keeps its entries, and leaves the
    code of the level registered. *)
Lemma categoryStepV1_closed row seen index levelName :
  categoriesClosed truthy seen →
  (truthy (parentCodeV1 row index) = true → toStr (parentCodeV1 row index) ∈ seen.*1) →
  categoriesClosed truthy (categoryStepV1 row seen (index, levelName))
  ∧ (∀ k e, JsMap.get seen k = Some e →
       JsMap.get (categoryStepV1 row seen (index, levelName)) k = Some e)
  ∧ (∀ k, k ∈ seen.*1 → k ∈ (categoryStepV1 row seen (index, levelName)).*1)
  ∧ (truthy (prop row (levelName +:+ " Code")) = true →
     toStr (prop row (levelName +:+ " Code"))
     ∈ (categoryStepV1 row seen (index, levelName)).*1).
Proof.
  intros [Hnd Hent] Hparent. rewrite categoryStepV1_cases.
  destruct (truthy (prop row (levelName +:+ " Code"))) eqn:Ht; simpl;
    [|by split; [split|split; [|split]]].
  destruct (JsMap.has seen _) eqn:Hh; simpl.
  { split; [by split|]. split; [done|]. split; [done|]. intros _. by apply has_keys. }
  apply has_absent in Hh. split; [split|split; [|split]].
  - rewrite fmap_app. apply NoDup_app. split; [done|].
    split; [|apply NoDup_singleton]. by intros k Hk ->%list_elem_of_singleton.
  - intros k e [Hin|Hin]%elem_of_app.
    + destruct (Hent k e Hin) as (? & ? & Hp). repeat split; try done.
      intros Hpt. rewrite fmap_app, elem_of_app. left. by apply Hp.
    + apply list_elem_of_singleton in Hin. injection Hin as -> ->. simpl.
      repeat split; try done.
      intros Hpt. rewrite fmap_app, elem_of_app. left. by apply Hparent.
  - intros k e Hg. by apply get_app_l.
  - intros k Hk. rewrite fmap_app, elem_of_app. by left.
  - intros _. rewrite fmap_app, elem_of_app. right. by apply list_elem_of_singleton.
Qed.

(** The four levels of a row. *)
Lemma categoriesV1_closed row seen :
  categoriesClosed truthy seen →
  categoriesClosed truthy (fold_left (categoryStepV1 row) (imap pair levelNames) seen)
  ∧ (∀ k e, JsMap.get seen k = Some e →
       JsMap.get (fold_left (categoryStepV1 row) (imap pair levelNames) seen) k = Some e)
  ∧ (∀ k, k ∈ seen.*1 →
       k ∈ (fold_left (categoryStepV1 row) (imap pair levelNames) seen).*1)
  ∧ (truthy (prop row "Brick Code") = true →
     toStr (prop row "Brick Code")
     ∈ (fold_left (categoryStepV1 row) (imap pair levelNames) seen).*1).
Proof.
  intros H0. simpl.
  destruct (categoryStepV1_closed row seen 0 "Segment" H0) as (H1 & G1 & M1 & R1); [done|].
  destruct (categoryStepV1_closed row _ 1 "Family" H1) as (H2 & G2 & M2 & R2); [exact R1|].
  destruct (categoryStepV1_closed row _ 2 "Class" H2) as (H3 & G3 & M3 & R3); [exact R2|].
  destruct (categoryStepV1_closed row _ 3 "Brick" H3) as (H4 & G4 & M4 & R4); [exact R3|].
  split; [exact H4|]. split; [|split; [|exact R4]].
  - intros k e Hg. by apply G4, G3, G2, G1.
  - intros k Hk. by apply M4, M3, M2, M1.
Qed.

Lemma itemMasterStep_consistent st row :
  consistentV1 st → consistentV1 (itemMasterStep st row).
Proof.
  intros [Hseen Hbar Hdim Hbrand Hman Hcat Hbd Hmd Hcc].
  unfold itemMasterStep. destruct (uidOfRow row) as [uid|] eqn:Euid; [|by split].
  destruct (categoriesV1_closed row _ Hcc) as (Hcc' & _ & Hmono & Hbrick).
  assert (∀ x, x ∈ MasterItem.item_uid <$> masteritemsData st →
            x ∈ MasterItem.item_uid <$>
                  (if negb (bool_decide (uid ∈ seenUids st))
                   then masteritemsData st ++
                        [masterItemOfRow uid row
                           (mainUnitUid uid row (prop row "Main Unit UID"))]
                   else masteritemsData st)) as Hkeep.
  { intros x Hx. destruct (negb _); [|done]. rewrite fmap_app, elem_of_app. by left. }
  assert (uid ∈ MasterItem.item_uid <$>
                  (if negb (bool_decide (uid ∈ seenUids st))
                   then masteritemsData st ++
                        [masterItemOfRow uid row
                           (mainUnitUid uid row (prop row "Main Unit UID"))]
                   else masteritemsData st)) as Huid.
  { destruct (bool_decide (uid ∈ seenUids st)) eqn:E; simpl.
    - apply bool_decide_eq_true in E. by apply Hseen.
    - rewrite fmap_app, elem_of_app. right. simpl. by apply list_elem_of_singleton. }
  assert (∀ item,
            item ∈ (if negb (bool_decide (uid ∈ seenUids st))
                    then masteritemsData st ++
                         [masterItemOfRow uid row
                            (mainUnitUid uid row (prop row "Main Unit UID"))]
                    else masteritemsData st) →
            item ∈ masteritemsData st
            ∨ item = masterItemOfRow uid row
                       (mainUnitUid uid row (prop row "Main Unit UID"))) as Hitem.
  { intros item. destruct (negb _); [|by left].
    rewrite elem_of_app, list_elem_of_singleton. tauto. }
  split; simpl.
  - intros x. destruct (bool_decide (uid ∈ seenUids st)) eqn:E; simpl.
    + apply Hseen.
    + rewrite elem_of_union, elem_of_singleton. intros [->|Hx].
      * exact Huid.
      * rewrite fmap_app, elem_of_app. left. by apply Hseen.
  - intros b. destruct (truthy (prop row "Barcode")).
    + intros [Hb|Hb]%elem_of_app; [by apply Hkeep, Hbar|].
      apply list_elem_of_singleton in Hb. by subst b.
    + intros Hb. by apply Hkeep, Hbar.
  - intros d. destruct (truthy (prop row "Unit")).
    + intros [Hd|Hd]%elem_of_app; [by apply Hkeep, Hdim|].
      apply list_elem_of_singleton in Hd. by subst d.
    + intros Hd. by apply Hkeep, Hdim.
  - intros item [Hi| ->]%Hitem Ht.
    + destruct (truthy (prop row "Brand")); [|by apply Hbrand].
      apply setAdd_elem. left. by apply Hbrand.
    + simpl in *. rewrite Ht. apply setAdd_elem. by right.
  - intros item [Hi| ->]%Hitem Ht.
    + destruct (truthy (prop row "Manufacturer")); [|by apply Hman].
      apply setAdd_elem. left. by apply Hman.
    + simpl in *. rewrite Ht. apply setAdd_elem. by right.
  - intros item [Hi| ->]%Hitem Ht.
    + by apply Hmono, Hcat.
    + by apply Hbrick.
  - destruct (truthy (prop row "Brand")); [by apply setAdd_NoDup|done].
  - destruct (truthy (prop row "Manufacturer")); [by apply setAdd_NoDup|done].
  - done.
Qed.

Lemma itemMaster_consistent rows : ∀ st,
  consistentV1 st → consistentV1 (fold_left itemMasterStep rows st).
Proof.
  induction rows as [|row rows IH]; intros st Hst; [done|].
  simpl. by apply IH, itemMasterStep_consistent.
Qed.

Lemma emptyItemMasterState_consistent : consistentV1 emptyItemMasterState.
Proof.
  split; simpl; try (by intros ? ?%elem_of_nil); try apply NoDup_nil_2.
  - intros uid. by rewrite elem_of_empty.
  - split; [apply NoDup_nil_2|]. by intros ? ? ?%elem_of_nil.
Qed.

(** X10. In the tables of the first item-master format every reference
    resolves: each barcode record and each dimension record carries the id
    of an item record, and each item record with a truthy brand,
    manufacturer or category reference finds the string form of it in the
    brand set, the manufacturer set or the keys of the category map. *)
Theorem item_master_references rows :
  (∀ b, b ∈ barcodesData (itemMasterOf rows) →
     Barcode.item_uid b ∈ MasterItem.item_uid <$> masteritemsData (itemMasterOf rows))
  ∧ (∀ d, d ∈ dimensionsData (itemMasterOf rows) →
       Dimension.item_uid d ∈ MasterItem.item_uid <$> masteritemsData (itemMasterOf rows))
  ∧ (∀ item, item ∈ masteritemsData (itemMasterOf rows) →
       (truthy (MasterItem.brand_uid item) = true →
        toStr (MasterItem.brand_uid item) ∈ seenBrands (itemMasterOf rows))
       ∧ (truthy (MasterItem.manufacturer_uid item) = true →
          toStr (MasterItem.manufacturer_uid item) ∈ seenManufacturers (itemMasterOf rows))
       ∧ (truthy (MasterItem.erp_category_uid item) = true →
          JsMap.has (seenErpCategories (itemMasterOf rows))
            (toStr (MasterItem.erp_category_uid item)) = true)).
Proof.
  destruct (itemMaster_consistent rows _ emptyItemMasterState_consistent)
    as [_ Hbar Hdim Hbrand Hman Hcat _ _ _].
  fold (itemMasterOf rows) in *.
  split; [exact Hbar|]. split; [exact Hdim|].
  intros item Hitem. split; [by apply Hbrand|]. split; [by apply Hman|].
  intros Ht. apply has_keys. by apply Hcat.
Qed.

Lemma itemMaster_categories_kept rows : ∀ st k e,
  categoriesClosed truthy (seenErpCategories st) →
  JsMap.get (seenErpCategories st) k = Some e →
  categoriesClosed truthy (seenErpCategories (fold_left itemMasterStep rows st))
  ∧ JsMap.get (seenErpCategories (fold_left itemMasterStep rows st)) k = Some e.
Proof.
  induction rows as [|row rows IH]; intros st k e Hc Hg; [done|].
  simpl. apply IH.
  - unfold itemMasterStep. destruct (uidOfRow row); [|done]. simpl.
    by apply categoriesV1_closed.
  - unfold itemMasterStep. destruct (uidOfRow row); [|done]. simpl.
    by apply categoriesV1_closed.
Qed.

(** X11. The category map of the first item-master format: every entry
    sits under the string form of its own truthy code, no key occurs twice,
    and a truthy parent code is itself a key of the map; an entry, once
    registered, is never changed by the rows that follow (name and parent
    stay those of the first row that bore the code). *)
Theorem item_master_categories_first_row rows :
  categoriesClosed truthy (seenErpCategories (itemMasterOf rows))
  ∧ ∀ more k e,
      JsMap.get (seenErpCategories (itemMasterOf rows)) k = Some e →
      JsMap.get (seenErpCategories (itemMasterOf (rows ++ more))) k = Some e.
Proof.
  pose proof (categories_closed _
    (itemMaster_consistent rows _ emptyItemMasterState_consistent)) as Hc.
  fold (itemMasterOf rows) in Hc. split; [done|].
  intros more k e Hg. unfold itemMasterOf. rewrite fold_left_app.
  by apply itemMaster_categories_kept.
Qed.

Lemma itemMaster_seen (col : string) (seen : ItemMasterState → list string) :
  (∀ st row, seen (itemMasterStep st row)
             = match uidOfRow row with
               | Some _ =>
                   if truthy (prop row col) then setAdd (seen st) (toStr (prop row col))
                   else seen st
               | None => seen st
               end) →
  ∀ rows st b,
    b ∈ seen (fold_left itemMasterStep rows st)
    ↔ b ∈ seen st
      ∨ ∃ row, row ∈ rows ∧ is_Some (uidOfRow row)
               ∧ truthy (prop row col) = true ∧ b = toStr (prop row col).
Proof.
  intros Hstep. induction rows as [|row rows IH]; intros st b; simpl.
  { split; [by left|]. intros [?|(row & ?%elem_of_nil & _)]; done. }
  rewrite IH, Hstep. clear IH. split.
  - intros [Hb|(row' & Hin & H)].
    + destruct (uidOfRow row) as [uid|] eqn:Eu; [|by left].
      destruct (truthy (prop row col)) eqn:Et; [|by left].
      apply setAdd_elem in Hb as [Hb| ->]; [by left|].
      right. exists row. rewrite Eu. split; [apply elem_of_cons; by left|].
      split; [by eexists|done].
    + right. exists row'. split; [apply elem_of_cons; by right|done].
  - intros [Hb|(row' & [->|Hin]%elem_of_cons & [uid Hu] & Ht & ->)].
    + left. destruct (uidOfRow row); [|done].
      destruct (truthy (prop row col)); [|done]. apply setAdd_elem. by left.
    + left. rewrite Hu, Ht. apply setAdd_elem. by right.
    + right. exists row'. split; [done|]. split; [by exists uid|done].
Qed.

(** X12. The brand table and the manufacturer table of the first
    item-master format hold no value twice, and hold exactly the string
    forms of the truthy Brand (Manufacturer) cells of the rows with a usable
    item id: also of the rows whose item id was seen before and that add no
    item record. *)
Theorem item_master_brand_set rows :
  NoDup (seenBrands (itemMasterOf rows))
  ∧ NoDup (seenManufacturers (itemMasterOf rows))
  ∧ (∀ b, b ∈ seenBrands (itemMasterOf rows)
          ↔ ∃ row, row ∈ rows ∧ is_Some (uidOfRow row)
                   ∧ truthy (prop row "Brand") = true ∧ b = toStr (prop row "Brand"))
  ∧ (∀ m, m ∈ seenManufacturers (itemMasterOf rows)
          ↔ ∃ row, row ∈ rows ∧ is_Some (uidOfRow row)
                   ∧ truthy (prop row "Manufacturer") = true
                   ∧ m = toStr (prop row "Manufacturer")).
Proof.
  destruct (itemMaster_consistent rows _ emptyItemMasterState_consistent)
    as [_ _ _ _ _ _ Hb Hm _].
  split; [exact Hb|]. split; [exact Hm|]. unfold itemMasterOf. split.
  - intros b. rewrite (itemMaster_seen "Brand" seenBrands).
    + simpl. rewrite elem_of_nil. tauto.
    + intros st row. unfold itemMasterStep. by destruct (uidOfRow row).
  - intros m. rewrite (itemMaster_seen "Manufacturer" seenManufacturers).
    + simpl. rewrite elem_of_nil. tauto.
    + intros st row. unfold itemMasterStep. by destruct (uidOfRow row).
Qed.

(** ** Item master, first format: one item record per id, side records
    of every row *)

















(** ** Item master, second format: one record per row *)

Lemma itemMasterV2_barcodes rows : ∀ st,
  barcodesDataV2 (fold_left itemMasterV2Step rows st)
  = barcodesDataV2 st
    ++ (barcodeV2OfRow <$> List.filter (λ row, truthy (prop row "Barcode")) rows).
Proof.
  induction rows as [|row rows IH]; intros st; simpl.
  { by rewrite app_nil_r. }
  rewrite IH. simpl. destruct (truthy (prop row "Barcode")); [|done].
  by rewrite <- app_assoc.
Qed.

Lemma itemMasterV2_dimensions rows : ∀ st,
  dimensionsDataV2 (fold_left itemMasterV2Step rows st)
  = dimensionsDataV2 st
    ++ (dimensionV2OfRow <$> List.filter (λ row, truthy (prop row "Unit")) rows).
Proof.
  induction rows as [|row rows IH]; intros st; simpl.
  { by rewrite app_nil_r. }
  rewrite IH. simpl. destruct (truthy (prop row "Unit")); [|done].
  by rewrite <- app_assoc.
Qed.

(** X13. The second item-master format does not merge rows: the item
    table has one record per row that passed the filter on the primary id,
    in the order of the rows, so an id that occurs on several rows occurs on
    as many item records; the barcode table has one record per row with a
    truthy Barcode and the dimension table one per row with a truthy Unit,
    whose dimension_uid is the main_unit_uid of the item record of the same
    row. *)
Theorem item_master_v2_row_per_row rows :
  masteritemsDataV2 (itemMasterV2Of rows)
  = (λ row, masterItemV2OfRow row (mainUnitV2 row)) <$> rows
  ∧ MasterItemV2.item_uid <$> masteritemsDataV2 (itemMasterV2Of rows)
    = (λ row, toStr (prop row "UID*")) <$> rows
  ∧ barcodesDataV2 (itemMasterV2Of rows)
    = barcodeV2OfRow <$> List.filter (λ row, truthy (prop row "Barcode")) rows
  ∧ dimensionsDataV2 (itemMasterV2Of rows)
    = dimensionV2OfRow <$> List.filter (λ row, truthy (prop row "Unit")) rows
  ∧ ∀ row, DimensionV2.dimension_uid (dimensionV2OfRow row)
           = MasterItemV2.main_unit_uid (masterItemV2OfRow row (mainUnitV2 row)).
Proof.
  unfold itemMasterV2Of.
  rewrite itemMasterV2_items, itemMasterV2_barcodes, itemMasterV2_dimensions. simpl.
  split; [done|]. split; [|done].
  rewrite <- list_fmap_compose. by apply list_fmap_ext.
Qed.

(** ** Item master, second format: the references resolve *)

Lemma registerParty_register uidCol nameCol m row :
  registerParty m (effectiveUid (prop row uidCol) (prop row nameCol)) (prop row nameCol)
  = register (partyKey uidCol nameCol) (partyOfRow uidCol nameCol) m row.
Proof.
  unfold registerParty, register, partyKey.
  destruct (notNull (effectiveUid _ _)); [|done].
  rewrite has_get. destruct (JsMap.get m _) eqn:E; simpl; [done|].
  by rewrite (set_absent _ _ _ E).
Qed.

Lemma brandsMap_register rows : ∀ st,
  brandsMap (fold_left itemMasterV2Step rows st)
  = fold_left (register (partyKey "Brand UID" "Brand") (partyOfRow "Brand UID" "Brand"))
      rows (brandsMap st).
Proof.
  induction rows as [|row rows IH]; intros st; simpl; [done|].
  rewrite IH. simpl. by rewrite registerParty_register.
Qed.

Lemma manufacturersMap_register rows : ∀ st,
  manufacturersMap (fold_left itemMasterV2Step rows st)
  = fold_left (register (partyKey "Manufacturer UID" "Manufacturer")
                 (partyOfRow "Manufacturer UID" "Manufacturer"))
      rows (manufacturersMap st).
Proof.
  induction rows as [|row rows IH]; intros st; simpl; [done|].
  rewrite IH. simpl. by rewrite registerParty_register.
Qed.

Lemma party_registered uidCol nameCol rows row :
  row ∈ rows →
  notNull (effectiveUid (prop row uidCol) (prop row nameCol)) = true →
  JsMap.has (fold_left (register (partyKey uidCol nameCol) (partyOfRow uidCol nameCol))
               rows [])
    (toStr (effectiveUid (prop row uidCol) (prop row nameCol))) = true.
Proof.
  intros Hrow Hn. rewrite register_firstByKey. apply has_keys.
  rewrite entryOf_keys. apply firstByKey_keys. exists row. split; [done|].
  unfold partyKey. by rewrite Hn.
Qed.

Lemma set_keys_elem {V} (m : list (string * V)) k v k' :
  k' ∈ (JsMap.set m k v).*1 ↔ k' ∈ m.*1 ∨ k' = k.
Proof.
  induction m as [|[k2 v2] m IH]; simpl.
  { rewrite list_elem_of_singleton, elem_of_nil. tauto. }
  destruct (decide (k2 = k)) as [->|Hne]; csimpl; rewrite !elem_of_cons.
  - tauto.
  - rewrite IH. tauto.
Qed.

Lemma set_NoDup {V} (m : list (string * V)) k v :
  NoDup m.*1 → NoDup (JsMap.set m k v).*1.
Proof.
  induction m as [|[k2 v2] m IH]; simpl.
  { intros _. apply NoDup_singleton. }
  csimpl. intros [Hk Hm]%NoDup_cons.
  destruct (decide (k2 = k)) as [->|Hne]; csimpl.
  - by apply NoDup_cons.
  - apply NoDup_cons. split; [|by apply IH].
    rewrite set_keys_elem. intros [?|?]; [done|]. by subst.
Qed.

Lemma set_elem {V} (m : list (string * V)) k v k' e :
  (k', e) ∈ JsMap.set m k v → (k' = k ∧ e = v) ∨ (k', e) ∈ m.
Proof.
  induction m as [|[k2 v2] m IH]; simpl.
  { intros [= -> ->]%list_elem_of_singleton. by left. }
  destruct (decide (k2 = k)) as [->|Hne]; rewrite !elem_of_cons.
  - intros [[= -> ->]|?]; [by left|]. right. by right.
  - intros [?|H]; [right; by left|]. destruct (IH H) as [?|?]; [by left|].
    right. by right.
Qed.

(** One level keeps the map closed and its keys, leaves the id of the
    level registered, and hands a registered id to the next level. *)
Lemma categoryStepV2_closed row m prev level :
  categoriesClosed notNull m →
  (notNull prev = true → toStr prev ∈ m.*1) →
  categoriesClosed notNull (categoryStepV2 row (m, prev) level).1
  ∧ (notNull (categoryStepV2 row (m, prev) level).2 = true →
     toStr (categoryStepV2 row (m, prev) level).2
     ∈ (categoryStepV2 row (m, prev) level).1.*1)
  ∧ (∀ k, k ∈ m.*1 → k ∈ (categoryStepV2 row (m, prev) level).1.*1)
  ∧ (notNull (effectiveAt row level) = true →
     toStr (effectiveAt row level) ∈ (categoryStepV2 row (m, prev) level).1.*1).
Proof.
  intros [Hnd Hent] Hprev. unfold categoryStepV2. fold (effectiveAt row level).
  destruct (notNull (effectiveAt row level)) eqn:Hn; simpl;
    [|by split; [split|split; [|split]]].
  set (entry := {| Category.erp_category_uid := effectiveAt row level;
                   Category.name := prop row (catNameCol level);
                   Category.parent_category_uid := prev |}).
  assert (toStr (effectiveAt row level) ∈ (JsMap.set m (toStr (effectiveAt row level)) entry).*1)
    as Hkey by (apply set_keys_elem; by right).
  assert (categoriesClosed notNull (JsMap.set m (toStr (effectiveAt row level)) entry))
    as Hset.
  { split; [by apply set_NoDup|].
    intros k e [[-> ->]|Hin]%set_elem; simpl.
    - split; [done|]. split; [done|]. intros Hp. apply set_keys_elem. left. by apply Hprev.
    - destruct (Hent k e Hin) as (? & ? & Hp). split; [done|]. split; [done|].
      intros Hpt. apply set_keys_elem. left. by apply Hp. }
  destruct (JsMap.get m (toStr (effectiveAt row level))) as [existing|] eqn:Hg.
  - assert (toStr (effectiveAt row level) ∈ m.*1) as Hin.
    { destruct (decide (toStr (effectiveAt row level) ∈ m.*1)) as [|Hno]; [done|].
      apply get_None in Hno. congruence. }
    destruct (negb (notNull (Category.name existing)) && notNull (prop row (catNameCol level))).
    + split; [done|]. split; [done|]. split; [|done].
      intros k Hk. apply set_keys_elem. by left.
    + split; [by split|]. split; [done|]. split; done.
  - split; [done|]. split; [done|]. split; [|done].
    intros k Hk. apply set_keys_elem. by left.
Qed.

Lemma categoriesV2_closed row levels : ∀ m prev,
  categoriesClosed notNull m →
  (notNull prev = true → toStr prev ∈ m.*1) →
  categoriesClosed notNull (fold_left (categoryStepV2 row) levels (m, prev)).1
  ∧ (∀ k, k ∈ m.*1 → k ∈ (fold_left (categoryStepV2 row) levels (m, prev)).1.*1)
  ∧ (∀ level, level ∈ levels → notNull (effectiveAt row level) = true →
       toStr (effectiveAt row level)
       ∈ (fold_left (categoryStepV2 row) levels (m, prev)).1.*1).
Proof.
  induction levels as [|level levels IH]; intros m prev Hm Hprev; cbn [fold_left].
  { split; [done|]. split; [done|]. by intros ? ?%elem_of_nil. }
  destruct (categoryStepV2_closed row m prev level Hm Hprev) as (Hc & Hp & Hmono & Hreg).
  destruct (categoryStepV2 row (m, prev) level) as [m' prev']. cbn [fst snd] in *.
  destruct (IH m' prev' Hc Hp) as (Hc' & Hmono' & Hreg').
  split; [done|]. split; [by intros k Hk; apply Hmono', Hmono|].
  intros l [->|Hl]%elem_of_cons Hn.
  - by apply Hmono', Hreg.
  - by apply Hreg'.
Qed.

Lemma registerCategories_closed row m :
  categoriesClosed notNull m →
  categoriesClosed notNull (registerCategories row m)
  ∧ (∀ k, k ∈ m.*1 → k ∈ (registerCategories row m).*1)
  ∧ (∀ level, (1 ≤ level ≤ 6)%nat → notNull (effectiveAt row level) = true →
       toStr (effectiveAt row level) ∈ (registerCategories row m).*1).
Proof.
  intros Hm. unfold registerCategories.
  destruct (categoriesV2_closed row [1; 2; 3; 4; 5; 6]%nat m VNull Hm) as (Hc & Hmono & Hreg);
    [done|].
  split; [done|]. split; [done|]. intros level Hl. apply Hreg.
  assert (level = 1 ∨ level = 2 ∨ level = 3 ∨ level = 4 ∨ level = 5 ∨ level = 6)%nat
    as Hcases by lia.
  destruct Hcases as [->|[->|[->|[->|[->| ->]]]]]; listed.
Qed.

Lemma categoriesV2_rows rows : ∀ m,
  categoriesClosed notNull m →
  categoriesClosed notNull (fold_left (λ m row, registerCategories row m) rows m)
  ∧ (∀ k, k ∈ m.*1 → k ∈ (fold_left (λ m row, registerCategories row m) rows m).*1)
  ∧ (∀ row level, row ∈ rows → (1 ≤ level ≤ 6)%nat →
       notNull (effectiveAt row level) = true →
       toStr (effectiveAt row level)
       ∈ (fold_left (λ m row, registerCategories row m) rows m).*1).
Proof.
  induction rows as [|row rows IH]; intros m Hm; simpl.
  { split; [done|]. split; [done|]. by intros ? ? ?%elem_of_nil. }
  destruct (registerCategories_closed row m Hm) as (Hc & Hmono & Hreg).
  destruct (IH _ Hc) as (Hc' & Hmono' & Hreg').
  split; [done|]. split; [by intros k Hk; apply Hmono', Hmono|].
  intros r level [->|Hr]%elem_of_cons Hl Hn.
  - by apply Hmono', Hreg.
  - by apply Hreg'.
Qed.

Lemma firstPopulated_cases row cols :
  (firstPopulated row cols = VNull ∧ ∀ c, c ∈ cols → nonBlank (prop row c) = false)
  ∨ ∃ c, c ∈ cols ∧ firstPopulated row cols = prop row c ∧ nonBlank (prop row c) = true.
Proof.
  unfold firstPopulated. induction cols as [|c cols IH]; simpl.
  { left. split; [done|]. by intros ? ?%elem_of_nil. }
  destruct (nonBlank (prop row c)) eqn:E; simpl.
  - right. exists c. split; [apply elem_of_cons; by left|done].
  - destruct IH as [[Hnull Hall]|(c' & Hin & Heq & Hc')].
    + left. split; [done|]. by intros c' [->|?]%elem_of_cons; [|apply Hall].
    + right. exists c'. split; [apply elem_of_cons; by right|done].
Qed.

(** The category of an item is the resolved id of one of the six levels
    of its row. *)
Lemma itemCategory_level row :
  notNull (itemCategory row) = true →
  ∃ level, (1 ≤ level ≤ 6)%nat ∧ effectiveAt row level = itemCategory row.
Proof.
  assert (∀ f (c : string), c ∈ f <$> [6; 5; 4; 3; 2; 1]%nat →
            ∃ level, (1 ≤ level ≤ 6)%nat ∧ c = f level) as Hlevel.
  { intros f c (level & -> & Hl)%list_elem_of_fmap. exists level. split; [|done].
    repeat (apply elem_of_cons in Hl as [->|Hl]; [lia|]). by apply elem_of_nil in Hl. }
  unfold itemCategory.
  destruct (firstPopulated_cases row (catUidCol <$> [6; 5; 4; 3; 2; 1]%nat))
    as [[Hnull Hall]|(c & Hin & -> & Hc)].
  - rewrite Hnull. cbn [notNull].
    destruct (firstPopulated_cases row (catNameCol <$> [6; 5; 4; 3; 2; 1]%nat))
      as [[Hnull' _]|(c & Hin & -> & Hc)]; [by rewrite Hnull'|].
    intros _. destruct (Hlevel _ _ Hin) as (level & Hl & ->).
    exists level. split; [done|]. unfold effectiveAt, effectiveUid.
    rewrite Hall, Hc; [done|]. apply list_elem_of_fmap. exists level. split; [done|].
    assert (level = 6 ∨ level = 5 ∨ level = 4 ∨ level = 3 ∨ level = 2 ∨ level = 1)%nat
      as Hcases by lia.
    destruct Hcases as [->|[->|[->|[->|[->| ->]]]]]; listed.
  - rewrite (nonBlank_notNull _ Hc). intros _.
    destruct (Hlevel _ _ Hin) as (level & Hl & ->).
    exists level. split; [done|]. unfold effectiveAt, effectiveUid. by rewrite Hc.
Qed.

Lemma emptyCategories_closed present : categoriesClosed present [].
Proof. split; [apply NoDup_nil_2|]. by intros ? ? ?%elem_of_nil. Qed.

(** X14. In the tables of the second item-master format every reference
    resolves: an item record whose brand, manufacturer or category reference
    is not null finds the string form of it among the keys of the brand map,
    the manufacturer map or the category map; and every barcode record and
    dimension record carries the id of an item record. *)
Theorem item_master_v2_references rows :
  (∀ item, item ∈ masteritemsDataV2 (itemMasterV2Of rows) →
     (notNull (MasterItemV2.brand_uid item) = true →
      JsMap.has (brandsMap (itemMasterV2Of rows))
        (toStr (MasterItemV2.brand_uid item)) = true)
     ∧ (notNull (MasterItemV2.manufacturer_uid item) = true →
        JsMap.has (manufacturersMap (itemMasterV2Of rows))
          (toStr (MasterItemV2.manufacturer_uid item)) = true)
     ∧ (notNull (MasterItemV2.erp_category_uid item) = true →
        JsMap.has (erpCategoriesMap (itemMasterV2Of rows))
          (toStr (MasterItemV2.erp_category_uid item)) = true))
  ∧ (∀ b, b ∈ barcodesDataV2 (itemMasterV2Of rows) →
       Barcode.item_uid b
       ∈ MasterItemV2.item_uid <$> masteritemsDataV2 (itemMasterV2Of rows))
  ∧ (∀ d, d ∈ dimensionsDataV2 (itemMasterV2Of rows) →
       DimensionV2.item_uid d
       ∈ MasterItemV2.item_uid <$> masteritemsDataV2 (itemMasterV2Of rows)).
Proof.
  unfold itemMasterV2Of.
  rewrite itemMasterV2_items, itemMasterV2_barcodes, itemMasterV2_dimensions,
    brandsMap_register, manufacturersMap_register, itemMasterV2_categories.
  simpl. split; [|split].
  - intros item (row & -> & Hrow)%list_elem_of_fmap.
    cbn [masterItemV2OfRow MasterItemV2.brand_uid MasterItemV2.manufacturer_uid
         MasterItemV2.erp_category_uid].
    split; [by apply party_registered|]. split; [by apply party_registered|].
    intros Hn. apply has_keys.
    destruct (itemCategory_level row Hn) as (level & Hl & Heq).
    rewrite <- Heq in Hn |- *.
    by apply (categoriesV2_rows rows [] (emptyCategories_closed _)).
  - intros b (row & -> & Hrow)%list_elem_of_fmap. simpl.
    apply list_elem_of_In, List.filter_In in Hrow as [Hrow _].
    apply list_elem_of_fmap. exists (masterItemV2OfRow row (mainUnitV2 row)).
    split; [done|]. apply list_elem_of_fmap. exists row. split; [done|].
    by apply list_elem_of_In.
  - intros d (row & -> & Hrow)%list_elem_of_fmap. simpl.
    apply list_elem_of_In, List.filter_In in Hrow as [Hrow _].
    apply list_elem_of_fmap. exists (masterItemV2OfRow row (mainUnitV2 row)).
    split; [done|]. apply list_elem_of_fmap. exists row. split; [done|].
    by apply list_elem_of_In.
Qed.

(** X15. The maps of the second item-master format are keyed
    consistently: the category map has no key twice, every category sits
    under the string form of its own id, which is not null, and a parent
    that is not null is itself a key of the map (a replaced entry
    included); the brand map and the manufacturer map have no key twice. *)
Theorem item_master_v2_maps_closed rows :
  categoriesClosed notNull (erpCategoriesMap (itemMasterV2Of rows))
  ∧ NoDup (brandsMap (itemMasterV2Of rows)).*1
  ∧ NoDup (manufacturersMap (itemMasterV2Of rows)).*1.
Proof.
  unfold itemMasterV2Of.
  rewrite brandsMap_register, manufacturersMap_register, itemMasterV2_categories.
  simpl. split; [|split].
  - by apply categoriesV2_rows, emptyCategories_closed.
  - rewrite register_firstByKey, entryOf_keys. apply firstByKey_NoDup.
  - rewrite register_firstByKey, entryOf_keys. apply firstByKey_NoDup.
Qed.

(** ** The main unit id is always populated *)

Lemma trimEnd_solid a s : Str.is_space a = false → Str.trimEnd (String a s) ≠ "".
Proof. intros Ha. simpl. rewrite Ha. by destruct (Str.trimEnd s). Qed.

(** A string with a character that is not white space does not trim to
    the empty string. *)
Lemma trim_solid u a v : Str.is_space a = false → Str.trim (u +:+ String a v) ≠ "".
Proof.
  intros Ha. unfold Str.trim. induction u as [|b u IH]; simpl.
  - rewrite Ha. by apply trimEnd_solid.
  - destruct (Str.is_space b) eqn:Hb; [done|]. by apply trimEnd_solid.
Qed.

Lemma mainUnitUid_nonBlank uid row given : nonBlank (mainUnitUid uid row given) = true.
Proof.
  unfold mainUnitUid. destruct (nonBlank given) eqn:Hg; [done|].
  assert (∀ x, nonBlank (VStr (uid +:+ "_" +:+ x)) = true) as Hmade.
  { intros x. unfold nonBlank. simpl. apply negb_true_iff, bool_decide_eq_false.
    by apply (trim_solid uid "_"%char x). }
  destruct (_ && _); [apply Hmade|apply (Hmade "01")].
Qed.

(** X16. Every item record of both item-master formats has a populated
    main unit id: the given one when the cell is populated, else an id made
    of the item id, an underscore, and the trimmed Unit cell or 01; so does
    the dimension_uid of every dimension record of the second format. *)
Theorem main_unit_always_populated rows :
  (∀ item, item ∈ masteritemsData (itemMasterOf rows) →
     nonBlank (MasterItem.main_unit_uid item) = true)
  ∧ (∀ item, item ∈ masteritemsDataV2 (itemMasterV2Of rows) →
       nonBlank (MasterItemV2.main_unit_uid item) = true)
  ∧ (∀ d, d ∈ dimensionsDataV2 (itemMasterV2Of rows) →
       nonBlank (DimensionV2.dimension_uid d) = true)
  ∧ (∀ uid row given, nonBlank given = false →
       mainUnitUid uid row given
       = VStr (uid +:+ "_" +:+
               (if truthy (prop row "Unit")
                   && negb (bool_decide (Str.trim (toStr (prop row "Unit")) = ""))
                then Str.trim (toStr (prop row "Unit")) else "01"))).
Proof.
  split; [|split; [|split]].
  - rewrite masterItems_firstByKey.
    intros item (p & -> & _)%list_elem_of_fmap. apply mainUnitUid_nonBlank.
  - unfold itemMasterV2Of. rewrite itemMasterV2_items.
    intros item (row & -> & _)%list_elem_of_fmap. apply mainUnitUid_nonBlank.
  - unfold itemMasterV2Of. rewrite itemMasterV2_dimensions.
    intros d (row & -> & _)%list_elem_of_fmap. apply mainUnitUid_nonBlank.
  - intros uid row given Hg. unfold mainUnitUid. rewrite Hg. by destruct (_ && _).
Qed.

(** ** The status events of a run *)

Lemma dispatch_events wb t s options :
  t ≠ UNKNOWN →
  match (dispatch wb t s options).2 with
  | Ok files =>
      ∃ m1 m2, (dispatch wb t s options).1 = [say processing m1; say success m2]
               ∧ (files = [] ↔ m2 ∈ skipMessages)
  | Throw msg =>
      (dispatch wb t s options).1 = []
      ∨ ∃ m1, (dispatch wb t s options).1 = [say processing m1]
  end.
Proof.
  intros Ht. unfold skipMessages. destruct t; simpl; try done.
  - unfold processItemMasterFile.
    destruct (openSheet _ _ _ _) as [[raw i]|m]; [|right; by eexists].
    destruct (masteritemsData _); simpl; do 2 eexists; (split; [done|]).
    + split; [intros _; listed|done].
    + split; [done|]. unlisted.
  - unfold processItemMasterV2File.
    destruct (openSheet _ _ _ _) as [[raw i]|m]; [|right; by eexists].
    destruct (templateV2 _); simpl; do 2 eexists; (split; [done|]).
    + split; [intros _; listed|done].
    + split; [done|]. unlisted.
  - unfold processFactsFile.
    destruct (openSheet _ _ _ _) as [[raw i]|m]; [|right; by eexists].
    destruct (factsOf _); simpl; do 2 eexists; (split; [done|]).
    + split; [intros _; listed|done].
    + split; [done|]. unlisted.
  - unfold processStoreItemsFile.
    destruct (openSheet _ _ _ _) as [[raw i]|m]; [|right; by eexists].
    destruct (storeItemsOf _) as [[|item items] sup]; simpl; do 2 eexists;
      (split; [done|]).
    + split; [intros _; listed|done].
    + split; [done|]. unlisted.
  - unfold processStoresFile.
    destruct (openSheet _ _ _ _) as [[raw i]|m]; [|right; by eexists].
    destruct (List.filter _ _); simpl; do 2 eexists; (split; [done|]).
    + split; [intros _; listed|done].
    + split; [done|]. unlisted.
  - by left.
  - by left.
Qed.

(** X18. The status events of a run.  A run that returns sends exactly
    three events: the reading one and the opening one of the processor, both
    in status processing, and one closing event in status success; it
    returns no file exactly when the closing message is one of the five
    skipping messages.  A run that throws has sent one or two events, all in
    status processing: the engine itself never sends an event in status
    error. *)
Theorem status_protocol wb options :
  match (generateCsvsFromExcel wb options).2 with
  | Ok (files, t) =>
      ∃ m1 m2,
        (generateCsvsFromExcel wb options).1
        = [say processing "Reading and analyzing Excel file...";
           say processing m1; say success m2]
        ∧ (files = [] ↔ m2 ∈ skipMessages)
  | Throw msg =>
      (generateCsvsFromExcel wb options).1
      = [say processing "Reading and analyzing Excel file..."]
      ∨ ∃ m1, (generateCsvsFromExcel wb options).1
              = [say processing "Reading and analyzing Excel file...";
                 say processing m1]
  end.
Proof.
  unfold generateCsvsFromExcel. destruct (detectFileType wb) as [t n].
  destruct (bool_decide (t = UNKNOWN)) eqn:Et; simpl; [by left|].
  apply bool_decide_eq_false in Et.
  destruct (bool_decide (default "" n = "")); simpl; [by left|].
  pose proof (dispatch_events wb t (default "" n) options Et) as H.
  destruct (dispatch wb t (default "" n) options) as [events [files|msg]]; simpl in *.
  - destruct H as (m1 & m2 & -> & Hskip). by exists m1, m2.
  - destruct H as [->|(m1 & ->)]; [by left|]. right. by exists m1.
Qed.

(** ** The search for the first data row of the first item-master format *)

Lemma fromDataStart_drop rows :
  ∃ n, fromDataStart rows = drop n rows
       ∧ Forall (λ row, nonEmptyRow row = false) (take n rows)
       ∧ (∀ row, head (fromDataStart rows) = Some row → nonEmptyRow row = true).
Proof.
  induction rows as [|row rows IH]; simpl.
  { exists O. split; [done|]. split; [constructor|done]. }
  destruct (nonEmptyRow row) eqn:E.
  - exists O. split; [done|]. split; [constructor|]. by intros ? [= <-].
  - destruct IH as (n & Hd & Hall & Hhead). exists (S n). split; [done|].
    split; [by constructor|done].
Qed.

(** A row with no populated cell gives a row object without a usable
    item id, whatever the headers. *)
Lemma emptyRow_no_uid headers row :
  nonEmptyRow row = false → uidOfRow (rowObjectOf headers row) = None.
Proof.
  intros Hrow. unfold uidOfRow, prop, rowObjectOf.
  rewrite fillRow_lookup, lookup_empty. simpl.
  destruct (lastColumn headers 0 "UID*") as [i|]; [|done]. simpl.
  destruct (row !! i) as [cell|] eqn:Hi; [|done]. simpl.
  assert (match cell with
          | VNull => false
          | _ => negb (bool_decide (Str.trim (toStr cell) = ""))
          end = false) as Hcell.
  { unfold nonEmptyRow in Hrow.
    destruct (existsb_exists (λ cell, match cell with
                   | VNull => false
                   | _ => negb (bool_decide (Str.trim (toStr cell) = ""))
                   end) row) as [_ Hex].
    destruct (match cell with VNull => false | _ => _ end) eqn:E; [|done].
    rewrite Hex in Hrow; [done|]. exists cell. split; [|done].
    apply list_elem_of_In. by eapply list_elem_of_lookup_2. }
  destruct cell; simpl in *; try done;
    apply negb_false_iff, bool_decide_eq_true in Hcell; by rewrite Hcell.
Qed.

Lemma itemMaster_skips_empty headers rows n : ∀ st,
  Forall (λ row, nonEmptyRow row = false) (take n rows) →
  fold_left itemMasterStep (rowObjectOf headers <$> drop n rows) st
  = fold_left itemMasterStep (rowObjectOf headers <$> rows) st.
Proof.
  revert rows. induction n as [|n IH]; intros rows st Hall; [done|].
  destruct rows as [|row rows]; [done|]. simpl in *.
  apply Forall_cons in Hall as [Hrow Hall].
  rewrite IH by done. f_equal. unfold itemMasterStep.
  by rewrite (emptyRow_no_uid headers row Hrow).
Qed.

(** X19. The first item-master processor starts at the first row after
    the header that has a populated cell: the rows it leaves out are a
    prefix with no populated cell.  The rows left out would have given no
    record: the tables are the same as those of all the rows after the
    header. *)
Theorem data_start_changes_nothing headers rows :
  (∃ n, fromDataStart rows = drop n rows
        ∧ Forall (λ row, nonEmptyRow row = false) (take n rows)
        ∧ ∀ row, head (fromDataStart rows) = Some row → nonEmptyRow row = true)
  ∧ itemMasterOf (rowObjectOf headers <$> fromDataStart rows)
    = itemMasterOf (rowObjectOf headers <$> rows).
Proof.
  split; [apply fromDataStart_drop|].
  destruct (fromDataStart_drop rows) as (n & -> & Hall & _).
  by apply itemMaster_skips_empty.
Qed.

(** ** The options of the application *)

Lemma sideTable_agree o1 o2 k d c :
  option_on o1 k = option_on o2 k → sideTable o1 k d c = sideTable o2 k d c.
Proof. intros H. unfold sideTable. by rewrite H. Qed.

(** A run reads the options only through the effective values of the
    options offered for the detected type. *)
Lemma dispatch_agree wb t s o1 o2 :
  (∀ k, k ∈ default [] (CsvOptionsConfig t) → option_on o1 k = option_on o2 k) →
  dispatch wb t s o1 = dispatch wb t s o2.
Proof.
  intros H. destruct t; unfold dispatch; try done.
  - unfold processItemMasterFile. destruct (openSheet _ _ _ _) as [[raw i]|m]; [|done].
    destruct (masteritemsData _); [done|]. cbn -[sideTable csvName arrayToCsv].
    by rewrite !(sideTable_agree o1 o2) by (apply H; listed).
  - unfold processItemMasterV2File. destruct (openSheet _ _ _ _) as [[raw i]|m]; [|done].
    destruct (templateV2 _); [done|]. cbn -[sideTable csvName arrayToCsv].
    by rewrite !(sideTable_agree o1 o2) by (apply H; listed).
  - unfold processStoreItemsFile. destruct (openSheet _ _ _ _) as [[raw i]|m]; [|done].
    destruct (storeItemsOf _) as [[|item items] sup]; [done|].
    rewrite (H "suppliers"); [done|listed].
Qed.

Lemma generate_agree wb o1 o2 :
  (∀ k, k ∈ default [] (CsvOptionsConfig (detectFileType wb).1) →
     option_on o1 k = option_on o2 k) →
  generateCsvsFromExcel wb o1 = generateCsvsFromExcel wb o2.
Proof.
  unfold generateCsvsFromExcel. destruct (detectFileType wb) as [t n]. simpl.
  intros H. by rewrite (dispatch_agree wb t _ o1 o2 H).
Qed.

Lemma toggle_on prev opt k :
  option_on (handleCsvOptionChange prev opt) k
  = if decide (opt = k) then negb (option_on prev k) else option_on prev k.
Proof.
  unfold handleCsvOptionChange, option_on. destruct (decide (opt = k)) as [->|Hne].
  - by rewrite lookup_insert_eq.
  - by rewrite lookup_insert_ne.
Qed.

(** X17. Toggling an option flips its effective value (an option that
    is absent counts as on, so the first toggle switches it off) and leaves
    the other options alone; toggling it twice gives back the same run for
    every workbook; and toggling an option that is not offered for the
    detected type of a workbook does not change the run of that workbook. *)
Theorem option_toggle wb prev opt :
  option_on (handleCsvOptionChange prev opt) opt = negb (option_on prev opt)
  ∧ (∀ k, k ≠ opt → handleCsvOptionChange prev opt !! k = prev !! k)
  ∧ generateCsvsFromExcel wb (handleCsvOptionChange (handleCsvOptionChange prev opt) opt)
    = generateCsvsFromExcel wb prev
  ∧ (opt ∉ default [] (CsvOptionsConfig (detectFileType wb).1) →
     generateCsvsFromExcel wb (handleCsvOptionChange prev opt)
     = generateCsvsFromExcel wb prev).
Proof.
  split; [|split; [|split]].
  - rewrite toggle_on. by rewrite decide_True.
  - intros k Hk. unfold handleCsvOptionChange. by rewrite lookup_insert_ne.
  - apply generate_agree. intros k _. rewrite !toggle_on.
    destruct (decide (opt = k)); [|done]. by rewrite negb_involutive.
  - intros Hopt. apply generate_agree. intros k Hk. rewrite toggle_on.
    destruct (decide (opt = k)) as [->|]; done.
Qed.

(** ** The application: processing after detection *)

Lemma generate_options_Ok wb options all t :
  (generateCsvsFromExcel wb ∅).2 = Ok (all, t) →
  (generateCsvsFromExcel wb options).2 = Ok (List.filter (keptBy options) all, t).
Proof.
  unfold generateCsvsFromExcel. destruct (detectFileType wb) as [t' n].
  destruct (_ || _); [done|].
  destruct (dispatch_options wb t' (default "" n) options) as [_ Ho].
  destruct (dispatch wb t' (default "" n) options) as [events outcome].
  destruct (dispatch wb t' (default "" n) ∅) as [events' [all'|msg]]; simpl in *; [|done].
  intros [= <- <-]. by rewrite Ho.
Qed.

Lemma generate_Ok_type wb options files t :
  (generateCsvsFromExcel wb options).2 = Ok (files, t) → t = (detectFileType wb).1.
Proof.
  unfold generateCsvsFromExcel. destruct (detectFileType wb) as [t' n].
  destruct (_ || _); [done|].
  destruct (dispatch wb t' (default "" n) options) as [events [files'|msg]]; simpl; [|done].
  by intros [= _ <-].
Qed.

(** A file that passed detection is read again with the same outcome, and
    its run returns whatever the options are. *)
Lemma detected_cases f :
  invalidFile (detected f) = true
  ∨ ∃ wb all,
      workbookOf f = Ok wb
      ∧ (generateCsvsFromExcel wb ∅).2 = Ok (all, type (detected f))
      ∧ file (detected f) = f.
Proof.
  unfold detected, generateCsvsFromFile.
  destruct (workbookOf f) as [wb|msg] eqn:Hwb; simpl; [|by left].
  destruct (generateCsvsFromExcel wb ∅).2 as [[all t]|msg] eqn:Hg; simpl; [|by left].
  right. by exists wb, all.
Qed.

Lemma detected_returns f options :
  invalidFile (detected f) = false →
  ∃ files, (generateCsvsFromFile (file (detected f)) options).2
           = Ok (files, type (detected f)).
Proof.
  intros Hv. destruct (detected_cases f) as [?|(wb & all & Hwb & Hg & ->)]; [congruence|].
  unfold generateCsvsFromFile. rewrite Hwb. eexists. by apply generate_options_Ok.
Qed.

Lemma hasValidFiles_cons info l :
  hasValidFiles (info :: l) = negb (invalidFile info) || hasValidFiles l.
Proof. unfold hasValidFiles, invalidFile. simpl. by rewrite negb_orb. Qed.

Lemma alter_middle {A} (f : A → A) (before : list A) x after :
  alter f (length before) (before ++ x :: after) = before ++ f x :: after.
Proof. induction before as [|y before IH]; simpl; [done|]. by rewrite <- IH. Qed.

Lemma withStatus_twice st1 st2 info :
  withStatus st2 None (withStatus st1 None info) = withStatus st2 None info.
Proof. done. Qed.

(** One turn of the loop on a file that came out of the detection. *)
Lemma processFileAt_detected options run before f after :
  infos run = before ++ detected f :: after →
  infos (processFileAt options run (length before) (detected f))
  = before ++ settledInfo (detected f) :: after
  ∧ localErrorMessages (processFileAt options run (length before) (detected f))
    = localErrorMessages run
  ∧ hasProcessedAnyFile (processFileAt options run (length before) (detected f))
    = hasProcessedAnyFile run || negb (invalidFile (detected f))
  ∧ (invalidFile (detected f) = true →
     allGeneratedCsvs (processFileAt options run (length before) (detected f))
     = allGeneratedCsvs run).
Proof.
  intros Hinfos. unfold processFileAt, settledInfo.
  destruct (invalidFile (detected f)) eqn:Hv; simpl.
  { by rewrite orb_false_r. }
  destruct (detected_returns f options Hv) as (files & Hret).
  destruct (generateCsvsFromFile (file (detected f)) options) as [events outcome].
  simpl in Hret. subst outcome. simpl.
  rewrite Hinfos, !alter_middle, withStatus_twice. by rewrite orb_true_r.
Qed.

(** The loop over files that all came out of the detection phase. *)
Lemma processFiles_detected options fs : ∀ run before,
  infos run = before ++ (detected <$> fs) →
  infos (processFiles options (length before) (detected <$> fs) run)
  = before ++ (settledInfo <$> (detected <$> fs))
  ∧ localErrorMessages (processFiles options (length before) (detected <$> fs) run)
    = localErrorMessages run
  ∧ hasProcessedAnyFile (processFiles options (length before) (detected <$> fs) run)
    = hasProcessedAnyFile run || hasValidFiles (detected <$> fs)
  ∧ (hasValidFiles (detected <$> fs) = false →
     allGeneratedCsvs (processFiles options (length before) (detected <$> fs) run)
     = allGeneratedCsvs run).
Proof.
  induction fs as [|f fs IH]; intros run before Hinfos.
  { simpl. by rewrite orb_false_r. }
  rewrite fmap_cons in *. cbn [processFiles]. rewrite hasValidFiles_cons.
  destruct (processFileAt_detected options run before f _ Hinfos) as (H1 & H2 & H3 & H4).
  assert (S (length before) = length (before ++ [settledInfo (detected f)])) as ->.
  { rewrite length_app. simpl. lia. }
  destruct (IH (processFileAt options run (length before) (detected f))
              (before ++ [settledInfo (detected f)])) as (H1' & H2' & H3' & H4').
  { by rewrite H1, <- app_assoc. }
  rewrite H1', H2', H3', H2, H3, <- app_assoc, orb_assoc.
  split; [done|]. split; [done|]. split; [done|].
  intros [Hf Hfs]%orb_false_elim. apply negb_false_iff in Hf.
  by rewrite H4', H4.
Qed.

(** X20. Processing after detection never fails.  When the list of
    files of the state is the one the detection phase made, and the files
    read as they did then, the loop of the process handler skips the files
    the detection marked and runs the others to success, whatever the
    options: no file ends in status error that was not already, and no
    error of a file is reported.  Without a valid file the handler ends in
    the error state with the message that no file was processed; with one
    it ends in the success state with no error message, unless making the
    archive fails, and then the error message is that of the archive. *)
Theorem processing_after_detection bundle files s :
  fileInfos s = detected <$> files →
  fileInfos (handleProcess bundle s) = settledInfo <$> fileInfos s
  ∧ (hasValidFiles (fileInfos s) = false →
     fileInfos s = []
     ∨ (processingState (handleProcess bundle s) = stateError
        ∧ errorMessage (handleProcess bundle s)
          = "No valid files were processed successfully."))
  ∧ (hasValidFiles (fileInfos s) = true →
     (processingState (handleProcess bundle s) = stateSuccess
      ∧ errorMessage (handleProcess bundle s) = "")
     ∨ (processingState (handleProcess bundle s) = stateError
        ∧ ∃ csvs, bundle csvs = Throw (errorMessage (handleProcess bundle s)))).
Proof.
  intros Hfiles. unfold handleProcess. rewrite Hfiles.
  destruct (processFiles_detected (csvOptions s) files
              {| logs := []; infos := detected <$> files; allGeneratedCsvs := [];
                 hasProcessedAnyFile := false; localErrorMessages := "" |} [])
    as (Hinfos & Herr & Hany & Hnone); [done|].
  simpl in Hinfos, Herr, Hany, Hnone.
  destruct (detected <$> files) as [|info rest] eqn:Hl.
  { split; [by rewrite Hfiles|]. split; [by left|done]. }
  rewrite Herr, Hany. simpl bool_decide.
  destruct (allGeneratedCsvs _) as [|csv csvs] eqn:Hcsvs.
  - destruct (hasValidFiles (info :: rest)) eqn:Hvalid; simpl.
    + split; [done|]. split; [intros [=]|]. intros _. left. by split.
    + split; [done|]. split; [|intros [=]]. intros _. right. by split.
  - destruct (bundle (csv :: csvs)) as [url|msg] eqn:Hb; simpl.
    + split; [done|]. split; [|intros _; left; by split].
      intros Hvalid. by specialize (Hnone Hvalid).
    + split; [done|]. split.
      * intros Hvalid. by specialize (Hnone Hvalid).
      * intros _. right. split; [done|]. by exists (csv :: csvs).
Qed.

(** ** The application: the log and the final state *)

Lemma settle_settled n i st l :
  st ≠ processing →
  Forall (λ log, (logStatus log = processing → fileIndex log = i)
                 ∧ (-1 ≤ fileIndex log < Z.of_nat n)%Z) l →
  Forall (settledLog n) (settle i st l).
Proof.
  intros Hst Hl. unfold settle. apply Forall_fmap. eapply Forall_impl; [exact Hl|].
  intros log [Hp Hi]. unfold settledLog. simpl.
  destruct (bool_decide (fileIndex log = i)) eqn:Ei; simpl.
  - destruct (bool_decide (logStatus log = processing)) eqn:Ep; simpl; [done|].
    by apply bool_decide_eq_false in Ep.
  - apply bool_decide_eq_false in Ei. split; [|done]. intros Hproc. by apply Ei, Hp.
Qed.

Lemma processFileAt_log options run i info n :
  (i < n)%nat →
  Forall (settledLog n) (logs run) →
  Forall (settledLog n) (logs (processFileAt options run i info))
  ∧ length (infos (processFileAt options run i info)) = length (infos run).
Proof.
  intros Hi Hrun.
  assert (Forall (λ log, (logStatus log = processing → fileIndex log = Z.of_nat i)
                         ∧ (-1 ≤ fileIndex log < Z.of_nat n)%Z) (logs run)) as Hold.
  { eapply Forall_impl; [exact Hrun|]. intros log [Hp Hr]. by split. }
  assert (∀ events,
            Forall (λ log, (logStatus log = processing → fileIndex log = Z.of_nat i)
                           ∧ (-1 ≤ fileIndex log < Z.of_nat n)%Z)
              (logged info (Z.of_nat i) <$> events)) as Hnew.
  { intros events. apply Forall_fmap, Forall_forall. intros u _. simpl. split; [done|lia]. }
  unfold processFileAt. destruct (invalidFile info).
  { simpl. split; [|done]. apply Forall_app. split; [done|].
    apply Forall_singleton. split; [done|]. simpl. lia. }
  destruct (generateCsvsFromFile (file info) options) as [events [[csvFiles t]|msg]]; simpl.
  - rewrite !length_alter. split; [|done]. apply settle_settled; [done|].
    apply Forall_app. by split.
  - rewrite !length_alter. split; [|done]. apply settle_settled; [done|].
    apply Forall_app. split; [apply Forall_app; by split|].
    apply Forall_singleton. simpl. split; [done|lia].
Qed.

Lemma processFiles_log options n l : ∀ i run,
  (i + length l = n)%nat →
  Forall (settledLog n) (logs run) →
  Forall (settledLog n) (logs (processFiles options i l run))
  ∧ length (infos (processFiles options i l run)) = length (infos run).
Proof.
  induction l as [|info l IH]; intros i run Hn Hrun; [done|].
  cbn [processFiles]. simpl in Hn.
  destruct (processFileAt_log options run i info n) as [Hlog Hlen]; [lia|done|].
  destruct (IH (S i) (processFileAt options run i info)) as [Hlog' Hlen']; [lia|done|].
  split; [done|]. by rewrite Hlen'.
Qed.

(** X21. When the process handler has run on a state with files, no
    entry of the log is left in status processing (the entries of a file
    are settled to success or error when its run ends), every entry carries
    the index of a file of the list or -1, the handler ends in the success
    state or the error state, an archive URL is set only in the success
    state, and the list of files keeps its length.  On a state without
    files the handler does nothing. *)
Theorem process_log_settled bundle s :
  match fileInfos s with
  | [] => handleProcess bundle s = s
  | _ =>
      Forall (λ log, logStatus log ≠ processing
                     ∧ (-1 ≤ fileIndex log < Z.of_nat (length (fileInfos s)))%Z)
        (statusUpdates (handleProcess bundle s))
      ∧ (processingState (handleProcess bundle s) = stateSuccess
         ∨ processingState (handleProcess bundle s) = stateError)
      ∧ (is_Some (zipUrl (handleProcess bundle s)) →
         processingState (handleProcess bundle s) = stateSuccess)
      ∧ length (fileInfos (handleProcess bundle s)) = length (fileInfos s)
  end.
Proof.
  unfold handleProcess. destruct (fileInfos s) as [|info rest] eqn:Hl; [done|].
  destruct (processFiles_log (csvOptions s) (length (info :: rest)) (info :: rest) 0
              {| logs := []; infos := info :: rest; allGeneratedCsvs := [];
                 hasProcessedAnyFile := false; localErrorMessages := "" |})
    as [Hlog Hlen]; [done|constructor|].
  fold (settledLog (length (info :: rest))).
  assert (∀ m, settledLog (length (info :: rest))
                 {| logMessage := m; logStatus := success; fileIndex := -1 |}) as Hfinal.
  { intros m. split; [done|]. simpl. lia. }
  destruct (allGeneratedCsvs _) as [|csv csvs].
  - destruct (_ && _); simpl.
    + split; [apply Forall_app; split; [done|by apply Forall_singleton]|].
      split; [by left|]. split; [done|done].
    + split; [done|]. split; [by right|]. split; [by intros [? [=]]|done].
  - destruct (bundle (csv :: csvs)) as [url|msg]; simpl.
    + split; [apply Forall_app; split; [done|by apply Forall_singleton]|].
      split; [by left|]. split; [done|done].
    + split; [done|]. split; [by right|]. split; [by intros [? [=]]|done].
Qed.

(** ** The application: the options shown *)

Lemma fold_setAdd l : ∀ acc,
  NoDup acc →
  NoDup (fold_left setAdd l acc)
  ∧ ∀ k, k ∈ fold_left setAdd l acc ↔ k ∈ acc ∨ k ∈ l.
Proof.
  induction l as [|x l IH]; intros acc Hacc; simpl.
  { split; [done|]. intros k. rewrite elem_of_nil. tauto. }
  destruct (IH (setAdd acc x) (setAdd_NoDup _ _ Hacc)) as [Hnd Hel].
  split; [done|]. intros k. rewrite Hel, setAdd_elem, elem_of_cons. tauto.
Qed.

Lemma uniqueOptions_elem l k :
  k ∈ uniqueOptions l
  ↔ ∃ info, info ∈ l ∧ k ∈ default [] (CsvOptionsConfig (type info)).
Proof.
  unfold uniqueOptions.
  destruct (fold_setAdd
              (flat_map (λ t, default [] (CsvOptionsConfig t))
                 (List.filter (λ t, bool_decide (is_Some (CsvOptionsConfig t))) (type <$> l)))
              [] NoDup_nil_2) as [_ ->].
  rewrite elem_of_nil, list_elem_of_In, in_flat_map. split.
  - intros [[]|(t & Ht & Hk)]. apply List.filter_In in Ht as [Ht _].
    apply list_elem_of_In, list_elem_of_fmap in Ht as (info & -> & Hinfo).
    exists info. split; [done|]. by apply list_elem_of_In.
  - intros (info & Hinfo & Hk). right. exists (type info). split.
    + apply List.filter_In. split.
      * apply list_elem_of_In, list_elem_of_fmap. by exists info.
      * apply bool_decide_eq_true. destruct (CsvOptionsConfig (type info)); [done|].
        by apply elem_of_nil in Hk.
    + by apply list_elem_of_In.
Qed.

Lemma processFileAt_agree o1 o2 run i f :
  (∀ k, k ∈ default [] (CsvOptionsConfig (type (detected f))) →
     option_on o1 k = option_on o2 k) →
  processFileAt o1 run i (detected f) = processFileAt o2 run i (detected f).
Proof.
  intros Hagree. unfold processFileAt.
  destruct (invalidFile (detected f)) eqn:Hv; [done|].
  destruct (detected_cases f) as [?|(wb & all & Hwb & Hg & ->)]; [congruence|].
  unfold generateCsvsFromFile. rewrite Hwb.
  rewrite (generate_agree wb o1 o2); [done|].
  by rewrite <- (generate_Ok_type _ _ _ _ Hg).
Qed.

Lemma processFiles_agree o1 o2 fs : ∀ i run,
  (∀ f k, f ∈ fs → k ∈ default [] (CsvOptionsConfig (type (detected f))) →
     option_on o1 k = option_on o2 k) →
  processFiles o1 i (detected <$> fs) run = processFiles o2 i (detected <$> fs) run.
Proof.
  induction fs as [|f fs IH]; intros i run Hagree; [done|].
  rewrite fmap_cons. cbn [processFiles].
  rewrite (processFileAt_agree o1 o2).
  - apply IH. intros f' k Hf'. apply Hagree. apply elem_of_cons. by right.
  - intros k. apply Hagree. apply elem_of_cons. by left.
Qed.

(** X22. The options shown are those of the types of the files, each
    once: an option is shown exactly when it is configured for the type of
    some file of the list, and every option shown is one of the optional
    tables the processors test. *)
Theorem options_shown l :
  NoDup (uniqueOptions l)
  ∧ (∀ k, k ∈ uniqueOptions l
          ↔ ∃ info, info ∈ l ∧ k ∈ default [] (CsvOptionsConfig (type info)))
  ∧ (∀ k, k ∈ uniqueOptions l → k ∈ optionalTables)
  ∧ (uniqueOptions l = [] ↔
     Forall (λ info, type info ∉ [ITEM_MASTER; ITEM_MASTER_V2; STORE_ITEMS]) l).
Proof.
  split; [|split; [|split]].
  - unfold uniqueOptions. apply fold_setAdd, NoDup_nil_2.
  - apply uniqueOptions_elem.
  - intros k (info & _ & Hk)%uniqueOptions_elem. unfold optionalTables.
    destruct (type info); simpl in Hk;
      repeat (apply elem_of_cons in Hk as [->|Hk]; [listed|]); by apply elem_of_nil in Hk.
  - rewrite Forall_forall. split.
    + intros Hnil info Hinfo Ht.
      assert (∃ k, k ∈ default [] (CsvOptionsConfig (type info))) as [k Hk].
      { repeat (apply elem_of_cons in Ht as [->|Ht]; [eexists; simpl; listed|]).
        by apply elem_of_nil in Ht. }
      assert (k ∈ uniqueOptions l) as Hin by (apply uniqueOptions_elem; by exists info).
      rewrite Hnil in Hin. by apply elem_of_nil in Hin.
    + intros Hall. destruct (uniqueOptions l) as [|k rest] eqn:E; [done|]. exfalso.
      assert (k ∈ uniqueOptions l) as Hin by (rewrite E; apply elem_of_cons; by left).
      apply uniqueOptions_elem in Hin as (info & Hinfo & Hk).
      apply (Hall info Hinfo). destruct (type info); simpl in Hk;
        try (by apply elem_of_nil in Hk); listed.
Qed.

(** X23. Toggling an option that is not shown changes nothing but the
    option: on a list of files made by the detection phase, the process
    handler gives the same files, log, messages and archive, whether the
    option was toggled before or not. *)
Theorem hidden_option_is_inert bundle files s opt :
  fileInfos s = detected <$> files →
  opt ∉ uniqueOptions (fileInfos s) →
  handleProcess bundle (setCsvOptions (λ prev, handleCsvOptionChange prev opt) s)
  = setCsvOptions (λ prev, handleCsvOptionChange prev opt) (handleProcess bundle s).
Proof.
  intros Hfiles Hopt.
  destruct s as [infos0 archive state0 log0 message0 url0 zipName0 options0].
  simpl in *. subst infos0. unfold handleProcess, setCsvOptions. simpl.
  rewrite (processFiles_agree (handleCsvOptionChange options0 opt) options0).
  - destruct (detected <$> files); [done|].
    destruct (allGeneratedCsvs _); [by destruct (_ && _)|]. by destruct (bundle _).
  - intros f k Hf Hk. rewrite toggle_on. destruct (decide (opt = k)) as [->|]; [|done].
    exfalso. apply Hopt. apply uniqueOptions_elem. exists (detected f).
    split; [|done]. apply list_elem_of_fmap. by exists f.
Qed.

(** ** The application: the detection phase *)

Lemma dispatcherErrors_nonempty msg : msg ∈ dispatcherErrors → msg ≠ "".
Proof.
  unfold dispatcherErrors. intros H ->.
  repeat (apply elem_of_cons in H as [H|H]; [by destruct (typeName STOCK)|]).
  by apply elem_of_nil in H.
Qed.

(** X24. The list of files after a selection.  The handler keeps the
    files whose name ends in .xlsx or .xls, clears the options, the log and
    the archive, and lists each file with what a full run without options
    gave: the detected type when the run returned, and UNKNOWN with the
    error when it threw.  So a listed type is UNKNOWN or one of the five
    types with a processor (a STOCK or PRICE workbook is listed as UNKNOWN
    with its error); a file with a type is pending without error; and a
    file that was read and has no type is in status error with one of the
    errors of the dispatcher. *)
Theorem detection_listing fileList s f :
  fileInfos (handleFilesChange (Some fileList) s)
  = detected <$> List.filter (λ f, endsWith (fileName f) ".xlsx"
                                   || endsWith (fileName f) ".xls") fileList
  ∧ csvOptions (handleFilesChange (Some fileList) s) = ∅
  ∧ statusUpdates (handleFilesChange (Some fileList) s) = []
  ∧ zipUrl (handleFilesChange (Some fileList) s) = None
  ∧ (type (detected f) = UNKNOWN ∨ type (detected f) ∈ processedTypes)
  ∧ (type (detected f) ≠ UNKNOWN →
     fileStatus (detected f) = filePending ∧ fileErrorMessage (detected f) = None
     ∧ ∃ wb, workbookOf f = Ok wb ∧ type (detected f) = (detectFileType wb).1)
  ∧ (∀ wb, workbookOf f = Ok wb → type (detected f) = UNKNOWN →
       fileStatus (detected f) = fileError
       ∧ ∃ msg, fileErrorMessage (detected f) = Some msg ∧ msg ∈ dispatcherErrors)
  ∧ file (detected f) = f.
Proof.
  split; [|split; [|split; [|split]]].
  - unfold handleFilesChange. by destruct (List.filter _ fileList).
  - unfold handleFilesChange. by destruct (List.filter _ fileList).
  - unfold handleFilesChange. by destruct (List.filter _ fileList).
  - unfold handleFilesChange. by destruct (List.filter _ fileList).
  - unfold detected, generateCsvsFromFile.
    destruct (workbookOf f) as [wb|msg] eqn:Hwb; simpl.
    + pose proof (generate_outcomes wb ∅) as Hout.
      destruct (generateCsvsFromExcel wb ∅).2 as [[files t]|msg]; simpl.
      * destruct Hout as [Ht Hp]. split; [by right|]. split; [|split; [|done]].
        -- intros _. split; [done|]. split; [done|]. by exists wb.
        -- intros wb' _ ->. exfalso. unfold processedTypes in Hp.
           repeat (apply elem_of_cons in Hp as [Hp|Hp]; [done|]).
           by apply elem_of_nil in Hp.
      * split; [by left|]. split; [done|]. split; [|done].
        intros wb' _ _. apply dispatcherErrors_nonempty in Hout as Hne.
        rewrite bool_decide_eq_false_2 by done. split; [done|]. by exists msg.
    + split; [by left|]. split; [done|]. split; [intros wb' [=]|done].
Qed.

(** ** No table is written empty *)

Lemma sideTable_written options t table data :
  table ∈ tablesOf t →
  Forall (writtenTable t) (sideTable options table data (columnsOf t table)).
Proof.
  intros Ht. unfold sideTable. destruct (option_on options table); simpl; [|constructor].
  destruct (bool_decide (data = [])) eqn:E; simpl; constructor; [|constructor].
  apply bool_decide_eq_false in E. by exists table, data.
Qed.

Lemma dispatch_written wb t s options files :
  (dispatch wb t s options).2 = Ok files → Forall (writtenTable t) files.
Proof.
  destruct t; simpl.
  - unfold processItemMasterFile. destruct (openSheet _ _ _ _) as [[raw i]|m]; [|done].
    destruct (masteritemsData _) as [|item items] eqn:E; intros [= <-]; [constructor|].
    constructor.
    { exists "masteritems", (MasterItem.toObj <$> item :: items).
      split; [listed|]. split; [done|]. split; [done|]. done. }
    repeat (apply Forall_app; split);
      by (apply (sideTable_written options ITEM_MASTER); listed).
  - unfold processItemMasterV2File. destruct (openSheet _ _ _ _) as [[raw i]|m]; [|done].
    destruct (templateV2 _) as [|row rows] eqn:E; intros [= <-]; [constructor|].
    constructor.
    { exists "masteritems",
        (MasterItemV2.toObj <$> masteritemsDataV2 (itemMasterV2Of (row :: rows))).
      split; [listed|]. split; [done|]. split; [|done].
      unfold itemMasterV2Of. by rewrite itemMasterV2_items. }
    repeat (apply Forall_app; split);
      by (apply (sideTable_written options ITEM_MASTER_V2); listed).
  - unfold processFactsFile. destruct (openSheet _ _ _ _) as [[raw i]|m]; [|done].
    destruct (factsOf _) as [|fact facts] eqn:E; intros [= <-]; [constructor|].
    constructor; [|constructor].
    exists "facts", (Fact.toObj <$> fact :: facts).
    split; [listed|]. split; [done|]. split; [done|]. done.
  - unfold processStoreItemsFile. destruct (openSheet _ _ _ _) as [[raw i]|m]; [|done].
    destruct (storeItemsOf _) as [[|item items] sup]; intros [= <-]; [constructor|].
    constructor.
    { exists "items", (StoreItem.toObj <$> item :: items).
      split; [listed|]. split; [done|]. split; [done|]. done. }
    destruct (option_on options "suppliers"); simpl; [|constructor].
    destruct sup as [|entry sup]; simpl; constructor; [|constructor].
    exists "suppliers", (Supplier.toObj <$> JsMap.values (entry :: sup)).
    split; [listed|]. split; [done|]. split; [done|]. done.
  - unfold processStoresFile. destruct (openSheet _ _ _ _) as [[raw i]|m]; [|done].
    destruct (List.filter _ _) as [|store stores] eqn:E; intros [= <-]; [constructor|].
    constructor; [|constructor].
    exists "stores", (StoreRecord.toObj <$> store :: stores).
    split; [listed|]. split; [done|]. split; [done|]. done.
  - done.
  - done.
  - intros [= <-]. constructor.
Qed.

(** X25. No table is written empty: every file of a run is named after
    a table of the detected type and is the serialization, under the column
    list of that table, of at least one record; so its header line is
    followed by at least one record line. *)
Theorem no_empty_table wb options :
  match (generateCsvsFromExcel wb options).2 with
  | Throw _ => True
  | Ok (files, t) =>
      Forall (λ f, ∃ table data,
                table ∈ tablesOf t ∧ name f = csvName table ∧ data ≠ []
                ∧ content f = arrayToCsv data (columnsOf t table)) files
  end.
Proof.
  unfold generateCsvsFromExcel. destruct (detectFileType wb) as [t n].
  destruct (_ || _); [done|].
  pose proof (dispatch_written wb t (default "" n) options) as H.
  destruct (dispatch wb t (default "" n) options) as [events [files|msg]]; [|done].
  by apply H.
Qed.

(** ** The header row of a detected sheet *)

Lemma startsWith_bar kw : Str.mem Str.pipe kw = false →
  ∀ x rest, Str.startsWith (x +:+ String Str.pipe rest) kw = Str.startsWith x kw.
Proof.
  induction kw as [|a kw IH]; intros Hkw x rest.
  { by destruct x. }
  simpl in Hkw. apply orb_false_elim in Hkw as [Ha Hkw].
  destruct x as [|b x]; simpl.
  - by rewrite Ha.
  - by rewrite IH.
Qed.

Lemma includes_bar kw x rest : Str.mem Str.pipe kw = false →
  Str.includes (x +:+ String Str.pipe rest) kw = Str.includes x kw || Str.includes rest kw.
Proof.
  intros Hkw. induction x as [|b x IH].
  - change ("" +:+ String Str.pipe rest) with (String Str.pipe rest).
    cbn [Str.includes]. rewrite orb_false_r.
    by rewrite <- (startsWith_bar kw Hkw "" rest).
  - rewrite str_app_cons. cbn [Str.includes]. rewrite <- str_app_cons.
    rewrite (startsWith_bar kw Hkw), IH. by rewrite orb_assoc.
Qed.

Lemma includes_join c kw l :
  Str.mem Str.pipe (String c kw) = false →
  Str.includes (Str.join "|" l) (String c kw) = true →
  ∃ x, x ∈ l ∧ Str.includes x (String c kw) = true.
Proof.
  intros Hkw. induction l as [|x l IH]; [done|].
  destruct l as [|y l].
  { intros H. exists x. split; [apply elem_of_cons; by left|done]. }
  change (Str.join "|" (x :: y :: l)) with (x +:+ String Str.pipe (Str.join "|" (y :: l))).
  rewrite (includes_bar _ _ _ Hkw). intros [H|H]%orb_prop.
  - exists x. split; [apply elem_of_cons; by left|done].
  - destruct (IH H) as (z & Hz & Hin). exists z. split; [apply elem_of_cons; by right|done].
Qed.

Lemma findHeaderRow_found kws rawData row :
  row ∈ rawData → isHeaderRow kws row = true → is_Some (findHeaderRow kws rawData).
Proof.
  induction rawData as [|r rest IH]; [by intros ?%elem_of_nil|].
  simpl. destruct (isHeaderRow kws r) eqn:E; [by eexists|].
  intros [->|Hin]%elem_of_cons Hrow; [congruence|].
  destruct (IH Hin Hrow) as [i ->]. by eexists.
Qed.

Section Reader.
Hypothesis date_text : ∀ d, Str.includes (dateToString host d) "UID" = false.
Hypothesis text_cells_kept : ∀ sheet i row,
  sheet_to_json host true sheet !! i = Some row →
  ∃ row', sheet_to_json host false sheet !! i = Some row'
          ∧ ∀ s, VStr s ∈ row → VStr s ∈ row'.

(** A cell whose text holds a keyword with the letters UID is a text
    cell. *)
Lemma keyword_cell kw row :
  Str.mem Str.pipe kw = false →
  Str.includes kw "UID" = true →
  Str.includes (joinCells "|" row) kw = true →
  ∃ s, VStr s ∈ row ∧ Str.includes s kw = true.
Proof.
  intros Hbar Huid Hrow. destruct kw as [|c kw]; [done|].
  apply (includes_join c kw _ Hbar) in Hrow as (x & Hx & Hin).
  apply list_elem_of_fmap in Hx as (cell & -> & Hcell).
  assert (isString cell = true) as Hs.
  { apply (joinText_UID_string date_text). by eapply includes_trans. }
  destruct cell; try done. by eexists.
Qed.

Lemma isHeaderRow_cell kws row s kw :
  VStr s ∈ row → kw ∈ kws → Str.includes s kw = true → isHeaderRow kws row = true.
Proof.
  intros Hs Hkw Hin. unfold isHeaderRow. apply existsb_exists.
  exists (VStr s). split; [by apply list_elem_of_In|].
  apply existsb_exists. exists kw. split; [by apply list_elem_of_In|done].
Qed.

(** The row that made detection choose a type with a processor is a
    header row for the processor, in the formatted reading of the sheet. *)
Lemma detected_row_is_header t row row' :
  t ∈ processedTypes →
  rowMatches (keywords t) row = true →
  (∀ s, VStr s ∈ row → VStr s ∈ row') →
  isHeaderRow (keywords t) row' = true.
Proof.
  intros Ht Hrow Hkept. rewrite rowMatches_split in Hrow.
  apply andb_prop in Hrow as [_ Hall]. unfold containsAll in Hall.
  rewrite forallb_forall in Hall.
  assert (∃ kw, kw ∈ keywords t ∧ Str.mem Str.pipe kw = false
                ∧ Str.includes kw "UID" = true) as (kw & Hkw & Hbar & Huid).
  { unfold processedTypes in Ht.
    repeat (apply elem_of_cons in Ht as [->|Ht];
            [eexists; split; [apply elem_of_cons; left; reflexivity|by split]|]).
    by apply elem_of_nil in Ht. }
  destruct (keyword_cell kw row Hbar Huid) as (s & Hs & Hin).
  { apply Hall. by apply list_elem_of_In. }
  by apply (isHeaderRow_cell _ _ s kw); [apply Hkept| |].
Qed.

Lemma detected_sheet_opens wb t n sheet noHeader :
  t ∈ processedTypes →
  Sheets wb !! n = Some sheet →
  sheetMatches (keywords t) (sheet_to_json host true sheet) = true →
  ∃ i, openSheet wb n (keywords t) noHeader = Ok (sheet_to_json host false sheet, i).
Proof.
  intros Ht Hsheet Hmatch. unfold openSheet. rewrite Hsheet.
  unfold sheetMatches in Hmatch. apply existsb_exists in Hmatch as (row & Hrow & Hm).
  apply list_elem_of_In, list_elem_of_lookup in Hrow as (i & Hi).
  apply lookup_take_Some in Hi as [Hi _].
  destruct (text_cells_kept sheet i row Hi) as (row' & Hi' & Hkept).
  destruct (findHeaderRow_found (keywords t) (sheet_to_json host false sheet) row')
    as [j ->].
  - by eapply list_elem_of_lookup_2.
  - by apply (detected_row_is_header t row).
  - by exists j.
Qed.

(** X26. When the formatted reading of a sheet keeps the text cells of
    its typed reading (same row, same text), and the text of a date never
    holds the letters UID, the row that made detection choose a type is a
    header row for the processor of the type: a run never fails for want
    of a header row, and the only errors left are the unknown file type and
    the two types without processor. *)
Theorem detected_sheet_has_header wb options :
  match (generateCsvsFromExcel wb options).2 with
  | Throw msg => msg ∈ typeErrors
  | Ok _ => True
  end.
Proof.
  unfold generateCsvsFromExcel, typeErrors.
  pose proof (detection_sheet := detectLoop_result wb typeCheckOrder).
  fold (detectFileType wb) in detection_sheet.
  destruct (detectFileType wb) as [t [n|]]; simpl; [|rewrite orb_true_r; listed].
  destruct detection_sheet as (Ht & Hn & sheet & Hs & Hm).
  destruct (bool_decide (t = UNKNOWN) || bool_decide (n = "")); simpl; [listed|].
  destruct (dispatch wb t n options) as [events [files|msg]] eqn:Ed; simpl; [done|].
  assert (is_Some (Sheets wb !! n)) as Hsome by (by exists sheet).
  unfold typeCheckOrder in Ht.
  destruct t; simpl in Ed.
  - apply (f_equal snd) in Ed. apply processItemMasterFile_Throw in Ed.
    destruct (detected_sheet_opens wb ITEM_MASTER n sheet
                "Could not find header row in Masteritems file.") as [i Hi];
      [listed|done|done|congruence].
  - apply (f_equal snd) in Ed. apply processItemMasterV2File_Throw in Ed.
    destruct (detected_sheet_opens wb ITEM_MASTER_V2 n sheet
                "Could not find header row in the new Masteritems file.") as [i Hi];
      [listed|done|done|congruence].
  - apply (f_equal snd) in Ed. apply processFactsFile_Throw in Ed.
    destruct (detected_sheet_opens wb FACTS n sheet
                "Could not find a valid header row in the Facts sheet.") as [i Hi];
      [listed|done|done|congruence].
  - apply (f_equal snd) in Ed. apply processStoreItemsFile_Throw in Ed.
    destruct (detected_sheet_opens wb STORE_ITEMS n sheet
                "Could not find a valid header row in the Items sheet.") as [i Hi];
      [listed|done|done|congruence].
  - apply (f_equal snd) in Ed. apply processStoresFile_Throw in Ed.
    destruct (detected_sheet_opens wb STORE n sheet
                "Could not find a valid header row in the Stores sheet.") as [i Hi];
      [listed|done|done|congruence].
  - injection Ed as _ <-. listed.
  - injection Ed as _ <-. listed.
  - done.
Qed.

End Reader.
End Engine.

(** ** Instances on the sample host *)

Lemma sample_date_text d : Str.includes (SampleHost.dateText d) "UID" = false.
Proof.
  destruct (Str.includes (SampleHost.dateText d) "UID") eqn:E; [|done].
  apply includes_mem in E. destruct d as [|t]; [done|].
  revert E. unfold SampleHost.dateText, SampleHost.isoDate.
  destruct (JsDate.fieldsAt t) as [[y m] day]. unfold Str.pad2.
  rewrite !mem_app, !showInt_no_U, !zeros_no_U. done.
Qed.


(** C2: the sentence of the specification fails.  The category C is registered by a
    first row without a name and without a parent; a second row that names
    it also sets its parent. *)
Lemma category_parent_overwritten :
  Category.parent_category_uid <$>
    JsMap.get (erpCategoriesMap
                 (itemMasterV2Of SampleHost.host [Samples.unnamedCategory])) "C"
  = Some VNull
  ∧ Category.parent_category_uid <$>
      JsMap.get (erpCategoriesMap
                   (itemMasterV2Of SampleHost.host
                      [Samples.unnamedCategory; Samples.namedCategory])) "C"
    = Some (VStr "P").
Proof. split; vm_compute; reflexivity. Qed.

(** C2, on a row that populates the levels 2 and 4 only: the parent of
    the node of level 4 is the id of level 2. *)
Lemma category_chain_witness :
  JsMap.get (registerCategories SampleHost.host Samples.levelsTwoAndFour []) "D"
  = Some {| Category.erp_category_uid := VStr "D"; Category.name := VStr "D";
            Category.parent_category_uid := VStr "B" |}.
Proof.
  refine (proj1 (category_chain SampleHost.host Samples.levelsTwoAndFour [] 4 _ _ _)).
  - lia.
  - reflexivity.
  - intros other Ho Hne Hpop.
    assert (other = 1 ∨ other = 2 ∨ other = 3 ∨ other = 5 ∨ other = 6)%nat
      as [->|[->|[->|[->| ->]]]] by lia;
      vm_compute in Hpop; try discriminate Hpop; vm_compute; discriminate.
Defined.



(** C8: the sentence of the specification fails.  Two tables that differ have the same
    serialized text, so no reader gives both back; the reader of this
    file gives back three records for the first table of two. *)
Lemma round_trip_fails_on_line_feed :
  arrayToCsv SampleHost.host Samples.lineFeedTable ["a"; "b"]
  = arrayToCsv SampleHost.host Samples.twinTable ["a"; "b"]
  ∧ fieldTexts SampleHost.host Samples.lineFeedTable ["a"; "b"]
    ≠ fieldTexts SampleHost.host Samples.twinTable ["a"; "b"]
  ∧ CsvReader.parseCsv ["a"; "b"]
      (arrayToCsv SampleHost.host Samples.lineFeedTable ["a"; "b"])
    = Some [["1"; "x"]; ["y"]; ["2"; "z"]].
Proof.
  split; [vm_compute; reflexivity|]. split; [|vm_compute; reflexivity].
  vm_compute. intros H. discriminate H.
Qed.

(** C8, as amended, on a supplier table with a comma in an id and a null
    name. *)
Lemma csv_round_trip_witness :
  CsvReader.parseCsv ["supplier_uid"; "name"; "is_deleted"]
    (arrayToCsv SampleHost.host Samples.suppliers ["supplier_uid"; "name"; "is_deleted"])
  = Some [["S,1"; "Acme"; "0"]; ["12.5"; ""; ""]].
Proof.
  refine (proj1 (csv_round_trip SampleHost.host Samples.suppliers
                   ["supplier_uid"; "name"; "is_deleted"] _ _)).
  - simpl. lia.
  - repeat constructor.
Defined.

(** C9, on a workbook whose sheet has the keywords of STOCK: detection
    succeeds and the dispatcher throws. *)
Lemma stock_price_not_implemented_witness :
  detectFileType SampleHost.host
    {| SheetNames := ["Stock"]; Sheets := {[ "Stock" := Samples.stockGrid ]} |}
  = (STOCK, Some "Stock")
  ∧ generateCsvsFromExcel SampleHost.host
      {| SheetNames := ["Stock"]; Sheets := {[ "Stock" := Samples.stockGrid ]} |} ∅
    = ([say processing "Reading and analyzing Excel file..."],
       Throw (notImplemented STOCK)).
Proof.
  split; [reflexivity|].
  refine (proj2 (stock_price_not_implemented SampleHost.host
            {| SheetNames := ["Stock"]; Sheets := {[ "Stock" := Samples.stockGrid ]} |}
            ∅ STOCK "Stock" _ _) _).
  - reflexivity.
  - by left.
  - discriminate.
Defined.

(** ** The further properties, on the sample host *)


(** X1, on a host whose clock goes forward by an hour at the local
    midnight of 2023-03-15, so that this midnight is skipped: the
    instant that the host gives for it reads 01:00 of that day, and the
    serial number 45000 still gives that day. *)
Lemma serial_date_any_zone_witness :
  (localTime ForwardClockHost.host
     (utcOfLocal ForwardClockHost.host (19431 * JsDate.msPerDay))
   = 19431 * JsDate.msPerDay + 3600000)%Z
  ∧ resolveDate ForwardClockHost.host (VNum (Fin 45000 0)) = VStr "2023-03-15".
Proof.
  split; [reflexivity|].
  refine (serial_date_any_zone ForwardClockHost.host 45000 _ _ _).
  - vm_compute. split; [intros H; discriminate H|reflexivity].
  - vm_compute. intros H; discriminate H.
  - lia.
Defined.

(** X2, on the serial number 200000000. *)
Lemma serial_beyond_range_witness :
  resolveDate SampleHost.host (VNum (Fin 200000000 0)) = VStr "NaN-NaN-NaN".
Proof.
  refine (proj1 (serial_beyond_range SampleHost.host 200000000 _)).
  split; reflexivity.
Defined.

(** X20, on a selection of a stores workbook, a stock workbook and a
    text file: the text file is not listed, the stock workbook is listed in
    error and skipped, the stores workbook is processed. *)
Lemma processing_after_detection_witness :
  (λ s, fileInfos _ (handleProcess SampleHost.host (λ _, Ok "blob:archive") s)
        = settledInfo SampleHost.host <$> fileInfos _ s
        ∧ fileStatus _ <$> fileInfos _ s = [filePending; fileError])
    (handleFilesChange SampleHost.host
       (Some [ {| fileName := "stores.xlsx";
                  workbookOf := Ok {| SheetNames := ["Stores"];
                                      Sheets := {[ "Stores" :=
                                        [[VStr "Store UID*"; VStr "Store name*"];
                                         [VStr "S1"; VStr "Shop A"]] ]} |} |};
               {| fileName := "stock.xls";
                  workbookOf := Ok {| SheetNames := ["Stock"];
                                      Sheets := {[ "Stock" := Samples.stockGrid ]} |} |};
               {| fileName := "notes.txt"; workbookOf := Throw "not a workbook" |} ])
       (initialState SampleHost.host)).
Proof.
  cbv beta. split; [|vm_compute; reflexivity].
  refine (proj1 (processing_after_detection SampleHost.host (λ _, Ok "blob:archive")
            [ {| fileName := "stores.xlsx";
                 workbookOf := Ok {| SheetNames := ["Stores"];
                                     Sheets := {[ "Stores" :=
                                       [[VStr "Store UID*"; VStr "Store name*"];
                                        [VStr "S1"; VStr "Shop A"]] ]} |} |};
              {| fileName := "stock.xls";
                 workbookOf := Ok {| SheetNames := ["Stock"];
                                     Sheets := {[ "Stock" := Samples.stockGrid ]} |} |} ]
            _ _)).
  reflexivity.
Defined.

(** X23, on a selection of one stores workbook: no option is shown, and
    toggling the option of the suppliers changes nothing else. *)
Lemma hidden_option_is_inert_witness :
  (λ s, handleProcess SampleHost.host (λ _, Ok "blob:archive")
          (setCsvOptions SampleHost.host (λ prev, handleCsvOptionChange prev "suppliers") s)
        = setCsvOptions SampleHost.host (λ prev, handleCsvOptionChange prev "suppliers")
            (handleProcess SampleHost.host (λ _, Ok "blob:archive") s))
    (handleFilesChange SampleHost.host
       (Some [ {| fileName := "stores.xlsx";
                  workbookOf := Ok {| SheetNames := ["Stores"];
                                      Sheets := {[ "Stores" :=
                                        [[VStr "Store UID*"; VStr "Store name*"];
                                         [VStr "S1"; VStr "Shop A"]] ]} |} |} ])
       (initialState SampleHost.host)).
Proof.
  cbv beta.
  refine (hidden_option_is_inert SampleHost.host (λ _, Ok "blob:archive")
            [ {| fileName := "stores.xlsx";
                 workbookOf := Ok {| SheetNames := ["Stores"];
                                     Sheets := {[ "Stores" :=
                                       [[VStr "Store UID*"; VStr "Store name*"];
                                        [VStr "S1"; VStr "Shop A"]] ]} |} |} ]
            _ "suppliers" _ _).
  - reflexivity.
  - vm_compute. intros H. inversion H.
Defined.

(** X26, on the sample host, whose two readings of a sheet are the same
    grid: the workbook with a stock sheet ends in the error of a type
    without processor. *)
Lemma detected_sheet_has_header_witness :
  match (generateCsvsFromExcel SampleHost.host
           {| SheetNames := ["Stock"]; Sheets := {[ "Stock" := Samples.stockGrid ]} |} ∅).2
  with
  | Throw msg => msg ∈ typeErrors
  | Ok _ => True
  end.
Proof.
  refine (detected_sheet_has_header SampleHost.host _ _
            {| SheetNames := ["Stock"]; Sheets := {[ "Stock" := Samples.stockGrid ]} |} ∅).
  - exact sample_date_text.
  - intros sheet i row Hi. exists row. split; [exact Hi|]. intros s Hs. exact Hs.
Defined.

(** ** Scenarios on the sample host *)

(** A stores sheet with one data row gives one table with the fixed
  licence date and the zero defaults. *)
Example stores_scenario :
  (generateCsvsFromExcel SampleHost.host
     {| SheetNames := ["Stores"];
        Sheets := {[ "Stores" :=
          [[VStr "Store UID*"; VStr "Store name*"; VStr "Region"; VStr "Square";
            VStr "In Shelf?"; VStr "To delete"];
           [VStr "S1"; VStr "Shop A"; VStr "North"; VStr "120"; VStr "1"; VStr ""]] ]} |}
     ∅).2
  = Ok ([ {| name := "stores_20231114.csv";
             content :=
               Samples.twoLines
                 "store_uid,name,region,group_name,floor_space,in_shelf,licence_start_date,is_deleted"
                 "S1,Shop A,North,,120,1,2023-01-01,0" |} ], STORE).
Proof. vm_compute. reflexivity. Qed.

(** Two rows of the first item-master format with the same id give one
  item record and two barcode records. *)
Example item_master_scenario :
  (λ st, (MasterItem.item_uid <$> masteritemsData st,
          Barcode.barcode <$> barcodesData st))
    (itemMasterOf SampleHost.host
       [literal [("UID*", VStr "X1"); ("Product name*", VStr "Milk"); ("Barcode", VStr "111")];
        literal [("UID*", VNum (Fin 7 0)); ("Barcode", VNull)];
        literal [("UID*", VStr "X1"); ("Product name*", VStr "Milk 2"); ("Barcode", VStr "222")]])
  = (["X1"; "7"], [VStr "111"; VStr "222"]).
Proof. vm_compute. reflexivity. Qed.

(** A facts sheet: the serial number 45000 is the 15th of March 2023, a
  zero stock is null, and a row whose date does not resolve is dropped. *)
Example facts_scenario :
  (generateCsvsFromExcel SampleHost.host
     {| SheetNames := ["Facts"];
        Sheets := {[ "Facts" :=
          [[VStr "Product UID*"; VStr "Store UID*"; VStr "Date*"; VStr "Stock";
            VStr "Out sale"];
           [VStr "P1"; VStr "S1"; VNum (Fin 45000 0); VStr "0"; VStr "1,5"];
           [VStr "P2"; VStr "S1"; VStr "soon"; VStr "3"; VStr "1"]] ]} |}
     ∅).2
  = Ok ([ {| name := "facts_20231114.csv";
             content :=
               Samples.twoLines "item_uid,store_uid,date,stock,sold_qty,revenue,cogs"
                 "P1,S1,2023-03-15,,1.5,," |} ], FACTS).
Proof. vm_compute. reflexivity. Qed.
